(** * Nearest-feature analysis plugin: a Rocq model of [Nearest_Analysis.py]

    The development embeds the computational core of the QGIS dialog
    [NearestAnalysisDialog]: the bearing helpers [azimuth_to_dir] and
    [azimuth_geographic], the CRS normaliser [_to_metric_gdf], the
    pre-download step [run_prestep] with its cache [api_pre_filtered], and
    the selection and export part of [run_analysis].

    Python [float] values are IEEE-754 binary64 numbers.  They are modelled
    by their exact rational value together with an explicit rounding
    function, so that every arithmetic operation of the source is rounded
    exactly where the interpreter rounds it. *)

From Stdlib Require Import Floats.
From Stdlib Require Import ZArith QArith Qround Qabs Qpower Qreduction.
From Stdlib Require Import Lia Lqa Bool List String Ascii.
From Stdlib Require Import Permutation Sorted.
From stdpp Require Import base gmap strings pretty.
Import ListNotations.

(* ===================================================================== *)
(** ** Exceptions *)
(* ===================================================================== *)

(** The exception classes that the modelled code can meet. *)
Inductive exn : Type :=
| ZeroDivisionError
| ValueError
| OverflowError
| IndexError
| KeyError (key : string)
| LibraryError (msg : string).

(** A computation either returns a value or raises. *)
Inductive result (A : Type) : Type :=
| Ok (a : A)
| Raise (e : exn).

Arguments Ok {A} a.
Arguments Raise {A} e.

Definition bind {A B : Type} (r : result A) (k : A -> result B) : result B :=
  match r with
  | Ok a => k a
  | Raise e => Raise e
  end.

Notation "'let*' x ':=' r 'in' k" := (bind r (fun x => k))
  (at level 10, x name, r at level 200, k at level 200).

(* ===================================================================== *)
(** ** Binary64 floating point, as CPython uses it *)
(* ===================================================================== *)

Module PyFloat.

Local Open Scope Q_scope.

(** A double is a NaN, an infinity, or a finite value.  The sign of a zero
    is not tracked: no operation of the modelled code observes it. *)
Inductive float : Type :=
| NaN : float
| Inf (neg : bool) : float
| Fin (q : Q) : float.

(** [ilog2 q] is the binary exponent of a positive rational:
    [2 ^ ilog2 q <= q < 2 ^ (ilog2 q + 1)]. *)
Definition ilog2 (q : Q) : Z :=
  let e0 := (Z.log2 (Qnum q) - Z.log2 (Zpos (Qden q)))%Z in
  if Qle_bool (2 ^ e0) q then e0 else (e0 - 1)%Z.

(** Exponent of the unit in the last place: 53 bits of precision, gradual
    underflow below [2 ^ -1022]. *)
Definition cexp (q : Q) : Z := Z.max (ilog2 q - 52) (-1074).

(** Round to the nearest integer, ties to even (for [0 <= x]). *)
Definition rne (x : Q) : Z :=
  let f := Qfloor x in
  match Qcompare (x - inject_Z f)%Q (1 # 2)%Q with
  | Lt => f
  | Gt => (f + 1)%Z
  | Eq => if Z.even f then f else (f + 1)%Z
  end.

(** Rounding of a positive rational to the binary64 grid (no overflow
    check yet). *)
Definition round_pos (q : Q) : Q :=
  let c := cexp q in Qred (inject_Z (rne (q / 2 ^ c)) * 2 ^ c).

Definition round_q (q : Q) : Q :=
  match Qnum q with
  | Z0 => 0
  | Zpos _ => round_pos q
  | Zneg _ => Qred (- round_pos (- q))
  end.

(** The default rounding of binary64: nearest, ties to even, overflow to an
    infinity once the rounded magnitude reaches [2 ^ 1024]. *)
Definition rnd (q : Q) : float :=
  let r := round_q q in
  if Qle_bool (2 ^ 1024) (Qabs r) then Inf (negb (Qle_bool 0 r)) else Fin r.

(** A Python float literal denotes the double nearest to its decimal value. *)
Definition lit (q : Q) : float := rnd q.

Definition is_nan (x : float) : bool :=
  match x with NaN => true | _ => false end.

Definition is_finite (x : float) : bool :=
  match x with Fin _ => true | _ => false end.

(** The largest double, [sys.float_info.max]. *)
Definition maxf : Q := inject_Z (2 ^ 53 - 1) * 2 ^ 971.

(** A finite value is a double when rounding leaves it unchanged and it
    does not exceed the largest double. *)
Definition representable (q : Q) : bool :=
  Qeq_bool (round_q q) q && Qle_bool (Qabs q) maxf.

Definition is_double (x : float) : bool :=
  match x with Fin q => representable q | _ => true end.

Definition fneg (x : float) : float :=
  match x with
  | NaN => NaN
  | Inf s => Inf (negb s)
  | Fin q => Fin (Qred (- q))
  end.

Definition fadd (x y : float) : float :=
  match x, y with
  | NaN, _ | _, NaN => NaN
  | Inf s, Inf t => if Bool.eqb s t then Inf s else NaN
  | Inf s, Fin _ => Inf s
  | Fin _, Inf t => Inf t
  | Fin a, Fin b => rnd (a + b)
  end.

Definition fsub (x y : float) : float := fadd x (fneg y).

Definition fmul (x y : float) : float :=
  match x, y with
  | NaN, _ | _, NaN => NaN
  | Inf s, Inf t => Inf (xorb s t)
  | Inf s, Fin b =>
      if Qeq_bool b 0 then NaN else Inf (xorb s (negb (Qle_bool 0 b)))
  | Fin a, Inf t =>
      if Qeq_bool a 0 then NaN else Inf (xorb t (negb (Qle_bool 0 a)))
  | Fin a, Fin b => rnd (a * b)
  end.

(** Division by a finite non-zero double; the callers below test the
    divisor against zero first, as CPython does. *)
Definition fdiv (x y : float) : float :=
  match x, y with
  | NaN, _ | _, NaN => NaN
  | Inf _, Inf _ => NaN
  | Inf s, Fin b => Inf (xorb s (negb (Qle_bool 0 b)))
  | Fin _, Inf _ => Fin 0
  | Fin a, Fin b =>
      if Qeq_bool b 0 then (if Qeq_bool a 0 then NaN else Inf (negb (Qle_bool 0 a)))
      else rnd (a / b)
  end.

(** Truncation toward zero. *)
Definition Qtrunc (q : Q) : Z :=
  if Qle_bool 0 q then Qfloor q else Qceiling q.

(** C's [fmod]: the result has the sign of [x] and is exact. *)
Definition fmod (x y : float) : float :=
  match x, y with
  | NaN, _ | _, NaN => NaN
  | Inf _, _ => NaN
  | Fin a, Inf _ => Fin a
  | Fin a, Fin b =>
      if Qeq_bool b 0 then NaN
      else Fin (Qred (a - b * inject_Z (Qtrunc (a / b))))
  end.

(** C's [floor]: exact on finite values. *)
Definition ffloor (x : float) : float :=
  match x with
  | Fin q => Fin (inject_Z (Qfloor q))
  | _ => x
  end.

(** Comparisons; every comparison with a NaN is false. *)
Definition flt (x y : float) : bool :=
  match x, y with
  | NaN, _ | _, NaN => false
  | Inf s, Inf t => s && negb t
  | Inf s, Fin _ => s
  | Fin _, Inf t => negb t
  | Fin a, Fin b => negb (Qle_bool b a)
  end.

Definition fle (x y : float) : bool :=
  match x, y with
  | NaN, _ | _, NaN => false
  | Inf s, Inf t => s || negb t
  | Inf s, Fin _ => s
  | Fin _, Inf t => negb t
  | Fin a, Fin b => Qle_bool a b
  end.

Definition feq (x y : float) : bool := fle x y && fle y x.

(** C truth value of a double: non-zero, a NaN included. *)
Definition truthy (x : float) : bool := negb (feq x (Fin 0)).

(** CPython's [_float_div_mod] (Objects/floatobject.c), for [wx <> 0]:
    returns [(floordiv, mod)]. *)
Definition float_div_mod (vx wx : float) : float * float :=
  let mod0 := fmod vx wx in
  let div0 := fdiv (fsub vx mod0) wx in
  let '(div, md) :=
    if truthy mod0 then
      if negb (Bool.eqb (flt wx (Fin 0)) (flt mod0 (Fin 0)))
      then (fsub div0 (Fin 1), fadd mod0 wx)
      else (div0, mod0)
    else (div0, Fin 0) in
  let floordiv :=
    if truthy div then
      let fl := ffloor div in
      if flt (Fin (1 # 2)) (fsub div fl) then fadd fl (Fin 1) else fl
    else Fin 0 in
  (floordiv, md).

(** [vx // wx] on floats ([float_floor_div]). *)
Definition float_floor_div (vx wx : float) : result float :=
  if feq wx (Fin 0) then Raise ZeroDivisionError
  else Ok (fst (float_div_mod vx wx)).

(** [vx % wx] on floats ([float_rem]). *)
Definition float_rem (vx wx : float) : result float :=
  if feq wx (Fin 0) then Raise ZeroDivisionError
  else
    let mod0 := fmod vx wx in
    Ok (if truthy mod0 then
          if negb (Bool.eqb (flt wx (Fin 0)) (flt mod0 (Fin 0)))
          then fadd mod0 wx else mod0
        else Fin 0).

(** [int(x)]: truncation toward zero; a NaN raises [ValueError], an
    infinity [OverflowError]. *)
Definition py_int (x : float) : result Z :=
  match x with
  | Fin q => Ok (Qtrunc q)
  | NaN => Raise ValueError
  | Inf _ => Raise OverflowError
  end.

(** [math.pi] and the factor of [math.degrees], [180.0 / pi], as doubles. *)
Definition pi : float := lit 3.141592653589793.
Definition radToDeg : float := fdiv (lit 180) pi.

(** [math.degrees(x)] is [x * radToDeg]. *)
Definition degrees (x : float) : float := fmul x radToDeg.

End PyFloat.

Import PyFloat.

(* ===================================================================== *)
(** ** Bearing helpers of [run_analysis] *)
(* ===================================================================== *)

Local Open Scope string_scope.

Definition dirs8 : list string :=
  ["N"; "NE"; "E"; "SE"; "S"; "SW"; "W"; "NW"].

(** [dirs8[idx]] for a non-negative index. *)
Definition list_index {A : Type} (l : list A) (idx : Z) : result A :=
  match nth_error l (Z.to_nat idx) with
  | Some a => Ok a
  | None => Raise IndexError
  end.

(** [azimuth_to_dir] (nested in [run_analysis]):
    [idx = int((deg + 22.5) // 45) % 8; return dirs8[idx]]. *)
Definition azimuth_to_dir (deg : float) : result string :=
  let* q := float_floor_div (fadd deg (lit 22.5)) (lit 45) in
  let* i := py_int q in
  let idx := (i mod 8)%Z in
  list_index dirs8 idx.

(** A shapely point. *)
Record point : Type := mkPoint { px : float; py : float }.

Section Bearing.

(** [math.atan2] comes from the C library; it is a parameter here. *)
Variable atan2 : float -> float -> float.

(** [azimuth_geographic] (nested in [run_analysis]). *)
Definition azimuth_geographic (p1 p2 : point) : result float :=
  let dx := fsub (px p2) (px p1) in
  let dy := fsub (py p2) (py p1) in
  let angle_deg := degrees (atan2 dx dy) in
  float_rem (fadd angle_deg (lit 360)) (lit 360).

End Bearing.


(* ===================================================================== *)
(** ** Library primitives: shapely, pyproj, numpy, libm *)
(* ===================================================================== *)

(** A coordinate reference system as [pyproj.CRS] presents it to the code:
    [to_epsg()] gives its EPSG code, or [None] when it has none. *)
Inductive crs : Type :=
| EPSG (code : Z)
| OtherCRS (wkt : string).

Definition to_epsg (c : crs) : option Z :=
  match c with
  | EPSG code => Some code
  | OtherCRS _ => None
  end.

(** The operations of the geometry libraries that the dialog calls, over an
    abstract type of shapely geometries. *)
Class GeoLib (geometry : Type) : Type := {
  (** [a.intersects(b)] *)
  intersects : geometry -> geometry -> bool;
  (** [g.buffer(r)] *)
  buffer : geometry -> float -> geometry;
  (** [gdf.unary_union] of a geometry column *)
  unary_union : list geometry -> geometry;
  (** [g.centroid] *)
  centroid : geometry -> point;
  (** [g.boundary] *)
  boundary : geometry -> geometry;
  (** [shapely.ops.nearest_points(a, b)] *)
  nearest_points : geometry -> geometry -> result (point * point);
  (** [g.distance(p)] for a point [p] *)
  distance : geometry -> point -> float;
  (** [g.bounds]: [(minx, miny, maxx, maxy)] *)
  bounds : geometry -> float * float * float * float;
  (** the reprojection behind [GeoDataFrame.to_crs(epsg=...)] *)
  transform : crs -> Z -> geometry -> result geometry;
  (** [numpy.argsort] of a float array with the default [kind="quicksort"] *)
  argsort : list float -> list nat;
  (** [math.atan2] *)
  atan2 : float -> float -> float
}.

(* ===================================================================== *)
(** ** Data frames *)
(* ===================================================================== *)

Fixpoint mapM {A B : Type} (f : A -> result B) (l : list A) : result (list B) :=
  match l with
  | [] => Ok []
  | a :: l' =>
      let* b := f a in
      let* bs := mapM f l' in
      Ok (b :: bs)
  end.

(** Position of the first column called [name]. *)
Fixpoint index_of (name : string) (cols : list string) : option nat :=
  match cols with
  | [] => None
  | c :: cs => if String.eqb c name then Some 0%nat else option_map S (index_of name cs)
  end.

(** Rows of [l] whose mask bit is set (boolean indexing). *)
Fixpoint select_mask {A : Type} (mask : list bool) (l : list A) : list A :=
  match mask, l with
  | b :: mask', a :: l' => if b then a :: select_mask mask' l' else select_mask mask' l'
  | _, _ => []
  end.

(** [l[order]]: the elements of [l] at the positions [order]. *)
Definition take_order {A : Type} (order : list nat) (l : list A) : list A :=
  flat_map (fun i => match nth_error l i with Some a => [a] | None => [] end) order.

(** Replace position [i] of a row. *)
Fixpoint set_nth {A : Type} (i : nat) (a : A) (l : list A) : list A :=
  match i, l with
  | _, [] => []
  | O, _ :: l' => a :: l'
  | S i', x :: l' => x :: set_nth i' a l'
  end.

Section Frames.

Context {geometry : Type} `{GeoLib geometry}.

(** A cell of a GeoDataFrame. *)
Inductive cell : Type :=
| CStr (s : string)
| CNum (x : float)
| CGeom (g : geometry)
| CNull.

(** A GeoDataFrame: its column labels in order, its rows (one cell per
    column), and its [crs] attribute. *)
Record frame : Type := mkFrame {
  columns : list string;
  rows : list (list cell);
  frame_crs : option crs
}.

(** [len(df)] *)
Definition frame_len (f : frame) : nat := length (rows f).

(** [df.empty]: some axis has length zero. *)
Definition frame_empty (f : frame) : bool :=
  match rows f, columns f with
  | [], _ | _, [] => true
  | _, _ => false
  end.

Definition get_cell (f : frame) (name : string) (r : list cell) : result cell :=
  match index_of name (columns f) with
  | None => Raise (KeyError name)
  | Some i =>
      match nth_error r i with
      | Some c => Ok c
      | None => Raise IndexError
      end
  end.

Definition cell_geometry (c : cell) : result geometry :=
  match c with
  | CGeom g => Ok g
  | _ => Raise (LibraryError "not a geometry")
  end.

Definition cell_float (c : cell) : result float :=
  match c with
  | CNum x => Ok x
  | CNull => Ok NaN
  | _ => Raise (LibraryError "not a number")
  end.

(** [df.geometry]: the active geometry column, named ["geometry"]. *)
Definition frame_geometry (f : frame) : result (list geometry) :=
  mapM (fun r => let* c := get_cell f "geometry" r in cell_geometry c) (rows f).

(** [df[mask]] *)
Definition filter_rows (mask : list bool) (f : frame) : frame :=
  mkFrame (columns f) (select_mask mask (rows f)) (frame_crs f).

(** [df[name] = values]: an existing column is overwritten in place, a new
    one is appended on the right. *)
Definition set_column (name : string) (values : list cell) (f : frame) : result frame :=
  if negb (length values =? length (rows f))%nat
  then Raise ValueError
  else
    match index_of name (columns f) with
    | Some i =>
        Ok (mkFrame (columns f)
              (map (fun rv => set_nth i (snd rv) (fst rv)) (combine (rows f) values))
              (frame_crs f))
    | None =>
        Ok (mkFrame (columns f ++ [name])%list
              (map (fun rv => (fst rv ++ [snd rv])%list) (combine (rows f) values))
              (frame_crs f))
    end.

(** [df[names]] for a list of labels; a missing label is a [KeyError]. *)
Definition select_columns (names : list string) (f : frame) : result frame :=
  let* data := mapM (fun r => mapM (fun n => get_cell f n r) names) (rows f) in
  let* _ := mapM (fun n => match index_of n (columns f) with
                            | Some _ => Ok tt
                            | None => Raise (KeyError n)
                            end) names in
  Ok (mkFrame names data (frame_crs f)).

(** Positions of the NaN and of the other entries of a float column. *)
Fixpoint nan_split (i : nat) (v : list float) : list nat * list nat :=
  match v with
  | [] => ([], [])
  | x :: v' =>
      let '(ok, nans) := nan_split (S i) v' in
      if is_nan x then (ok, i :: nans) else (i :: ok, nans)
  end.

(** pandas' [nargsort] with [ascending=True], [na_position="last"]: the
    entries that are not NaN are ordered by numpy's [argsort], the NaN
    rows follow. *)
Definition nargsort (v : list float) : list nat :=
  let '(non_nan_idx, nan_idx) := nan_split 0 v in
  let non_nans := take_order non_nan_idx v in
  (take_order (argsort non_nans) non_nan_idx ++ nan_idx)%list.

(** [df.sort_values(by, ascending=True)] with the default
    [kind="quicksort"]. *)
Definition sort_values (by_col : string) (f : frame) : result frame :=
  let* keys := mapM (fun r => let* c := get_cell f by_col r in cell_float c) (rows f) in
  Ok (mkFrame (columns f) (take_order (nargsort keys) (rows f)) (frame_crs f)).

(** [df.head(1)] *)
Definition head1 (f : frame) : frame :=
  mkFrame (columns f) (firstn 1 (rows f)) (frame_crs f).

Definition has_geometry (f : frame) : bool :=
  match index_of "geometry" (columns f) with Some _ => true | None => false end.

(** [gdf.set_crs(epsg=code)]: needs a geometry column; an existing,
    different CRS is not overridden. *)
Definition set_crs (code : Z) (f : frame) : result frame :=
  if negb (has_geometry f) then Raise (LibraryError "no geometry column")
  else
    match frame_crs f with
    | None => Ok (mkFrame (columns f) (rows f) (Some (EPSG code)))
    | Some c =>
        match to_epsg c with
        | Some code' =>
            if (code' =? code)%Z then Ok f else Raise ValueError
        | None => Raise ValueError
        end
    end.

Definition transform_cell (src : crs) (code : Z) (c : cell) : result cell :=
  match c with
  | CGeom g => let* g' := transform src code g in Ok (CGeom g')
  | _ => Ok c
  end.

(** [gdf.to_crs(epsg=code)]: a frame without CRS cannot be transformed. *)
Definition to_crs (code : Z) (f : frame) : result frame :=
  match frame_crs f with
  | None => Raise ValueError
  | Some src =>
      let* data := mapM (mapM (transform_cell src code)) (rows f) in
      Ok (mkFrame (columns f) data (Some (EPSG code)))
  end.

End Frames.

Arguments cell geometry : clear implicits.
Arguments frame geometry : clear implicits.

(* ===================================================================== *)
(** ** Python string methods used on layer names and URLs *)
(* ===================================================================== *)

Module PyStr.

Definition ascii_lower (c : ascii) : ascii :=
  let n := N_of_ascii c in
  if ((65 <=? n) && (n <=? 90))%N then ascii_of_N (n + 32) else c.

(** [s.lower()] on ASCII text *)
Fixpoint lower (s : string) : string :=
  match s with
  | EmptyString => EmptyString
  | String c s' => String (ascii_lower c) (lower s')
  end.

Definition startswith (p s : string) : bool := String.prefix p s.

Definition endswith (p s : string) : bool :=
  String.prefix (String.rev p) (String.rev s).

(** [p in s] *)
Fixpoint contains (p s : string) : bool :=
  String.prefix p s ||
  match s with
  | EmptyString => false
  | String _ s' => contains p s'
  end.

Definition mem_ascii (c : ascii) (cs : string) : bool :=
  existsb (Ascii.eqb c) (list_ascii_of_string cs).

Fixpoint lstrip (cs s : string) : string :=
  match s with
  | EmptyString => EmptyString
  | String c s' => if mem_ascii c cs then lstrip cs s' else s
  end.

Definition rstrip (cs s : string) : string :=
  String.rev (lstrip cs (String.rev s)).

(** [s.strip(cs)] *)
Definition strip (cs s : string) : string := rstrip cs (lstrip cs s).

(** The characters that [s.strip()] removes: space, tab, newline,
    carriage return, vertical tab, form feed. *)
Definition whitespace : string :=
  string_of_list_ascii
    (map ascii_of_nat [32; 9; 10; 13; 11; 12]%nat).

(** The single and the double quote, the characters that [run_prestep]
    strips from a source string. *)
Definition quotes : string :=
  string_of_list_ascii (map ascii_of_nat [39; 34]%nat).

(** [s.replace(old, new)] for a non-empty [old]; [skip] counts the
    characters of a match that are still to be dropped. *)
Fixpoint replace_go (old new : string) (skip : nat) (s : string) : string :=
  match s with
  | EmptyString => EmptyString
  | String c s' =>
      match skip with
      | S k => replace_go old new k s'
      | O =>
          if String.prefix old s
          then new +:+ replace_go old new (String.length old - 1) s'
          else String c (replace_go old new 0 s')
      end
  end.

Definition replace (old new s : string) : string := replace_go old new 0 s.

(** [s.split(sep)[0]] for a one-character separator *)
Fixpoint before (sep : ascii) (s : string) : string :=
  match s with
  | EmptyString => EmptyString
  | String c s' => if Ascii.eqb c sep then EmptyString else String c (before sep s')
  end.

End PyStr.

(* ===================================================================== *)
(** ** The dialog: state, effects, and the world around it *)
(* ===================================================================== *)

(** A map layer of the QGIS project; [layer_is_vector] is
    [isinstance(layer, QgsVectorLayer)]. *)
Record layer : Type := mkLayer {
  layer_name : string;
  layer_provider : string;
  layer_source : string;
  layer_fields : list string;
  layer_is_vector : bool
}.

(** A combo box: its items and [currentIndex()] ([-1] when empty). *)
Record combo : Type := mkCombo {
  items : list string;
  current : Z
}.

Definition combo_clear : combo := mkCombo [] (-1).

Definition combo_add (x : string) (c : combo) : combo :=
  mkCombo (items c ++ [x])%list (if (current c <? 0)%Z then 0%Z else current c).

Definition currentText (c : combo) : string :=
  if (current c <? 0)%Z then EmptyString
  else nth (Z.to_nat (current c)) (items c) EmptyString.

Definition exn_text (e : exn) : string :=
  match e with
  | ZeroDivisionError => "float modulo"
  | ValueError => "ValueError"
  | OverflowError => "OverflowError"
  | IndexError => "list index out of range"
  | KeyError k => k
  | LibraryError msg => msg
  end.

Section Dialog.

Context {geometry : Type} `{GeoLib geometry}.

(** A value of a request parameter. *)
Inductive param : Type :=
| PStr (s : string)
| PInt (n : Z)
| PEnvelope (box : float * float * float * float).

(** What a run does to its surroundings, in order. *)
Inductive event : Type :=
| Log (msg : string)
| LogTraceback (e : exn)
| MsgWarning (title text : string)
| MsgInformation (title text : string)
| HttpGet (url : string) (params : list (string * param))
| CsvSaved (path : string) (header : list string) (data : list (list (cell geometry)))
| FigureShown.

(** One GeoJSON feature of an ArcGIS response. *)
Record feature : Type := mkFeature {
  feat_geometry : result geometry;
  feat_properties : list (string * cell geometry);
  feat_attributes : list (string * cell geometry)
}.

(** The surroundings of the dialog: the QGIS project, the file system,
    the two remote services and the user at the file dialog. *)
Record world : Type := mkWorld {
  project_layers : list layer;
  wfs_contents : result (list (string * string));
  read_file : string -> result (frame geometry);
  wfs_get_feature : string -> result (frame geometry);
  arcgis_query : string -> float * float * float * float -> result (list feature);
  getSaveFileName : string
}.

(** The fields of [NearestAnalysisDialog] that the methods below use,
    and the trace of what the dialog has done so far. *)
Record dialog : Type := mkDialog {
  wfs_layers_info : gmap string string;
  api_pre_filtered : gmap (string * Z) (frame geometry);
  shp_layers : list layer;
  api_layers : list layer;
  combo_app : combo;
  combo_api : combo;
  fields_list : list string;
  selectedItems : list string;
  trace : list event
}.

Definition set_trace (t : list event) (d : dialog) : dialog :=
  mkDialog (wfs_layers_info d) (api_pre_filtered d) (shp_layers d) (api_layers d)
    (combo_app d) (combo_api d) (fields_list d) (selectedItems d) t.

Definition set_api_pre_filtered (c : gmap (string * Z) (frame geometry)) (d : dialog)
  : dialog :=
  mkDialog (wfs_layers_info d) c (shp_layers d) (api_layers d)
    (combo_app d) (combo_api d) (fields_list d) (selectedItems d) (trace d).

(** A method body: it reads and updates the dialog and may raise. *)
Definition M (A : Type) : Type := dialog -> result A * dialog.

Definition ret {A : Type} (a : A) : M A := fun d => (Ok a, d).

Definition raise {A : Type} (e : exn) : M A := fun d => (Raise e, d).

Definition lift {A : Type} (r : result A) : M A := fun d => (r, d).

Definition bindM {A B : Type} (m : M A) (k : A -> M B) : M B :=
  fun d =>
    match m d with
    | (Ok a, d') => k a d'
    | (Raise e, d') => (Raise e, d')
    end.

(** [try: body  except Exception as e: handler e] *)
Definition try_except {A : Type} (body : M A) (handler : exn -> M A) : M A :=
  fun d =>
    match body d with
    | (Ok a, d') => (Ok a, d')
    | (Raise e, d') => handler e d'
    end.

Definition emit (e : event) : M unit :=
  fun d => (Ok tt, set_trace (trace d ++ [e])%list d).

(** [self.log(message)] *)
Definition log (message : string) : M unit := emit (Log message).

Definition get : M dialog := fun d => (Ok d, d).

End Dialog.

Arguments event geometry : clear implicits.
Arguments feature geometry : clear implicits.
Arguments world geometry : clear implicits.
Arguments dialog geometry : clear implicits.
Arguments M geometry A : clear implicits.

Notation "'let!' x ':=' m 'in' k" := (bindM m (fun x => k))
  (at level 10, x name, m at level 200, k at level 200).
Notation "'do!' m 'in' k" := (bindM m (fun _ => k))
  (at level 10, m at level 200, k at level 200).

(* ===================================================================== *)
(** ** The methods of [NearestAnalysisDialog] *)
(* ===================================================================== *)

Definition is_empty_string (s : string) : bool :=
  match s with EmptyString => true | _ => false end.

(** [round(x, 2)]: the decimal value of [x] rounded half-even to two
    places, then the nearest double. *)
Definition round2 (x : float) : float :=
  match x with
  | Fin q =>
      let n := if Qle_bool 0 q then rne (q * 100) else (- rne (- q * 100))%Z in
      rnd (inject_Z n / 100)
  | _ => x
  end.

(** [d[k] = v] on a dict kept in insertion order. *)
Fixpoint dict_set {V : Type} (k : string) (v : V) (d : list (string * V)) : list (string * V) :=
  match d with
  | [] => [(k, v)]
  | (k', v') :: d' => if String.eqb k' k then (k, v) :: d' else (k', v') :: dict_set k v d'
  end.

Fixpoint dict_get {V : Type} (k : string) (d : list (string * V)) : option V :=
  match d with
  | [] => None
  | (k', v') :: d' => if String.eqb k' k then Some v' else dict_get k d'
  end.

(** Labels in order of first appearance. *)
Fixpoint add_labels (ks : list string) (seen : list string) : list string :=
  match ks with
  | [] => seen
  | k :: ks' =>
      add_labels ks' (if existsb (String.eqb k) seen then seen else (seen ++ [k])%list)
  end.

Section Methods.

Context {geometry : Type} `{GeoLib geometry}.

(** The world in which the dialog runs. *)
Variable w : world geometry.

Local Abbreviation frame := (frame geometry).
Local Abbreviation cell := (cell geometry).
Local Abbreviation dialog := (dialog geometry).
Local Abbreviation M := (M geometry).

(** [gpd.GeoDataFrame(records, crs=...)] for a list of dicts: the columns
    are the keys in order of first appearance, a missing value is null. *)
Definition frame_of_records (records : list (list (string * cell))) (c : option crs)
  : frame :=
  let cols := fold_left (fun seen r => add_labels (map fst r) seen) records [] in
  mkFrame cols
    (map (fun r => map (fun k => match dict_get k r with
                                 | Some v => v
                                 | None => CNull
                                 end) cols) records)
    c.

Definition epsg_is (code : Z) (c : crs) : bool :=
  match to_epsg c with
  | Some n => (n =? code)%Z
  | None => false
  end.

(** [_to_metric_gdf]: returns [(gdf_29903, changed, original_crs)]. *)
Definition _to_metric_gdf (gdf : frame) : M (frame * bool * option crs) :=
  let convert (gdf : frame) (orig_crs : option crs) : M (frame * bool * option crs) :=
    try_except
      (let! c := lift (match orig_crs with
                       | Some c => Ok c
                       | None => Raise (LibraryError "'NoneType' object has no attribute 'to_epsg'")
                       end) in
       if negb (epsg_is 29903 c) then
         let! gdf_29903 := lift (to_crs 29903 gdf) in
         do! log "Reprojected layer to EPSG:29903 (Irish Grid)." in
         ret (gdf_29903, true, orig_crs)
       else ret (gdf, false, orig_crs))
      (fun e =>
         do! log ("CRS conversion to EPSG:29903 failed: " +:+ exn_text e) in
         ret (gdf, false, orig_crs)) in
  match frame_crs gdf with
  | None =>
      match set_crs 4326 gdf with
      | Ok gdf' =>
          do! log "Layer has no CRS; assumed EPSG:4326." in
          convert gdf' (frame_crs gdf')
      | Raise _ =>
          do! log "Unable to set CRS for the layer." in
          ret (gdf, false, None)
      end
  | Some c => convert gdf (Some c)
  end.

(** The first loop of [populate_layers]: vector layers go to the
    application combo when they are OGR layers or shapefiles, to the API
    combo otherwise; the other layers of the project are skipped. *)
Definition add_project_layer (d : dialog) (l : layer) : dialog :=
  if negb (layer_is_vector l) then d
  else if String.eqb (PyStr.lower (layer_provider l)) "ogr"
     || PyStr.endswith ".shp" (PyStr.lower (layer_name l))
  then mkDialog (wfs_layers_info d) (api_pre_filtered d)
         (shp_layers d ++ [l])%list (api_layers d)
         (combo_add (layer_name l) (combo_app d)) (combo_api d)
         (fields_list d) (selectedItems d) (trace d)
  else mkDialog (wfs_layers_info d) (api_pre_filtered d)
         (shp_layers d) (api_layers d ++ [l])%list
         (combo_app d) (combo_add (layer_name l) (combo_api d))
         (fields_list d) (selectedItems d) (trace d).

Definition add_wfs_layer (d : dialog) (entry : string * string) : dialog :=
  let '(layer_name, title) := entry in
  let type_name :=
    if PyStr.startswith "EPA:" layer_name then layer_name else "EPA:" +:+ layer_name in
  let display_name := title +:+ " (" +:+ type_name +:+ ")" in
  mkDialog (<[display_name := type_name]> (wfs_layers_info d)) (api_pre_filtered d)
    (shp_layers d) (api_layers d)
    (combo_app d) (combo_add display_name (combo_api d))
    (fields_list d) (selectedItems d) (trace d).

(** [populate_layers]: both combos, both layer lists, the WFS catalogue
    and the cache of pre-filtered data are emptied and filled again.
    This is the method as [__init__] runs it, before its last lines
    connect the slots of the combos.  On a later call Qt calls these
    slots, and the slot of the field list, while the widgets are cleared
    and filled; those calls are not replayed here. *)
Definition populate_layers : M unit :=
  fun d =>
    let d0 := mkDialog ∅ ∅ [] [] combo_clear combo_clear
                (fields_list d) (selectedItems d) (trace d) in
    let d1 := fold_left add_project_layer (project_layers w) d0 in
    let '(_, d2) :=
      try_except
        (do! emit (HttpGet "https://gis.epa.ie/geoserver/EPA/wfs"
                     [("service", PStr "WFS"); ("version", PStr "1.1.0");
                      ("request", PStr "GetCapabilities")]) in
         let! contents := lift (wfs_contents w) in
         do! (fun d => (Ok tt, fold_left add_wfs_layer contents d)) in
         let! d' := get in
         log ("Loaded " +:+ pretty (size (wfs_layers_info d')) +:+ " WFS layers."))
        (fun e => log ("Failed to access WFS service: " +:+ exn_text e)) d1 in
    let d3 :=
      match shp_layers d2 with
      | first :: _ =>
          mkDialog (wfs_layers_info d2) (api_pre_filtered d2) (shp_layers d2)
            (api_layers d2) (combo_app d2) (combo_api d2)
            (layer_fields first) [] (trace d2)
      | [] => d2
      end in
    (Ok tt, d3).

(** The source string of the API layer called [api_name], if any. *)
Definition find_source (api_name : string) (ls : list layer) : option string :=
  match List.find (fun l => String.eqb (layer_name l) api_name) ls with
  | Some l => Some (layer_source l)
  | None => None
  end.

(** The clean-up of an ArcGIS source string in [run_prestep]. *)
Definition clean_source (source_str : string) : string :=
  let s := PyStr.strip PyStr.whitespace source_str in
  let s := if PyStr.startswith "url=" s
           then PyStr.strip PyStr.quotes (PyStr.replace "url=" EmptyString s)
           else s in
  PyStr.strip PyStr.quotes s.

(** The record that [run_prestep] builds for one ArcGIS feature:
    [{**props, "geometry": geom}]. *)
Definition feature_record (feat : feature geometry) : result (list (string * cell)) :=
  let* geom := feat_geometry feat in
  let props := match feat_properties feat with
               | [] => feat_attributes feat
               | ps => ps
               end in
  Ok (dict_set "geometry" (CGeom geom) props).

(** One entry of [gdf.geometry.intersects(buffer_geom)]: a missing
    geometry gives [False]. *)
Definition cell_intersects (buffer_geom : geometry) (c : cell) : result bool :=
  match c with
  | CGeom g => Ok (intersects g buffer_geom)
  | CNull => Ok false
  | _ => Raise (LibraryError "not a geometry")
  end.

(** [api_gdf[api_gdf.geometry.intersects(buffer_geom)]] *)
Definition within_buffer (buffer_geom : geometry) (gdf : frame) : result frame :=
  let* mask := mapM (fun r => let* c := get_cell gdf "geometry" r in
                              cell_intersects buffer_geom c) (rows gdf) in
  Ok (filter_rows mask gdf).

Definition wfs_url : string := "https://gis.epa.ie/geoserver/EPA/wfs".

(** Case 1 of [run_prestep]: WFS GetFeature. *)
Definition prestep_wfs (cache_key : string * Z) (type_name : string)
    (buffer_geom : geometry) : M unit :=
  try_except
    (do! emit (HttpGet wfs_url
                 [("service", PStr "WFS"); ("version", PStr "1.1.0");
                  ("request", PStr "GetFeature"); ("typename", PStr type_name);
                  ("outputFormat", PStr "application/json")]) in
     let! fetched := lift (wfs_get_feature w type_name) in
     let! api_gdf := lift (to_crs 29903 fetched) in
     let! pre_gdf := lift (within_buffer buffer_geom api_gdf) in
     do! (fun d => (Ok tt, set_api_pre_filtered
                             (<[cache_key := pre_gdf]> (api_pre_filtered d)) d)) in
     log ("Found " +:+ pretty (frame_len pre_gdf)
          +:+ " WFS features within 100 km (EPSG:29903)."))
    (fun e => log ("WFS pre-download failed: " +:+ exn_text e)).

(** The query endpoint of an ArcGIS layer. *)
Definition query_url (source_str : string) : string :=
  let base_url := PyStr.before "?" source_str in
  if negb (PyStr.endswith "/query" base_url)
  then PyStr.rstrip "/" base_url +:+ "/query"
  else base_url.

Definition query_params (bbox : float * float * float * float)
  : list (string * param) :=
  [("where", PStr "1=1"); ("outFields", PStr "*"); ("geometry", PEnvelope bbox);
   ("geometryType", PStr "esriGeometryEnvelope"); ("inSR", PInt 29903);
   ("spatialRel", PStr "esriSpatialRelIntersects"); ("outSR", PInt 29903);
   ("f", PStr "geojson")].

(** Case 2 of [run_prestep]: ArcGIS REST query. *)
Definition prestep_arcgis (cache_key : string * Z) (source_str : string)
    (buffer_geom : geometry) : M unit :=
  let base_url := query_url source_str in
  let bbox := bounds buffer_geom in
  try_except
    (do! emit (HttpGet base_url (query_params bbox)) in
     let! feats := lift (arcgis_query w base_url bbox) in
     match feats with
     | [] => log "No features returned from ArcGIS API."
     | _ =>
         let! geo_list := lift (mapM feature_record feats) in
         let api_gdf := frame_of_records geo_list (Some (EPSG 29903)) in
         let! pre_gdf := lift (within_buffer buffer_geom api_gdf) in
         do! (fun d => (Ok tt, set_api_pre_filtered
                                 (<[cache_key := pre_gdf]> (api_pre_filtered d)) d)) in
         log ("Found " +:+ pretty (frame_len pre_gdf)
              +:+ " ArcGIS features within 100 km (EPSG:29903).")
     end)
    (fun e => log ("ArcGIS REST pre-download failed: " +:+ exn_text e)).

(** The part of [run_prestep] after a cache miss: read the application
    layer, buffer it, and fetch through the protocol of the API layer. *)
Definition fetch_and_store (d : dialog) (api_name : string) (app_index : Z) : M unit :=
  let type_name := wfs_layers_info d !! api_name in
  let cache_key := (api_name, app_index) in
  let! app_layer := lift (list_index (shp_layers d) app_index) in
  let! app_gdf := lift (read_file w (layer_source app_layer)) in
  let! normalised := _to_metric_gdf app_gdf in
  let app_gdf_29903 := fst (fst normalised) in
  let! app_geoms := lift (frame_geometry app_gdf_29903) in
  let buffer_geom := buffer (unary_union app_geoms) (lit 100000) in
  match type_name with
  | Some (String c t) => prestep_wfs cache_key (String c t) buffer_geom
  | _ =>
      let source_str := option_map clean_source
                          (find_source api_name (api_layers d)) in
      match source_str with
      | Some (String c s) =>
          let source_str := String c s in
          if PyStr.contains "/FeatureServer/" source_str
             || PyStr.contains "/MapServer/" source_str
          then prestep_arcgis cache_key source_str buffer_geom
          else log "Unsupported API type or empty data source."
      | _ => log "Unsupported API type or empty data source."
      end
  end.

(** [run_prestep]: download the API features that meet the 100 km buffer
    of the application area, unless the cache already has them. *)
Definition run_prestep : M unit :=
  try_except
    (let! d := get in
     let app_index := current (combo_app d) in
     let api_index := current (combo_api d) in
     if (app_index <? 0)%Z || (api_index <? 0)%Z then ret tt
     else
       let api_name := currentText (combo_api d) in
       let cache_key := (api_name, app_index) in
       match api_pre_filtered d !! cache_key with
       | Some _ => log "Using cached preprocessed data."
       | None => fetch_and_store d api_name app_index
       end)
    (fun e =>
       do! log ("Preprocessing failed: " +:+ exn_text e) in
       emit (LogTraceback e)).

(** The body of the loop over the candidates in [run_analysis]:
    [(dist, round(angle, 2), azimuth_to_dir(angle))]. *)
Definition candidate_metrics (app_union : geometry) (app_centroid : point)
    (geom : geometry) : result (float * float * string) :=
  let* pts := nearest_points geom (boundary app_union) in
  let nearest_pt_on_app := snd pts in
  let dist := distance geom nearest_pt_on_app in
  let* angle := azimuth_geographic atan2 app_centroid nearest_pt_on_app in
  let* dir := azimuth_to_dir angle in
  Ok (dist, round2 angle, dir).

(** The loop over the candidates and the three computed columns. *)
Definition with_metrics (app_union : geometry) (result_gdf : frame) : result frame :=
  let* geoms := frame_geometry result_gdf in
  let* metrics := mapM (candidate_metrics app_union (centroid app_union)) geoms in
  let distances := map (fun m => CNum (fst (fst m))) metrics in
  let azimuths := map (fun m => CNum (snd (fst m))) metrics in
  let dirs := map (fun m => CStr (snd m)) metrics in
  let* result_gdf := set_column "Distance_m" distances result_gdf in
  let* result_gdf := set_column "Direction (°)" azimuths result_gdf in
  set_column "Direction" dirs result_gdf.

(** "Keep only the nearest feature":
    [sort_values("Distance_m", ascending=True).head(1)]. *)
Definition keep_nearest (result_gdf : frame) : result frame :=
  let* sorted := sort_values "Distance_m" result_gdf in
  Ok (head1 sorted).

Definition nearest_feature (app_union : geometry) (result_gdf : frame) : result frame :=
  let* result_gdf := with_metrics app_union result_gdf in
  keep_nearest result_gdf.

(** "Determine export columns". *)
Definition export_cols (selected_fields : list string) (result_gdf : frame)
  : list string :=
  let selected_fields :=
    match selected_fields with
    | [] => List.filter (fun c => negb (String.eqb c "geometry")) (columns result_gdf)
    | _ => selected_fields
    end in
  (selected_fields ++ ["Distance_m"; "Direction (°)"; "Direction"])%list.

(** The plot at the end of [run_analysis]. *)
Definition plot (app_union : geometry) (result_gdf : frame) : M unit :=
  let! geoms := lift (frame_geometry result_gdf) in
  let! nearest_geom := lift (list_index geoms 0) in
  let! _ := lift (nearest_points nearest_geom (boundary app_union)) in
  emit FigureShown.

(** [run_analysis]: export the single nearest feature to CSV and show
    the figure. *)
Definition run_analysis : M unit :=
  try_except
    (do! log "All computations use EPSG:29903 (Irish Grid)." in
     let! d := get in
     let app_index := current (combo_app d) in
     let api_name := currentText (combo_api d) in
     if (app_index <? 0)%Z || is_empty_string api_name
     then emit (MsgWarning "Error" "Please select both layers.")
     else
       let cache_key := (api_name, app_index) in
       match api_pre_filtered d !! cache_key with
       | None => emit (MsgWarning "Error" "Preprocessed data is empty.")
       | Some pre_gdf =>
           if frame_empty pre_gdf
           then emit (MsgWarning "Error" "Preprocessed data is empty.")
           else
             let! app_layer := lift (list_index (shp_layers d) app_index) in
             let! app_gdf := lift (read_file w (layer_source app_layer)) in
             let! normalised := _to_metric_gdf app_gdf in
             let app_gdf_29903 := fst (fst normalised) in
             let! app_geoms := lift (frame_geometry app_gdf_29903) in
             let app_union := unary_union app_geoms in
             let user_buffer_geom := buffer app_union (lit 100000) in
             let! result_gdf := lift (within_buffer user_buffer_geom pre_gdf) in
             if frame_empty result_gdf
             then emit (MsgInformation "No Results"
                          "No features found within the 100 km buffer.")
             else
               let! result_gdf := lift (nearest_feature app_union result_gdf) in
               let cols := export_cols (selectedItems d) result_gdf in
               let output_csv := getSaveFileName w in
               if is_empty_string output_csv
               then log "CSV save cancelled by user."
               else
                 let! out := lift (select_columns cols result_gdf) in
                 do! emit (CsvSaved output_csv (columns out) (rows out)) in
                 do! log ("CSV saved: " +:+ output_csv) in
                 do! log "Opening Matplotlib Figure Window..." in
                 plot app_union result_gdf
       end)
    (fun e =>
       do! log ("Analysis failed: " +:+ exn_text e) in
       emit (LogTraceback e)).

(** What the user does with the dialog.  Picking another entry of a
    combo box makes Qt call [run_prestep] (the [currentIndexChanged]
    signal); the refresh button, and every later start of the plugin,
    call [populate_layers]; the run button calls [run_analysis].  The
    other slot of the API combo, [update_fields_for_api], refills the
    field list and clears its selection; it is modelled further down and
    left out of the sessions: the fields are selected by an action of
    its own. *)
Inductive action : Type :=
| PickApp (i : Z)
| PickApi (i : Z)
| PickFields (fs : list string)
| Refresh
| Run.

Definition set_combo_app (i : Z) (d : dialog) : dialog :=
  mkDialog (wfs_layers_info d) (api_pre_filtered d) (shp_layers d) (api_layers d)
    (mkCombo (items (combo_app d)) i) (combo_api d)
    (fields_list d) (selectedItems d) (trace d).

Definition set_combo_api (i : Z) (d : dialog) : dialog :=
  mkDialog (wfs_layers_info d) (api_pre_filtered d) (shp_layers d) (api_layers d)
    (combo_app d) (mkCombo (items (combo_api d)) i)
    (fields_list d) (selectedItems d) (trace d).

Definition set_selectedItems (fs : list string) (d : dialog) : dialog :=
  mkDialog (wfs_layers_info d) (api_pre_filtered d) (shp_layers d) (api_layers d)
    (combo_app d) (combo_api d) (fields_list d) fs (trace d).

Definition step (d : dialog) (a : action) : dialog :=
  match a with
  | PickApp i =>
      if (i =? current (combo_app d))%Z then d
      else snd (run_prestep (set_combo_app i d))
  | PickApi i =>
      if (i =? current (combo_api d))%Z then d
      else snd (run_prestep (set_combo_api i d))
  | PickFields fs => set_selectedItems fs d
  | Refresh => snd (populate_layers d)
  | Run => snd (run_analysis d)
  end.

(** The dialog after a sequence of actions. *)
Definition session (acts : list action) (d : dialog) : dialog :=
  fold_left step acts d.

(** The cache key of the current selection, when both combos have one. *)
Definition current_key (d : dialog) : option (string * Z) :=
  if (current (combo_app d) <? 0)%Z || (current (combo_api d) <? 0)%Z then None
  else Some (currentText (combo_api d), current (combo_app d)).

End Methods.

(* ===================================================================== *)
(** ** numpy's argsort, default kind *)
(* ===================================================================== *)

(** What every sorting kind of [numpy.argsort] promises: the result is a
    permutation of the positions, and the keys read through it never
    decrease.  Nothing is promised about the order of equal keys unless
    the kind is ["stable"] or ["mergesort"]; the dialog asks for neither. *)
Definition argsort_ok (v : list float) (order : list nat) : bool :=
  forallb (fun i => (count_occ Nat.eq_dec order i =? 1)%nat) (seq 0 (length v))
  && (length order =? length v)%nat
  && forallb (fun ij => fle (nth (fst ij) v NaN) (nth (snd ij) v NaN))
       (combine order (tl order)).

(** The scalar introsort of numpy ([npy_aquicksort] in
    npysort/quicksort.cpp), which serves [kind="quicksort"] when no SIMD
    kernel is dispatched: median-of-three quicksort on partitions of more
    than 17 entries, insertion sort below, heapsort once the depth budget
    is spent.  [tosort] is the index array that the routine permutes. *)
Module Npy.

Definition SMALL_QUICKSORT : Z := 16.

Definition get (tosort : list nat) (p : Z) : nat := nth (Z.to_nat p) tosort 0%nat.

Definition put (tosort : list nat) (p : Z) (i : nat) : list nat :=
  set_nth (Z.to_nat p) i tosort.

(** [INTP_SWAP] of the entries at [p] and [q] *)
Definition swap (tosort : list nat) (p q : Z) : list nat :=
  put (put tosort p (get tosort q)) q (get tosort p).

(** [DOUBLE_LT]: NaN sorts to the end. *)
Definition LT (a b : float) : bool :=
  flt a b || (is_nan b && negb (is_nan a)).

Section Sort.

Variable v : list float.

Definition key (tosort : list nat) (p : Z) : float := nth (get tosort p) v NaN.

(** [do ++pi; while (key at pi < vp);] with [pi] already advanced. *)
Fixpoint scan_up (fuel : nat) (tosort : list nat) (vp : float) (pi : Z) : Z :=
  match fuel with
  | O => pi
  | S fuel' =>
      if LT (key tosort pi) vp then scan_up fuel' tosort vp (pi + 1) else pi
  end.

(** [do --pj; while (vp < key at pj);] with [pj] already moved. *)
Fixpoint scan_down (fuel : nat) (tosort : list nat) (vp : float) (pj : Z) : Z :=
  match fuel with
  | O => pj
  | S fuel' =>
      if LT vp (key tosort pj) then scan_down fuel' tosort vp (pj - 1) else pj
  end.

(** The [for (;;)] loop of the partition; returns the array and [pi]. *)
Fixpoint partition (fuel : nat) (tosort : list nat) (vp : float) (pi pj : Z)
  : list nat * Z :=
  match fuel with
  | O => (tosort, pi)
  | S fuel' =>
      let pi := scan_up (length tosort) tosort vp (pi + 1) in
      let pj := scan_down (length tosort) tosort vp (pj - 1) in
      if (pj <=? pi)%Z then (tosort, pi)
      else partition fuel' (swap tosort pi pj) vp pi pj
  end.

Definition swap_if_less (tosort : list nat) (p q : Z) : list nat :=
  if LT (key tosort p) (key tosort q) then swap tosort p q else tosort.

(** One round of [while ((pr - pl) > SMALL_QUICKSORT)]: the array
    after the partition, the bounds to go on with, the bounds pushed. *)
Definition split (tosort : list nat) (pl pr : Z)
  : list nat * (Z * Z) * (Z * Z) :=
  let pm := (pl + Z.shiftr (pr - pl) 1)%Z in
  let tosort := swap_if_less tosort pm pl in
  let tosort := swap_if_less tosort pr pm in
  let tosort := swap_if_less tosort pm pl in
  let vp := key tosort pm in
  let tosort := swap tosort pm (pr - 1) in
  let '(tosort, pi) := partition (length tosort) tosort vp pl (pr - 1) in
  let tosort := swap tosort pi (pr - 1) in
  if (pi - pl <? pr - pi)%Z
  then (tosort, (pl, pi - 1), (pi + 1, pr))%Z
  else (tosort, (pi + 1, pr), (pl, pi - 1))%Z.

(** The stack holds the pushed bounds with the depth budget that was
    current after the push. *)
Fixpoint quick (fuel : nat) (tosort : list nat) (pl pr cdepth : Z)
    (stack : list (Z * Z * Z)) : list nat * Z * Z * Z * list (Z * Z * Z) :=
  match fuel with
  | O => (tosort, pl, pr, cdepth, stack)
  | S fuel' =>
      if (SMALL_QUICKSORT <? pr - pl)%Z then
        let '(tosort, (pl', pr'), pushed) := split tosort pl pr in
        let cdepth := (cdepth - 1)%Z in
        quick fuel' tosort pl' pr' cdepth ((pushed, cdepth) :: stack)
      else (tosort, pl, pr, cdepth, stack)
  end.

(** The inner [while] of the insertion sort. *)
Fixpoint sift (fuel : nat) (tosort : list nat) (pl : Z) (vp : float) (pj : Z)
  : list nat * Z :=
  match fuel with
  | O => (tosort, pj)
  | S fuel' =>
      if (pl <? pj)%Z && LT vp (key tosort (pj - 1))
      then sift fuel' (put tosort pj (get tosort (pj - 1))) pl vp (pj - 1)
      else (tosort, pj)
  end.

Fixpoint insertion (fuel : nat) (tosort : list nat) (pl pr pi : Z) : list nat :=
  match fuel with
  | O => tosort
  | S fuel' =>
      if (pi <=? pr)%Z then
        let vi := get tosort pi in
        let '(tosort, pj) := sift (length tosort) tosort pl (nth vi v NaN) pi in
        insertion fuel' (put tosort pj vi) pl pr (pi + 1)
      else tosort
  end.

(** [aheapsort] on the [n] entries from [pl]; [a[k]] is entry
    [pl + k - 1]. *)
Fixpoint heap_down (fuel : nat) (tosort : list nat) (pl n : Z) (tmp : nat) (i j : Z)
  : list nat * Z :=
  match fuel with
  | O => (tosort, i)
  | S fuel' =>
      if (j <=? n)%Z then
        let j := if (j <? n)%Z && LT (key tosort (pl + j - 1)) (key tosort (pl + j))
                 then (j + 1)%Z else j in
        if LT (nth tmp v NaN) (key tosort (pl + j - 1))
        then heap_down fuel' (put tosort (pl + i - 1) (get tosort (pl + j - 1)))
               pl n tmp j (j + j)
        else (tosort, i)
      else (tosort, i)
  end.

Fixpoint heap_build (fuel : nat) (tosort : list nat) (pl n l : Z) : list nat :=
  match fuel with
  | O => tosort
  | S fuel' =>
      if (0 <? l)%Z then
        let tmp := get tosort (pl + l - 1) in
        let '(tosort, i) := heap_down (length tosort) tosort pl n tmp l (Z.shiftl l 1) in
        heap_build fuel' (put tosort (pl + i - 1) tmp) pl n (l - 1)
      else tosort
  end.

Fixpoint heap_drain (fuel : nat) (tosort : list nat) (pl n : Z) : list nat :=
  match fuel with
  | O => tosort
  | S fuel' =>
      if (1 <? n)%Z then
        let tmp := get tosort (pl + n - 1) in
        let tosort := put tosort (pl + n - 1) (get tosort pl) in
        let n := (n - 1)%Z in
        let '(tosort, i) := heap_down (length tosort) tosort pl n tmp 1 2 in
        heap_drain fuel' (put tosort (pl + i - 1) tmp) pl n
      else tosort
  end.

Definition aheapsort (tosort : list nat) (pl n : Z) : list nat :=
  let tosort := heap_build (length tosort) tosort pl n (Z.shiftr n 1) in
  heap_drain (length tosort) tosort pl n.

(** The outer [while (1)] loop. *)
Fixpoint loop (fuel : nat) (tosort : list nat) (pl pr cdepth : Z)
    (stack : list (Z * Z * Z)) : list nat :=
  match fuel with
  | O => tosort
  | S fuel' =>
      let '(tosort, stack) :=
        if (cdepth <? 0)%Z then (aheapsort tosort pl (pr - pl + 1), stack)
        else
          let '(tosort, pl, pr, _, stack) :=
            quick (length tosort) tosort pl pr cdepth stack in
          (insertion (length tosort) tosort pl pr (pl + 1), stack) in
      match stack with
      | [] => tosort
      | ((pl, pr), cdepth) :: stack => loop fuel' tosort pl pr cdepth stack
      end
  end.

(** [npy_get_msb(num) * 2] *)
Definition depth_limit (num : Z) : Z := (Z.log2 num * 2)%Z.

Definition aquicksort : list nat :=
  let num := Z.of_nat (length v) in
  loop (S (length v)) (seq 0 (length v)) 0 (num - 1) (depth_limit num) [].

End Sort.

End Npy.

(* ===================================================================== *)
(** ** A small executable geometry: boxes in the maximum norm *)
(* ===================================================================== *)

(** An instance of [GeoLib] on which the methods can be run: geometries
    are axis-parallel boxes with whole-metre corners (a point is a box of
    width zero), distances are taken in the maximum norm, and [atan2] is
    exact on the four axes and answers with the diagonal of the quadrant
    elsewhere.  It stands in for shapely in the worked examples only. *)
Module BoxWorld.

Record box : Type := mkBox { xmin : Z; ymin : Z; xmax : Z; ymax : Z }.

Definition pt (x y : Z) : box := mkBox x y x y.

Definition overlap (a b : box) : bool :=
  (xmin a <=? xmax b)%Z && (xmin b <=? xmax a)%Z
  && (ymin a <=? ymax b)%Z && (ymin b <=? ymax a)%Z.

Definition grow (b : box) (r : float) : box :=
  let k := match py_int r with Ok k => k | Raise _ => 0%Z end in
  mkBox (xmin b - k) (ymin b - k) (xmax b + k) (ymax b + k).

Definition join (a b : box) : box :=
  mkBox (Z.min (xmin a) (xmin b)) (Z.min (ymin a) (ymin b))
        (Z.max (xmax a) (xmax b)) (Z.max (ymax a) (ymax b)).

Definition hull (l : list box) : box :=
  match l with
  | [] => pt 0 0
  | b :: l' => fold_left join l' b
  end.

Definition centre (b : box) : point :=
  mkPoint (rnd (inject_Z (xmin b + xmax b) / 2)) (rnd (inject_Z (ymin b + ymax b) / 2)).

(** Closest coordinates of two intervals: [(on the first, on the second)]. *)
Definition closest (lo1 hi1 lo2 hi2 : Z) : Z * Z :=
  if (hi1 <? lo2)%Z then (hi1, lo2)
  else if (hi2 <? lo1)%Z then (lo1, hi2)
  else (Z.max lo1 lo2, Z.max lo1 lo2).

Definition nearest (g b : box) : result (point * point) :=
  let '(x1, x2) := closest (xmin g) (xmax g) (xmin b) (xmax b) in
  let '(y1, y2) := closest (ymin g) (ymax g) (ymin b) (ymax b) in
  Ok (mkPoint (rnd (inject_Z x1)) (rnd (inject_Z y1)),
      mkPoint (rnd (inject_Z x2)) (rnd (inject_Z y2))).

Definition qmax (a b : Q) : Q := if Qle_bool a b then b else a.

(** Gap between the interval [[lo, hi]] and the coordinate [c]. *)
Definition gap (lo hi : Z) (c : float) : Q :=
  match c with
  | Fin q => qmax 0 (qmax (inject_Z lo - q) (q - inject_Z hi))
  | _ => 0
  end.

Definition dist (g : box) (p : point) : float :=
  if is_finite (px p) && is_finite (py p)
  then rnd (qmax (gap (xmin g) (xmax g) (px p)) (gap (ymin g) (ymax g) (py p)))
  else NaN.

Definition corners (b : box) : float * float * float * float :=
  (rnd (inject_Z (xmin b)), rnd (inject_Z (ymin b)),
   rnd (inject_Z (xmax b)), rnd (inject_Z (ymax b))).

(** Every EPSG system is taken to share the planar grid. *)
Definition reproject (src : crs) (code : Z) (g : box) : result box :=
  match src with
  | EPSG _ => Ok g
  | OtherCRS _ => Raise (LibraryError "Invalid projection")
  end.

Definition sign (x : float) : comparison :=
  if flt x (Fin 0) then Lt else if flt (Fin 0) x then Gt else Eq.

Definition half_pi : float := fdiv pi (lit 2).
Definition quarter_pi : float := fdiv pi (lit 4).
Definition three_quarter_pi : float := fmul (lit 3) quarter_pi.

Definition atan8 (y x : float) : float :=
  if is_nan y || is_nan x then NaN
  else
    match sign y, sign x with
    | Eq, Lt => pi
    | Eq, _ => Fin 0
    | Gt, Eq => half_pi
    | Lt, Eq => fneg half_pi
    | Gt, Gt => quarter_pi
    | Gt, Lt => three_quarter_pi
    | Lt, Gt => fneg quarter_pi
    | Lt, Lt => fneg three_quarter_pi
    end.

#[global] Instance box_lib : GeoLib box := {|
  intersects := overlap;
  buffer := grow;
  unary_union := hull;
  centroid := centre;
  boundary := fun b => b;
  nearest_points := nearest;
  distance := dist;
  bounds := corners;
  transform := reproject;
  argsort := Npy.aquicksort;
  atan2 := atan8
|}.

End BoxWorld.

(* ===================================================================== *)
(** ** Worked sessions *)
(* ===================================================================== *)

Module Scenario.

Import BoxWorld.

(** The application area of the specification's worked example: a
    1 km by 1 km square centred at the origin, already in EPSG:29903. *)
Definition area : box := mkBox (-500) (-500) 500 500.

Definition area_gdf : frame box :=
  mkFrame ["id"; "geometry"] [[CStr "A1"; CGeom area]] (Some (EPSG 29903)).

(** A remote point feature [d] metres north of the area's north edge. *)
Definition north (d : Z) : box := pt 0 (500 + d).

Definition station (name code : string) (g : box) : list (cell box) :=
  [CStr name; CStr code; CGeom g].

Definition stations (l : list (list (cell box))) : frame box :=
  mkFrame ["name"; "code"; "geometry"] l (Some (EPSG 4326)).

(** Three stations at 50 m, 10 m and 30 m from the boundary. *)
Definition three_stations : frame box :=
  stations [station "X" "123" (north 50);
            station "Y" "124" (north 10);
            station "Z" "125" (north 30)].

(** One station 200 km away, outside the 100 km buffer. *)
Definition far_station : frame box :=
  stations [station "F" "900" (north 200000)].

Definition area_layer : layer :=
  mkLayer "area.shp" "ogr" "/data/area.shp" ["id"] true.

Definition arcgis_layer : layer :=
  mkLayer "Rivers" "arcgisfeatureserver"
    "url='https://example.org/arcgis/rest/services/Rivers/FeatureServer/0'" [] true.

Definition wfs_display : string := "Monitoring stations (EPA:STATIONS)".

(** A world in which the WFS service answers with [remote] and the
    ArcGIS service with [feats]. *)
Definition world_with (remote : frame box) (feats : list (feature box)) : world box :=
  mkWorld [area_layer; arcgis_layer]
    (Ok [("STATIONS", "Monitoring stations")])
    (fun _ => Ok area_gdf)
    (fun _ => Ok remote)
    (fun _ _ => Ok feats)
    "/home/user/Nearest_Result.csv".

Definition new_dialog : dialog box :=
  mkDialog ∅ ∅ [] [] combo_clear combo_clear [] [] [].

Definition after {A : Type} (m : M box A) (d : dialog box) : dialog box := snd (m d).

(** The dialog once it has been opened in [w]: the layers are listed,
    the application layer is entry 0, the API combo shows the ArcGIS
    layer (entry 0) followed by the WFS layer (entry 1). *)
Definition opened (w : world box) : dialog box := after (populate_layers w) new_dialog.

(** The cache key of the WFS layer and of the ArcGIS layer. *)
Definition wfs_key : string * Z := (wfs_display, 0%Z).
Definition arcgis_key : string * Z := ("Rivers", 0%Z).

Definition is_fetch (e : event box) : bool :=
  match e with
  | HttpGet _ params =>
      existsb (fun kv => match snd kv with
                         | PStr "GetFeature" => true
                         | PStr "geojson" => true
                         | _ => false
                         end) params
  | _ => false
  end.

(** Number of feature downloads in a trace. *)
Definition fetches (d : dialog box) : nat := length (List.filter is_fetch (trace d)).

End Scenario.

(* ===================================================================== *)
(** ** Further worked sessions *)
(* ===================================================================== *)

(** A collection without reference system. *)
Definition naive_gdf : frame BoxWorld.box :=
  mkFrame ["id"; "geometry"] [[CStr "A1"; CGeom Scenario.area]] None.

Module Sessions.

Import BoxWorld Scenario.

(** The three stations behind the WFS layer, no feature behind the
    ArcGIS layer. *)
Definition stations_world : world box := world_with three_stations [].

(** The user opens the dialog and picks the WFS layer: its features are
    downloaded and stored. *)
Definition fetched : dialog box :=
  session stations_world [PickApi 1] (opened stations_world).

(** Then the layer lists are refreshed and the same layer is picked
    again. *)
Definition refetched : dialog box :=
  session stations_world [Refresh; PickApi 1] fetched.

(** The user picks the WFS layer, then the ArcGIS layer. *)
Definition queried : dialog box :=
  session stations_world [PickApi 1; PickApi 0] (opened stations_world).

(** What the cache holds for the WFS layer: the stations, reprojected. *)
Definition stored_stations : frame box :=
  mkFrame (columns three_stations) (rows three_stations) (Some (EPSG 29903)).

(** The buffer of the application area. *)
Definition area_buffer : box := grow area (lit 100000).

Definition rivers_source : string := clean_source (layer_source arcgis_layer).

End Sessions.

Module EmptySessions.

Import BoxWorld Scenario.

(** The only station behind the WFS layer is 200 km away. *)
Definition far_world : world box := world_with far_station [].

(** The user picks the WFS layer: nothing lies within the buffer, and
    the empty collection is stored. *)
Definition nothing_near : dialog box :=
  session far_world [PickApi 1] (opened far_world).

Definition no_stations : frame box :=
  mkFrame (columns far_station) [] (Some (EPSG 29903)).

(** A cache that holds the far station for the selected pair, as it
    would after the application layer has been edited on disk. *)
Definition stale : dialog box :=
  set_api_pre_filtered
    (<[wfs_key := mkFrame (columns far_station) (rows far_station) (Some (EPSG 29903))]> ∅)
    nothing_near.

Definition is_information (e : event box) : bool :=
  match e with MsgInformation _ _ => true | _ => false end.

End EmptySessions.

Module Exports.

Import BoxWorld Scenario.

(** The nearest of the three stations, as [run_analysis] computes it
    from the cached collection. *)
Definition nearest_station : result (frame box) :=
  nearest_feature area Sessions.stored_stations.

(** The header and the rows of the CSV files written during a session. *)
Definition saved (d : dialog box) : list (list string * list (list (cell box))) :=
  flat_map (fun e => match e with
                     | CsvSaved _ header data => [(header, data)]
                     | _ => []
                     end) (trace d).

(** The user picks the WFS layer and runs the analysis with no field
    selected. *)
Definition default_run : dialog box :=
  session Sessions.stations_world [PickApi 1; Run] (opened Sessions.stations_world).

(** The same with the field [name] selected. *)
Definition subset_run : dialog box :=
  session Sessions.stations_world [PickApi 1; PickFields ["name"]; Run]
    (opened Sessions.stations_world).

End Exports.

Module Nearest.

Import BoxWorld Scenario.

(** The three values that the loop of [run_analysis] computes for each
    candidate of a frame. *)
Definition scores (f : frame box) : list (float * float * string) :=
  match frame_geometry f with
  | Ok geoms =>
      match mapM (candidate_metrics area (centroid area)) geoms with
      | Ok metrics => metrics
      | Raise _ => []
      end
  | Raise _ => []
  end.

(** Eighteen stations north of the area, numbered in input order;
    stations 3 and 8 are the nearest, both at 1 m. *)
Definition spacing : list Z :=
  [5; 7; 7; 1; 7; 7; 7; 7; 1; 7; 7; 7; 7; 7; 7; 7; 7; 9]%Z.

Definition numbered (ds : list Z) : list (list (cell box)) :=
  imap (fun i d => station ("S" +:+ pretty i) (pretty (100 + i)%nat) (north d)) ds.

Definition eighteen : frame box :=
  mkFrame ["name"; "code"; "geometry"] (numbered spacing) (Some (EPSG 29903)).

(** The same stations behind the WFS layer. *)
Definition eighteen_world : world box :=
  world_with (stations (numbered spacing)) [].

Definition names (f : frame box) : list (result (cell box)) :=
  map (get_cell f "name") (rows f).

End Nearest.

(* ===================================================================== *)
(** ** Vocabulary of the properties *)
(* ===================================================================== *)

(** The value of one of the machine's doubles, as the primitive floats of
    the proof assistant compute it. *)
Definition of_prim (x : PrimFloat.float) : float :=
  match Prim2SF x with
  | S754_zero _ => Fin 0
  | S754_infinity s => Inf s
  | S754_nan => NaN
  | S754_finite s m e =>
      Fin (Qred ((if s then -1 else 1) * inject_Z (Z.pos m) * 2 ^ e))
  end.

(** The machine's double [x] has the value of the modelled float [y]. *)
Definition same_double (x : PrimFloat.float) (y : float) : bool :=
  match of_prim x, y with
  | Fin a, Fin b => Qeq_bool a b
  | Inf s, Inf t => Bool.eqb s t
  | NaN, NaN => true
  | _, _ => false
  end.

(** A finite double, with its magnitude bound. *)
Definition bounded (x : float) : Prop := exists q, x = Fin q /\ (Qabs q <= maxf)%Q.

(** The rational values of [math.pi] and of the factor of
    [math.degrees]. *)
Definition pi_q : Q := Eval vm_compute in match pi with Fin q => q | _ => 0%Q end.
Definition radToDeg_q : Q :=
  Eval vm_compute in match radToDeg with Fin q => q | _ => 0%Q end.

(** The contract of the C library for [atan2]: on arguments that are not
    NaN the result lies between [-pi] and [pi]. *)
Definition atan2_in_range (f : float -> float -> float) : Prop :=
  forall dx dy : float,
    is_nan dx = false -> is_nan dy = false ->
    fle (fneg pi) (f dx dy) && fle (f dx dy) pi = true.

Definition finite_point (p : point) : bool := is_finite (px p) && is_finite (py p).

(** The double just below -22.5, written [-22.500000000000004] in Python. *)
Definition edge_bearing : float := lit (-22.500000000000004).

(** The double just below 1012.5, written [1012.4999999999999] in Python. *)
Definition late_edge_bearing : float := lit 1012.4999999999999.

(** Both combo boxes of the dialog show an entry. *)
Definition selection_made {geometry : Type} (d : dialog geometry) : bool :=
  negb (current (combo_app d) <? 0)%Z && negb (is_empty_string (currentText (combo_api d))).

(** The first log line of [run_analysis]. *)
Definition all_computations : string := "All computations use EPSG:29903 (Irish Grid).".

(** A method body that leaves every cached collection where it is. *)
Definition keeps_cache {geometry A : Type} (m : M geometry A) : Prop :=
  forall d, api_pre_filtered (snd (m d)) = api_pre_filtered d.

(** A method body that keeps the entries other than [key]. *)
Definition keeps_others {geometry A : Type} (key : string * Z) (m : M geometry A) : Prop :=
  forall d k, k <> key ->
    api_pre_filtered (snd (m d)) !! k = api_pre_filtered d !! k.

Definition is_refresh (a : action) : bool :=
  match a with Refresh => true | _ => false end.

(** The three computed columns, in the order of the export. *)
Definition computed_fields : list string :=
  ["Distance_m"; "Direction (°)"; "Direction"].

Definition not_geometry (c : string) : bool := negb (String.eqb c "geometry").

(** Every row has one cell per column, as in any pandas frame. *)
Definition wf_frame {geometry : Type} (f : frame geometry) : bool :=
  forallb (fun r => (length r =? length (columns f))%nat) (rows f).

(** The distance of a candidate among its three computed values. *)
Definition dist_of (m : float * float * string) : float := fst (fst m).

(** The tie rule in the specification's words: of the candidates at the
    least distance, the first in input order. *)
Fixpoint find_index {A : Type} (p : A -> bool) (l : list A) : option nat :=
  match l with
  | [] => None
  | a :: l' => if p a then Some 0%nat else option_map S (find_index p l')
  end.

Definition first_nearest (distances : list float) : option nat :=
  find_index (fun d => forallb (fle d) distances) distances.

(* ===================================================================== *)
(** ** Vocabulary of the further properties *)
(* ===================================================================== *)

(** The compass point across the rose. *)
Definition opposite (dir : string) : string :=
  if String.eqb dir "N" then "S"
  else if String.eqb dir "NE" then "SW"
  else if String.eqb dir "E" then "W"
  else if String.eqb dir "SE" then "NW"
  else if String.eqb dir "S" then "N"
  else if String.eqb dir "SW" then "NE"
  else if String.eqb dir "W" then "E"
  else if String.eqb dir "NW" then "SE"
  else dir.

(** The four ways in which the second point can lie on an axis through
    the first one. *)
Inductive heading : Type := North | East | South | West.

Definition heading_degrees (h : heading) : Q :=
  match h with North => 0 | East => 90 | South => 180 | West => 270 end.

Definition heading_label (h : heading) : string :=
  match h with North => "N" | East => "E" | South => "S" | West => "W" end.

(** The differences [dx], [dy] of [azimuth_geographic] when the second
    point lies due [h] of the first. *)
Definition heads (h : heading) (dx dy : float) : Prop :=
  exists a : Q, (0 < a)%Q /\
    match h with
    | North => dx = Fin 0 /\ dy = Fin a
    | East => dx = Fin a /\ dy = Fin 0
    | South => dx = Fin 0 /\ dy = Fin (- a)
    | West => dx = Fin (- a) /\ dy = Fin 0
    end.

(** What the C library returns for [atan2(y, x)] on the half-axes: 0 on
    the positive x-axis, pi/2 on the positive y-axis, pi on the negative
    x-axis (for y = +0), -pi/2 on the negative y-axis. *)
Definition atan2_on_axes (f : float -> float -> float) : Prop :=
  forall a : Q, (0 < a)%Q ->
    f (Fin 0) (Fin a) = Fin 0 /\
    f (Fin a) (Fin 0) = fdiv pi (lit 2) /\
    f (Fin 0) (Fin (- a)) = pi /\
    f (Fin (- a)) (Fin 0) = fneg (fdiv pi (lit 2)).


Definition is_log {geometry : Type} (e : event geometry) : bool :=
  match e with Log _ => true | _ => false end.

(** A layer in a local system that the projection library does not
    know. *)
Definition local_gdf : frame BoxWorld.box :=
  mkFrame ["id"; "geometry"] [[CStr "A1"; CGeom Scenario.area]]
    (Some (OtherCRS "LOCAL_CS")).


(** The tests of the first loop of [populate_layers]: a vector layer is
    an application layer when it is an OGR layer or its name ends in
    [.shp], and an API layer otherwise. *)
Definition is_application_layer (l : layer) : bool :=
  layer_is_vector l
  && (String.eqb (PyStr.lower (layer_provider l)) "ogr"
      || PyStr.endswith ".shp" (PyStr.lower (layer_name l))).

Definition is_api_layer (l : layer) : bool :=
  layer_is_vector l
  && negb (String.eqb (PyStr.lower (layer_provider l)) "ogr"
           || PyStr.endswith ".shp" (PyStr.lower (layer_name l))).

(** The entry of the API combo for a layer of the WFS catalogue:
    [f"{title} ({type_name})"]. *)
Definition wfs_type_name (layer_name : string) : string :=
  if PyStr.startswith "EPA:" layer_name then layer_name else "EPA:" +:+ layer_name.

Definition wfs_display_name (entry : string * string) : string :=
  snd entry +:+ " (" +:+ wfs_type_name (fst entry) +:+ ")".

(** A project that also holds a raster layer, which the loop skips. *)
Definition relief_layer : layer :=
  mkLayer "relief.shp" "gdal" "/data/relief.tif" [] false.

Definition relief_world : world BoxWorld.box :=
  mkWorld [relief_layer; Scenario.area_layer; Scenario.arcgis_layer]
    (Ok [("STATIONS", "Monitoring stations")])
    (fun _ => Ok Scenario.area_gdf)
    (fun _ => Ok Scenario.three_stations)
    (fun _ _ => Ok [])
    "/home/user/Nearest_Result.csv".

(** A project whose WFS service cannot be reached. *)
Definition offline_world : world BoxWorld.box :=
  mkWorld [Scenario.area_layer; Scenario.arcgis_layer]
    (Raise (LibraryError "Connection refused"))
    (fun _ => Ok Scenario.area_gdf)
    (fun _ => Raise (LibraryError "Connection refused"))
    (fun _ _ => Raise (LibraryError "Connection refused"))
    "/home/user/Nearest_Result.csv".


(** An HTTP request among the events of a trace. *)
Definition is_http {geometry : Type} (e : event geometry) : bool :=
  match e with HttpGet _ _ => true | _ => false end.

Definition http_count {geometry : Type} (t : list (event geometry)) : nat :=
  length (List.filter is_http t).

(** The two dialogs show the same layers, combos and fields. *)
Definition same_widgets {geometry : Type} (d d' : dialog geometry) : Prop :=
  wfs_layers_info d' = wfs_layers_info d /\
  shp_layers d' = shp_layers d /\
  api_layers d' = api_layers d /\
  combo_app d' = combo_app d /\
  combo_api d' = combo_api d /\
  fields_list d' = fields_list d /\
  selectedItems d' = selectedItems d.

(** From [d] to [d'] the widgets stay, the trace grows at its end, and
    at most [n] HTTP requests are made. *)
Definition adds {geometry : Type} (n : nat) (d d' : dialog geometry) : Prop :=
  same_widgets d d' /\
  exists t, trace d' = (trace d ++ t)%list /\ (http_count t <= n)%nat.

Definition within_budget {geometry A : Type} (n : nat) (m : M geometry A) : Prop :=
  forall d, adds n d (snd (m d)).

(** The row has a geometry that meets the buffer. *)
Definition in_reach {geometry : Type} `{GeoLib geometry}
    (buffer_geom : geometry) (gdf : frame geometry) (r : list (cell geometry)) : bool :=
  match get_cell gdf "geometry" r with
  | Ok (CGeom g) => intersects g buffer_geom
  | _ => false
  end.

(** A collection as the pre-download stores it: in EPSG:29903, every
    geometry meeting the buffer. *)
Definition within_reach {geometry : Type} `{GeoLib geometry}
    (buffer_geom : geometry) (f : frame geometry) : Prop :=
  frame_crs f = Some (EPSG 29903) /\
  exists geoms, frame_geometry f = Ok geoms /\
                forallb (fun g => intersects g buffer_geom) geoms = true.

(** Every cached collection is in EPSG:29903. *)
Definition cache_in_29903 {geometry : Type} (d : dialog geometry) : Prop :=
  forall k f, api_pre_filtered d !! k = Some f -> frame_crs f = Some (EPSG 29903).

Definition is_csv {geometry : Type} (e : event geometry) : bool :=
  match e with CsvSaved _ _ _ => true | _ => false end.

(** A CSV file with at most one data row, each row with one cell per
    column of the header; every other event passes. *)
Definition single_row {geometry : Type} (e : event geometry) : bool :=
  match e with
  | CsvSaved _ header data =>
      (length data <=? 1)%nat
      && forallb (fun r => (length r =? length header)%nat) data
  | _ => true
  end.

(** Neither a CSV file nor a figure. *)
Definition no_output {geometry : Type} (e : event geometry) : bool :=
  match e with CsvSaved _ _ _ | FigureShown => false | _ => true end.

(** A method body that only appends events passing [P] to the trace. *)
Definition emits_only {geometry A : Type} (P : event geometry -> bool)
    (m : M geometry A) : Prop :=
  forall d, exists t, trace (snd (m d)) = (trace d ++ t)%list /\ forallb P t = true.

(** A project with two application layers and no API layer of its own:
    the API combo shows the WFS layer only. *)
Definition second_area_layer : layer :=
  mkLayer "site.shp" "ogr" "/data/site.shp" ["id"] true.

Definition two_areas_world : world BoxWorld.box :=
  mkWorld [Scenario.area_layer; second_area_layer]
    (Ok [("STATIONS", "Monitoring stations")])
    (fun _ => Ok Scenario.area_gdf)
    (fun _ => Ok Scenario.three_stations)
    (fun _ _ => Ok [])
    "/home/user/Nearest_Result.csv".

(** A user who dismisses the file dialog. *)
Definition cancelling_world : world BoxWorld.box :=
  mkWorld [Scenario.area_layer; Scenario.arcgis_layer]
    (Ok [("STATIONS", "Monitoring stations")])
    (fun _ => Ok Scenario.area_gdf)
    (fun _ => Ok Scenario.three_stations)
    (fun _ _ => Ok [])
    EmptyString.


(* ===================================================================== *)
(** ** The field list of the API layer ([update_fields_for_api]) *)
(* ===================================================================== *)

Module PyStrMore.

(** [s.split(sep)[0]] for a separator of any length (not empty). *)
Fixpoint before_str (sep s : string) : string :=
  match s with
  | EmptyString => EmptyString
  | String c s' =>
      if String.prefix sep s then EmptyString else String c (before_str sep s')
  end.

(** The text after the first [sep], when [sep] occurs:
    [s.split(sep, 1)[-1]]. *)
Fixpoint after (sep : ascii) (s : string) : option string :=
  match s with
  | EmptyString => None
  | String c s' => if Ascii.eqb c sep then Some s' else after sep s'
  end.

End PyStrMore.

(** An element of the XML answer, as [root.iter()] yields it. *)
Record xml_element : Type := mkElement {
  tag : string;
  attrib : list (string * string)
}.

(** The two services that describe the fields of a remote layer: the WFS
    [DescribeFeatureType] request, answered with the elements of the
    schema in document order, and the layer resource of an ArcGIS
    service, answered with the list under ["fields"] (empty when the key
    is absent), one dict per field. *)
Record field_services : Type := mkFieldServices {
  describe_feature_type : string -> result (list xml_element);
  layer_json : string -> result (list (list (string * string)))
}.

(** [strip_ns] (nested in [update_fields_for_api]):
    [tag.split('}', 1)[-1] if '}' in tag else tag]. *)
Definition strip_ns (tag : string) : string :=
  match PyStrMore.after "}" tag with
  | Some rest => rest
  | None => tag
  end.

(** The test on one element: a schema element with a name and a type
    whose name does not end in [geom]. *)
Definition wfs_field (element : xml_element) : list string :=
  if String.eqb (strip_ns (tag element)) "element" then
    match dict_get "name" (attrib element), dict_get "type" (attrib element) with
    | Some name_attr, Some type_attr =>
        if negb (is_empty_string name_attr) && negb (is_empty_string type_attr)
           && negb (PyStr.endswith "geom" (PyStr.lower name_attr))
        then [name_attr] else []
    | _, _ => []
    end
  else [].

(** The loop over [root.iter()]. *)
Definition wfs_fields (elements : list xml_element) : list string :=
  flat_map wfs_field elements.

(** [[f["name"] for f in data.get("fields", []) if "name" in f]] *)
Definition arcgis_fields (fields : list (list (string * string))) : list string :=
  flat_map (fun f => match dict_get "name" f with Some n => [n] | None => [] end) fields.

(** The address of the layer resource:
    [base_url = source_str.split("?")[0].rstrip("/")],
    [json_url = base_url.split("/query")[0]],
    [json_url = json_url.rstrip("/query") + "?f=json"]. *)
Definition layer_json_url (source_str : string) : string :=
  let base_url := PyStr.rstrip "/" (PyStr.before "?" source_str) in
  let json_url := PyStrMore.before_str "/query" base_url in
  PyStr.rstrip "/query" json_url +:+ "?f=json".

Section FieldList.

Context {geometry : Type} `{GeoLib geometry}.

Variable services : field_services.

(** What [show_selected_fields], the slot that [__init__] connects to
    [fields_list.itemSelectionChanged], logs when a list is cleared: Qt
    emits the signal when there was a selection, and the slot then
    finds none, [self.log(f"Selected fields: {selected}")]. *)
Definition selection_cleared (selected : list string) : list (event geometry) :=
  match selected with
  | [] => []
  | _ :: _ => [Log "Selected fields: []"]
  end.

(** [self.fields_list.clear()]: the items go, and the selection with
    them, which the slot of the list logs. *)
Definition clear_fields (d : dialog geometry) : dialog geometry :=
  mkDialog (wfs_layers_info d) (api_pre_filtered d) (shp_layers d) (api_layers d)
    (combo_app d) (combo_api d) [] []
    (trace d ++ selection_cleared (selectedItems d)).

(** [for f in fields: self.fields_list.addItem(f)] *)
Definition add_fields (fields : list string) : M geometry unit :=
  fun d =>
    (Ok tt,
     mkDialog (wfs_layers_info d) (api_pre_filtered d) (shp_layers d) (api_layers d)
       (combo_app d) (combo_api d) (fields_list d ++ fields)%list (selectedItems d)
       (trace d)).

(** Case 1: WFS via DescribeFeatureType. *)
Definition wfs_field_list (type_name : string) : M geometry unit :=
  try_except
    (do! emit (HttpGet wfs_url
                 [("service", PStr "WFS"); ("version", PStr "1.1.0");
                  ("request", PStr "DescribeFeatureType");
                  ("typename", PStr type_name)]) in
     let! elements := lift (describe_feature_type services type_name) in
     let fields := wfs_fields elements in
     do! add_fields fields in
     log ("Loaded " +:+ pretty (length fields) +:+ " WFS fields."))
    (fun e => log ("Failed to load WFS fields: " +:+ exn_text e)).

(** Case 2: ArcGIS REST (layer JSON). *)
Definition arcgis_field_list (api_name : string) : M geometry unit :=
  try_except
    (let! d := get in
     match find_source api_name (api_layers d) with
     | Some (String c s) =>
         let source_str := clean_source (String c s) in
         if PyStr.contains "/FeatureServer/" source_str
            || PyStr.contains "/MapServer/" source_str
         then
           let json_url := layer_json_url source_str in
           do! emit (HttpGet json_url []) in
           let! data := lift (layer_json services json_url) in
           let fields := arcgis_fields data in
           do! add_fields fields in
           log ("Loaded " +:+ pretty (length fields) +:+ " ArcGIS REST fields.")
         else log "Selected API is not recognized as ArcGIS REST or WFS."
     | _ => ret tt
     end)
    (fun e => log ("Failed to load ArcGIS fields: " +:+ exn_text e)).

(** [update_fields_for_api]: refresh the field list from the selected
    API layer. *)
Definition update_fields_for_api : M geometry unit :=
  do! (fun d => (Ok tt, clear_fields d)) in
  let! d := get in
  let api_name := currentText (combo_api d) in
  if is_empty_string api_name then ret tt
  else
    match wfs_layers_info d !! api_name with
    | Some (String c t) => wfs_field_list (String c t)
    | _ => arcgis_field_list api_name
    end.

(** The two slots of [combo_api.currentIndexChanged], in the order in
    which [populate_layers] connects them. *)
Definition api_index_changed (w : world geometry) : M geometry unit :=
  do! update_fields_for_api in
  run_prestep w.

End FieldList.

(** A schema answer with a namespace on the tags, a geometry element and
    an element without type. *)
Definition stations_schema : list xml_element :=
  [mkElement "{http://www.w3.org/2001/XMLSchema}schema" [];
   mkElement "{http://www.w3.org/2001/XMLSchema}element"
     [("name", "name"); ("type", "xsd:string")];
   mkElement "{http://www.w3.org/2001/XMLSchema}element"
     [("name", "code"); ("type", "xsd:string")];
   mkElement "{http://www.w3.org/2001/XMLSchema}element"
     [("name", "the_GEOM"); ("type", "gml:PointPropertyType")];
   mkElement "{http://www.w3.org/2001/XMLSchema}element" [("name", "STATIONS")];
   mkElement "{http://www.w3.org/2001/XMLSchema}complexType"
     [("name", "STATIONSType")]].

Definition stations_services : field_services :=
  mkFieldServices
    (fun _ => Ok stations_schema)
    (fun _ => Ok [[("name", "OBJECTID"); ("type", "esriFieldTypeOID")];
                  [("alias", "no name")];
                  [("name", "RIVER"); ("type", "esriFieldTypeString")]]).


(** The two dialogs agree on everything that [run_prestep] reads: the
    WFS catalogue, the cache, the layer lists and the two combos. *)
Definition same_inputs {geometry : Type} (d d' : dialog geometry) : Prop :=
  wfs_layers_info d' = wfs_layers_info d /\
  api_pre_filtered d' = api_pre_filtered d /\
  shp_layers d' = shp_layers d /\
  api_layers d' = api_layers d /\
  combo_app d' = combo_app d /\
  combo_api d' = combo_api d.

(** Run from dialogs that agree on these, the two bodies return the same
    value and leave dialogs that agree on them. *)
Definition agree {geometry A : Type} (m m' : M geometry A) : Prop :=
  forall d d', same_inputs d d' ->
    fst (m' d') = fst (m d) /\ same_inputs (snd (m d)) (snd (m' d')).

(* ===================================================================== *)
(** * Properties *)
(* ===================================================================== *)

(** ** The rounding function and the float operations *)

Module PyFloatFacts.

Local Open Scope Q_scope.

Lemma two_pow_pos (e : Z) : 0 < 2 ^ e.
Proof. apply Qpower_0_lt. reflexivity. Qed.

Lemma two_pow_succ (e : Z) : 2 ^ (e + 1) == 2 * 2 ^ e.
Proof. rewrite Qpower_plus by discriminate. simpl. ring. Qed.

Lemma two_pow_add (a b : Z) : 2 ^ (a + b) == 2 ^ a * 2 ^ b.
Proof. apply Qpower_plus. discriminate. Qed.

Lemma two_pow_le (a b : Z) : (a <= b)%Z -> 2 ^ a <= 2 ^ b.
Proof. intros. apply Qpower_le_compat_l; [assumption | discriminate]. Qed.

Lemma two_pow_lt (a b : Z) : (a < b)%Z -> 2 ^ a < 2 ^ b.
Proof. intros. apply Qpower_lt_compat_l; [assumption | reflexivity]. Qed.

Lemma two_pow_lt_inv (a b : Z) : 2 ^ a < 2 ^ b -> (a < b)%Z.
Proof. intros. apply Qpower_lt_compat_l_inv with (q := 2); [assumption | reflexivity]. Qed.

Lemma two_pow_Z (n : Z) : (0 <= n)%Z -> inject_Z (2 ^ n) == 2 ^ n.
Proof. intros. apply Zpower_Qpower. assumption. Qed.

Lemma Qnum_pos (q : Q) : 0 < q -> (0 < Qnum q)%Z.
Proof. destruct q as [n d]. unfold Qlt. simpl. lia. Qed.

Lemma Q_as_frac (q : Q) : q * inject_Z (Zpos (Qden q)) == inject_Z (Qnum q).
Proof.
  destruct q as [n d]. unfold Qeq, Qmult, inject_Z. simpl. lia.
Qed.

Lemma ilog2_bracket (q : Q) :
  0 < q ->
  let e0 := (Z.log2 (Qnum q) - Z.log2 (Zpos (Qden q)))%Z in
  2 ^ (e0 - 1) < q /\ q < 2 ^ (e0 + 1).
Proof.
  intros Hq e0. subst e0.
  pose proof (Qnum_pos q Hq) as Hn.
  pose proof (Z.log2_spec (Qnum q) Hn) as [Ha1 Ha2].
  assert (Hd : (0 < Zpos (Qden q))%Z) by reflexivity.
  pose proof (Z.log2_spec _ Hd) as [Hb1 Hb2].
  pose proof (Z.log2_nonneg (Qnum q)) as Ha0.
  pose proof (Z.log2_nonneg (Zpos (Qden q))) as Hb0.
  set (a := Z.log2 (Qnum q)) in *. set (b := Z.log2 (Zpos (Qden q))) in *.
  pose proof (Q_as_frac q) as Hf.
  set (d := inject_Z (Zpos (Qden q))) in *. set (n := inject_Z (Qnum q)) in *.
  assert (Hn1 : 2 ^ a <= n).
  { rewrite <- two_pow_Z by assumption. unfold n. rewrite <- Zle_Qle. assumption. }
  assert (Hn2 : n < 2 ^ (a + 1)).
  { rewrite <- two_pow_Z by lia. unfold n. rewrite <- Zlt_Qlt. exact Ha2. }
  assert (Hd1 : 2 ^ b <= d).
  { rewrite <- two_pow_Z by assumption. unfold d. rewrite <- Zle_Qle. assumption. }
  assert (Hd2 : d < 2 ^ (b + 1)).
  { rewrite <- two_pow_Z by lia. unfold d. rewrite <- Zlt_Qlt. exact Hb2. }
  pose proof (two_pow_pos b) as Pb. pose proof (two_pow_pos (a - b - 1)) as Pab.
  assert (E1 : 2 ^ (a + 1) == 2 ^ (a - b + 1) * 2 ^ b).
  { rewrite <- two_pow_add. replace (a - b + 1 + b)%Z with (a + 1)%Z by lia. reflexivity. }
  assert (E2 : 2 ^ a == 2 ^ (a - b - 1) * (2 * 2 ^ b)).
  { rewrite <- two_pow_succ, <- two_pow_add.
    replace (a - b - 1 + (b + 1))%Z with a by lia. reflexivity. }
  assert (E3 : 2 ^ (b + 1) == 2 * 2 ^ b) by apply two_pow_succ.
  pose proof (two_pow_pos (a - b + 1)) as Pab2.
  clearbody d n.
  generalize dependent (2 ^ (a + 1)). generalize dependent (2 ^ (b + 1)).
  generalize dependent (2 ^ (a - b + 1)). generalize dependent (2 ^ (a - b - 1)).
  generalize dependent (2 ^ a). generalize dependent (2 ^ b).
  intros pb Hd1 Pb pa Hn1 lo Plo E2 hi Phi pb2 Hd2 E3 pa2 Hn2 E1.
  split.
  - apply Qnot_le_lt. intro C.
    assert (q * d <= lo * d) by (apply Qmult_le_compat_r; lra).
    assert (lo * d < lo * (2 * pb)) by (apply Qmult_lt_l; lra).
    nra.
  - apply Qnot_le_lt. intro C.
    assert (hi * d <= q * d) by (apply Qmult_le_compat_r; lra).
    assert (hi * pb <= hi * d) by (apply Qmult_le_l; lra).
    nra.
Qed.

Lemma ilog2_spec (q : Q) : 0 < q -> 2 ^ ilog2 q <= q /\ q < 2 ^ (ilog2 q + 1).
Proof.
  intros Hq. destruct (ilog2_bracket q Hq) as [Lo Up]. unfold ilog2.
  set (e0 := (Z.log2 (Qnum q) - Z.log2 (Zpos (Qden q)))%Z) in *.
  destruct (Qle_bool (2 ^ e0) q) eqn:Hc.
  - apply Qle_bool_iff in Hc. split; assumption.
  - replace (e0 - 1 + 1)%Z with e0 by lia. split; [apply Qlt_le_weak; assumption|].
    apply Qnot_le_lt. intro C. apply Qle_bool_iff in C. congruence.
Qed.

Lemma ilog2_unique (q : Q) (e : Z) : 2 ^ e <= q -> q < 2 ^ (e + 1) -> ilog2 q = e.
Proof.
  intros H1 H2.
  assert (Hq : 0 < q) by (pose proof (two_pow_pos e); lra).
  destruct (ilog2_spec q Hq) as [S1 S2].
  assert (2 ^ ilog2 q < 2 ^ (e + 1)) by lra.
  assert (2 ^ e < 2 ^ (ilog2 q + 1)) by lra.
  apply two_pow_lt_inv in H, H0. lia.
Qed.

Lemma ilog2_compat (p q : Q) : 0 < p -> p == q -> ilog2 p = ilog2 q.
Proof.
  intros Hp E. symmetry. apply ilog2_unique; rewrite <- E; apply ilog2_spec; assumption.
Qed.

Lemma ilog2_mono (p q : Q) : 0 < p -> p <= q -> (ilog2 p <= ilog2 q)%Z.
Proof.
  intros Hp Hpq.
  destruct (ilog2_spec p Hp) as [P1 P2].
  destruct (ilog2_spec q) as [Q1 Q2]; [lra|].
  assert (2 ^ ilog2 p < 2 ^ (ilog2 q + 1)) by lra.
  apply two_pow_lt_inv in H. lia.
Qed.

(** rne *)
Lemma rne_compat (x y : Q) : x == y -> rne x = rne y.
Proof.
  intros E. unfold rne. rewrite (Qfloor_comp _ _ E).
  assert (C : Qcompare (x - inject_Z (Qfloor y)) (1 # 2) = Qcompare (y - inject_Z (Qfloor y)) (1 # 2)).
  { rewrite E. reflexivity. }
  rewrite C. reflexivity.
Qed.

Lemma rne_floor (x : Q) : (Qfloor x <= rne x <= Qfloor x + 1)%Z.
Proof.
  unfold rne. destruct (Qcompare _ _); [destruct (Z.even _)| |]; lia.
Qed.

Lemma rne_Z (z : Z) : rne (inject_Z z) = z.
Proof.
  unfold rne. rewrite Qfloor_Z.
  assert (C : Qcompare (inject_Z z - inject_Z z) (1 # 2) = Lt).
  { rewrite <- Qlt_alt. lra. }
  rewrite C. reflexivity.
Qed.

Lemma rne_le_Z (x : Q) (n : Z) : x <= inject_Z n -> (rne x <= n)%Z.
Proof.
  intros H. pose proof (Qfloor_resp_le _ _ H) as F. rewrite Qfloor_Z in F.
  destruct (Z.eq_dec (Qfloor x) n) as [E|NE].
  - unfold rne. pose proof (Qfloor_le x) as L. rewrite E in *.
    assert (C : Qcompare (x - inject_Z n) (1 # 2) = Lt) by (rewrite <- Qlt_alt; lra).
    rewrite C. lia.
  - pose proof (rne_floor x). lia.
Qed.

Lemma rne_ge_Z (x : Q) (n : Z) : inject_Z n <= x -> (n <= rne x)%Z.
Proof.
  intros H. pose proof (Qfloor_resp_le _ _ H) as F. rewrite Qfloor_Z in F.
  pose proof (rne_floor x). lia.
Qed.

Lemma rne_mono (x y : Q) : x <= y -> (rne x <= rne y)%Z.
Proof.
  intros H. pose proof (Qfloor_resp_le _ _ H) as F.
  pose proof (rne_floor x) as Bx. pose proof (rne_floor y) as By.
  destruct (Z.eq_dec (Qfloor x) (Qfloor y)) as [E|NE]; [|lia].
  unfold rne in *. rewrite E in *. set (f := Qfloor y) in *.
  destruct (Qcompare (x - inject_Z f) (1 # 2)) eqn:Cx;
    destruct (Qcompare (y - inject_Z f) (1 # 2)) eqn:Cy;
    try rewrite <- Qeq_alt in *; try rewrite <- Qlt_alt in *; try rewrite <- Qgt_alt in *;
    try (destruct (Z.even f)); try lia; exfalso; lra.
Qed.

Lemma rne_nonneg (x : Q) : 0 <= x -> (0 <= rne x)%Z.
Proof. intros. apply rne_ge_Z. assumption. Qed.

(** round_pos *)
Lemma div_two_pow (q : Q) (c : Z) : q / 2 ^ c == q * 2 ^ (- c).
Proof. unfold Qdiv. rewrite Qpower_opp. reflexivity. Qed.

Lemma two_pow_cancel (c : Z) : 2 ^ (- c) * 2 ^ c == 1.
Proof. rewrite <- two_pow_add. replace (- c + c)%Z with 0%Z by lia. reflexivity. Qed.

Lemma round_pos_eq (q : Q) :
  round_pos q == inject_Z (rne (q / 2 ^ cexp q)) * 2 ^ cexp q.
Proof. unfold round_pos. apply Qred_correct. Qed.

Lemma cexp_compat (p q : Q) : 0 < p -> p == q -> cexp p = cexp q.
Proof. intros. unfold cexp. rewrite (ilog2_compat p q); auto. Qed.

Lemma cexp_mono (p q : Q) : 0 < p -> p <= q -> (cexp p <= cexp q)%Z.
Proof. intros. unfold cexp. pose proof (ilog2_mono p q H H0). lia. Qed.

Lemma round_pos_compat (p q : Q) : 0 < p -> p == q -> round_pos p = round_pos q.
Proof.
  intros Hp E. unfold round_pos. rewrite (cexp_compat p q Hp E).
  apply Qred_complete.
  rewrite (rne_compat (p / 2 ^ cexp q) (q / 2 ^ cexp q)); [reflexivity|].
  rewrite E. reflexivity.
Qed.

Lemma round_pos_nonneg (q : Q) : 0 < q -> 0 <= round_pos q.
Proof.
  intros Hq. rewrite round_pos_eq. pose proof (two_pow_pos (cexp q)) as P.
  apply Qmult_le_0_compat; [|lra].
  rewrite <- (Zle_Qle 0). apply rne_nonneg.
  rewrite div_two_pow. pose proof (two_pow_pos (- cexp q)).
  apply Qmult_le_0_compat; lra.
Qed.

Lemma scaled_le (p q : Q) (c : Z) : p <= q -> p / 2 ^ c <= q / 2 ^ c.
Proof.
  intros. rewrite !div_two_pow. pose proof (two_pow_pos (- c)).
  apply Qmult_le_compat_r; lra.
Qed.

Lemma round_pos_mono (p q : Q) : 0 < p -> p <= q -> round_pos p <= round_pos q.
Proof.
  intros Hp Hpq. assert (Hq : 0 < q) by lra.
  pose proof (cexp_mono p q Hp Hpq) as Hc.
  rewrite !round_pos_eq.
  destruct (Z.eq_dec (cexp p) (cexp q)) as [E|NE].
  - rewrite E. pose proof (two_pow_pos (cexp q)).
    apply Qmult_le_compat_r; [|lra].
    rewrite <- Zle_Qle. apply rne_mono. apply scaled_le. assumption.
  - assert (Hlt : (cexp p < cexp q)%Z) by lia.
    destruct (ilog2_spec p Hp) as [P1 P2]. destruct (ilog2_spec q Hq) as [Q1 Q2].
    set (ep := ilog2 p) in *. set (eq := ilog2 q) in *.
    assert (Hcq : cexp q = (eq - 52)%Z) by (unfold cexp in *; fold ep eq in Hlt |- *; lia).
    assert (Hcp : (ep - 52 <= cexp p)%Z) by (unfold cexp; fold ep; lia).
    assert (Hee : (ep + 1 <= eq)%Z) by lia.
    set (cp := cexp p) in *. set (cq := cexp q) in *.
    apply Qle_trans with (2 ^ eq).
    + assert (B : (rne (p / 2 ^ cp) <= 2 ^ (eq - cp))%Z).
      { apply rne_le_Z. rewrite two_pow_Z by lia.
        rewrite div_two_pow.
        replace (eq - cp)%Z with (eq + - cp)%Z by lia. rewrite two_pow_add.
        pose proof (two_pow_pos (- cp)). pose proof (two_pow_le (ep + 1) eq Hee).
        apply Qmult_le_compat_r; lra. }
      rewrite Zle_Qle in B. rewrite two_pow_Z in B by lia.
      pose proof (two_pow_pos cp).
      apply Qle_trans with (2 ^ (eq - cp) * 2 ^ cp).
      * apply Qmult_le_compat_r; lra.
      * rewrite <- two_pow_add. replace (eq - cp + cp)%Z with eq by lia. apply Qle_refl.
    + assert (B : (2 ^ 52 <= rne (q / 2 ^ cq))%Z).
      { apply rne_ge_Z. rewrite two_pow_Z by lia.
        rewrite div_two_pow. rewrite Hcq.
        assert (E52 : 2 ^ 52 == 2 ^ eq * 2 ^ (- (eq - 52))).
        { rewrite <- two_pow_add. replace (eq + - (eq - 52))%Z with 52%Z by lia. reflexivity. }
        rewrite E52. pose proof (two_pow_pos (- (eq - 52))).
        apply Qmult_le_compat_r; lra. }
      rewrite Zle_Qle in B. rewrite two_pow_Z in B by lia.
      pose proof (two_pow_pos cq).
      apply Qle_trans with (2 ^ 52 * 2 ^ cq).
      * rewrite <- two_pow_add. rewrite Hcq. replace (52 + (eq - 52))%Z with eq by lia. apply Qle_refl.
      * apply Qmult_le_compat_r; lra.
Qed.

Lemma round_pos_exact (q : Q) (m k : Z) :
  0 < q -> q == inject_Z m * 2 ^ k -> (m < 2 ^ 53)%Z -> (-1074 <= k)%Z ->
  round_pos q == q.
Proof.
  intros Hq E Hm Hk. destruct (ilog2_spec q Hq) as [S1 S2].
  assert (Hck : (cexp q <= k)%Z).
  { unfold cexp. apply Z.max_lub; [|assumption].
    assert (L : 2 ^ ilog2 q < 2 ^ (53 + k)).
    { apply Qle_lt_trans with q; [assumption|]. rewrite E.
      rewrite two_pow_add. pose proof (two_pow_pos k).
      apply Qmult_lt_compat_r; [assumption|].
      rewrite <- two_pow_Z by lia. rewrite <- Zlt_Qlt. assumption. }
    apply two_pow_lt_inv in L. lia. }
  rewrite round_pos_eq. set (c := cexp q) in *.
  assert (Es : q / 2 ^ c == inject_Z (m * 2 ^ (k - c))).
  { rewrite div_two_pow, E, inject_Z_mult, two_pow_Z by lia.
    replace (k - c)%Z with (k + - c)%Z by lia. rewrite two_pow_add. ring. }
  rewrite (rne_compat _ _ Es), rne_Z, <- Es, div_two_pow.
  rewrite <- Qmult_assoc, two_pow_cancel. ring.
Qed.

(** round_q *)
Lemma Qnum_sign_pos (q : Q) : 0 < q -> exists p, Qnum q = Zpos p.
Proof.
  intros H. apply Qnum_pos in H. destruct (Qnum q); try lia. eauto.
Qed.

Lemma Qnum_sign_neg (q : Q) : q < 0 -> exists p, Qnum q = Zneg p.
Proof.
  destruct q as [n d]. unfold Qlt; simpl. intros H. destruct n; try lia. eauto.
Qed.

Lemma Qnum_sign_zero (q : Q) : q == 0 -> Qnum q = 0%Z.
Proof. destruct q as [n d]. unfold Qeq; simpl. lia. Qed.

Lemma round_q_pos (q : Q) : 0 < q -> round_q q = round_pos q.
Proof. intros H. destruct (Qnum_sign_pos q H) as [p E]. unfold round_q. rewrite E. reflexivity. Qed.

Lemma round_q_neg (q : Q) : q < 0 -> round_q q = Qred (- round_pos (- q)).
Proof. intros H. destruct (Qnum_sign_neg q H) as [p E]. unfold round_q. rewrite E. reflexivity. Qed.

Lemma round_q_zero (q : Q) : q == 0 -> round_q q = 0.
Proof. intros H. unfold round_q. rewrite (Qnum_sign_zero q H). reflexivity. Qed.

Lemma Q_trichotomy (q : Q) : {q < 0} + {q == 0} + {0 < q}.
Proof.
  destruct (Q_dec q 0) as [[H|H]|H]; auto.
Qed.

Lemma round_q_compat (p q : Q) : p == q -> round_q p = round_q q.
Proof.
  intros E. destruct (Q_trichotomy p) as [[H|H]|H].
  - rewrite !round_q_neg by lra. f_equal. f_equal.
    apply round_pos_compat; [lra | rewrite E; reflexivity].
  - rewrite !round_q_zero by lra. reflexivity.
  - rewrite !round_q_pos by lra. apply round_pos_compat; assumption.
Qed.

Lemma round_q_opp (q : Q) : round_q (- q) == - round_q q.
Proof.
  destruct (Q_trichotomy q) as [[H|H]|H].
  - rewrite (round_q_neg q H), (round_q_pos (- q)) by lra. rewrite Qred_correct. ring.
  - rewrite !round_q_zero by lra. reflexivity.
  - rewrite (round_q_pos q H), (round_q_neg (- q)) by lra. rewrite Qred_correct.
    rewrite (round_pos_compat (- - q) q); [reflexivity | lra | ring].
Qed.

Lemma round_q_nonneg (q : Q) : 0 <= q -> 0 <= round_q q.
Proof.
  intros H. destruct (Q_trichotomy q) as [[H1|H1]|H1]; [lra| |].
  - rewrite round_q_zero by assumption. lra.
  - rewrite round_q_pos by assumption. apply round_pos_nonneg. assumption.
Qed.

Lemma round_q_nonpos (q : Q) : q <= 0 -> round_q q <= 0.
Proof.
  intros H. assert (N : 0 <= round_q (- q)) by (apply round_q_nonneg; lra).
  rewrite round_q_opp in N. lra.
Qed.

Lemma round_q_mono (p q : Q) : p <= q -> round_q p <= round_q q.
Proof.
  intros H. destruct (Q_trichotomy p) as [[Hp|Hp]|Hp].
  - destruct (Q_trichotomy q) as [[Hq|Hq]|Hq].
    + rewrite (round_q_neg p Hp), (round_q_neg q Hq), !Qred_correct.
      assert (round_pos (- q) <= round_pos (- p)) by (apply round_pos_mono; lra). lra.
    + apply Qle_trans with 0; [apply round_q_nonpos | apply round_q_nonneg]; lra.
    + apply Qle_trans with 0; [apply round_q_nonpos | apply round_q_nonneg]; lra.
  - apply Qle_trans with 0; [apply round_q_nonpos | apply round_q_nonneg]; lra.
  - rewrite !round_q_pos by lra. apply round_pos_mono; assumption.
Qed.

Lemma round_q_exact (q : Q) (m k : Z) :
  q == inject_Z m * 2 ^ k -> (Z.abs m < 2 ^ 53)%Z -> (-1074 <= k)%Z ->
  round_q q == q.
Proof.
  intros E Hm Hk. destruct (Q_trichotomy q) as [[H|H]|H].
  - rewrite round_q_neg, Qred_correct by assumption.
    rewrite (round_pos_exact (- q) (- m) k); [ring | lra | | lia | assumption].
    rewrite E, inject_Z_opp. ring.
  - rewrite round_q_zero by assumption. lra.
  - rewrite round_q_pos by assumption. apply (round_pos_exact q m k); auto. lia.
Qed.

Lemma round_q_Z (z : Z) : (Z.abs z < 2 ^ 53)%Z -> round_q (inject_Z z) == inject_Z z.
Proof.
  intros. apply (round_q_exact _ z 0); [simpl; ring | assumption | lia].
Qed.

(** Finite results *)

Lemma maxf_exact : round_q maxf == maxf.
Proof. apply (round_q_exact maxf (2 ^ 53 - 1) 971); [reflexivity | reflexivity | lia]. Qed.

Lemma maxf_slack : round_q (maxf + 45) == maxf.
Proof. vm_compute. reflexivity. Qed.

Lemma maxf_lt : maxf < 2 ^ 1024.
Proof. vm_compute. reflexivity. Qed.

Lemma maxf_pos : 45 < maxf.
Proof. vm_compute. reflexivity. Qed.

Lemma Qabs_le_iff (x y : Q) : Qabs x <= y <-> - y <= x /\ x <= y.
Proof. apply Qabs_Qle_condition. Qed.

Lemma round_q_bound (q : Q) : Qabs q <= maxf + 45 -> Qabs (round_q q) <= maxf.
Proof.
  rewrite !Qabs_le_iff. intros [L U]. split.
  - assert (M : round_q (- (maxf + 45)) <= round_q q) by (apply round_q_mono; lra).
    rewrite round_q_opp, maxf_slack in M. assumption.
  - assert (M : round_q q <= round_q (maxf + 45)) by (apply round_q_mono; lra).
    rewrite maxf_slack in M. assumption.
Qed.

Lemma rnd_bounded (q : Q) : Qabs q <= maxf + 45 -> rnd q = Fin (round_q q) /\ Qabs (round_q q) <= maxf.
Proof.
  intros H. pose proof (round_q_bound q H) as B. split; [|assumption].
  unfold rnd. cbv zeta.
  destruct (Qle_bool (2 ^ 1024) (Qabs (round_q q))) eqn:E; [|reflexivity].
  apply Qle_bool_iff in E. pose proof maxf_lt. lra.
Qed.

Lemma rnd_is_bounded (q : Q) : Qabs q <= maxf + 45 -> bounded (rnd q).
Proof. intros H. destruct (rnd_bounded q H). exists (round_q q). auto. Qed.

Lemma Qabs_Qred (q : Q) : Qabs (Qred q) == Qabs q.
Proof. rewrite Qred_correct. reflexivity. Qed.

Lemma trunc_nonneg (s w : Q) :
  0 < w -> 0 <= s ->
  0 <= w * inject_Z (Qtrunc (s / w)) /\ w * inject_Z (Qtrunc (s / w)) <= s
  /\ s - w * inject_Z (Qtrunc (s / w)) < w.
Proof.
  intros Hw Hs. unfold Qtrunc.
  assert (Hx : 0 <= s / w) by (apply Qle_shift_div_l; lra).
  assert (Hb : Qle_bool 0 (s / w) = true) by (apply Qle_bool_iff; assumption).
  rewrite Hb. pose proof (Qfloor_le (s / w)) as F1. pose proof (Qlt_floor (s / w)) as F2.
  rewrite inject_Z_plus in F2. change (inject_Z 1) with 1 in F2.
  assert (F0 : 0 <= inject_Z (Qfloor (s / w))).
  { rewrite <- (Zle_Qle 0). rewrite <- (Qfloor_Z 0). apply Qfloor_resp_le. assumption. }
  assert (E : w * (s / w) == s) by (field; lra).
  set (x := s / w) in *. set (t := inject_Z (Qfloor x)) in *.
  assert (w * t <= w * x) by (apply Qmult_le_l; lra).
  assert (w * x < w * (t + 1)) by (apply Qmult_lt_l; lra).
  assert (0 <= w * t) by (apply Qmult_le_0_compat; lra).
  repeat split; lra.
Qed.

Lemma trunc_neg (s w : Q) :
  0 < w -> s < 0 ->
  s <= w * inject_Z (Qtrunc (s / w)) /\ w * inject_Z (Qtrunc (s / w)) <= 0
  /\ - w < s - w * inject_Z (Qtrunc (s / w)).
Proof.
  intros Hw Hs. unfold Qtrunc.
  assert (Hx : s / w < 0) by (apply Qlt_shift_div_r; lra).
  assert (Hb : Qle_bool 0 (s / w) = false).
  { destruct (Qle_bool 0 (s / w)) eqn:E; [|reflexivity]. apply Qle_bool_iff in E. lra. }
  rewrite Hb. pose proof (Qle_ceiling (s / w)) as F1. pose proof (Qceiling_lt (s / w)) as F2.
  unfold Z.sub in F2. rewrite inject_Z_plus in F2.
  assert (F0 : inject_Z (Qceiling (s / w)) <= 0).
  { rewrite <- (Zle_Qle _ 0). rewrite <- (Qceiling_Z 0). apply Qceiling_resp_le.
    apply Qlt_le_weak. exact Hx. }
  assert (E : w * (s / w) == s) by (field; lra).
  set (x := s / w) in *. set (t := inject_Z (Qceiling x)) in *.
  assert (w * x <= w * t) by (apply Qmult_le_l; lra).
  assert (F2' : t + -1 < x) by exact F2.
  assert (w * (t + -1) < w * x) by (apply Qmult_lt_l; lra).
  assert (0 <= w * - t) by (apply Qmult_le_0_compat; lra).
  repeat split; lra.
Qed.

(** Exact integer results *)
Lemma two53_le_maxf : inject_Z (2 ^ 53) <= maxf.
Proof. vm_compute. discriminate. Qed.

Lemma Zabs_Qabs (z : Z) : Qabs (inject_Z z) == inject_Z (Z.abs z).
Proof. unfold Qabs, inject_Z. reflexivity. Qed.

Lemma rnd_int (q : Q) (z : Z) :
  q == inject_Z z -> (Z.abs z < 2 ^ 53)%Z -> exists r, rnd q = Fin r /\ r == inject_Z z.
Proof.
  intros E Hz. exists (round_q q).
  assert (R : round_q q == inject_Z z).
  { rewrite (round_q_compat q (inject_Z z) E). apply round_q_Z. assumption. }
  split; [|assumption].
  apply rnd_bounded. rewrite E, Zabs_Qabs.
  pose proof two53_le_maxf. assert (inject_Z (Z.abs z) < inject_Z (2 ^ 53)) by (rewrite <- Zlt_Qlt; assumption).
  lra.
Qed.

Lemma fsub_Fin (a b : Q) : fsub (Fin a) (Fin b) = rnd (a + Qred (- b)).
Proof. reflexivity. Qed.

Lemma truthy_Fin_false (q : Q) : q == 0 -> truthy (Fin q) = false.
Proof.
  intros E. unfold truthy, feq, fle.
  assert (Qle_bool q 0 = true) by (apply Qle_bool_iff; lra).
  assert (Qle_bool 0 q = true) by (apply Qle_bool_iff; lra).
  rewrite H, H0. reflexivity.
Qed.

Lemma truthy_Fin_true (q : Q) : ~ q == 0 -> truthy (Fin q) = true.
Proof.
  intros NE. unfold truthy, feq, fle.
  destruct (Qle_bool q 0) eqn:A; [|reflexivity].
  destruct (Qle_bool 0 q) eqn:B; [|reflexivity].
  apply Qle_bool_iff in A, B. exfalso. apply NE. lra.
Qed.

Lemma flt_Fin_true (a b : Q) : a < b -> flt (Fin a) (Fin b) = true.
Proof.
  intros H. unfold flt. destruct (Qle_bool b a) eqn:E; [|reflexivity].
  apply Qle_bool_iff in E. lra.
Qed.

Lemma flt_Fin_false (a b : Q) : b <= a -> flt (Fin a) (Fin b) = false.
Proof.
  intros H. unfold flt. apply Qle_bool_iff in H. rewrite H. reflexivity.
Qed.

(** The "snap to the nearest integral value" step of [_float_div_mod] on a
    quotient that is already integral. *)
Lemma floordiv_snap (d : Q) (z : Z) :
  d == inject_Z z -> (Z.abs z < 2 ^ 53)%Z ->
  (if truthy (Fin d)
   then if flt (Fin (1 # 2)) (fsub (Fin d) (ffloor (Fin d)))
        then fadd (ffloor (Fin d)) (Fin 1) else ffloor (Fin d)
   else Fin 0) = Fin (inject_Z z).
Proof.
  intros E Hz. destruct (Z.eq_dec z 0%Z) as [Z0|NZ].
  - subst z. rewrite truthy_Fin_false by assumption. reflexivity.
  - rewrite truthy_Fin_true.
    2:{ rewrite E. intro C. apply NZ. apply inject_Z_injective. exact C. }
    unfold ffloor. rewrite (Qfloor_comp _ _ E), Qfloor_Z.
    rewrite fsub_Fin.
    destruct (rnd_int (d + Qred (- inject_Z z)) 0) as [r [Hr Er]];
      [rewrite Qred_correct, E; ring | reflexivity |].
    rewrite Hr. rewrite flt_Fin_false; [reflexivity|]. rewrite Er. discriminate.
Qed.

Lemma Qfloor_trunc_nonneg (x : Q) : 0 <= x -> Qtrunc x = Qfloor x.
Proof. intros H. unfold Qtrunc. apply Qle_bool_iff in H. rewrite H. reflexivity. Qed.

Lemma Qfloor_unique (x : Q) (z : Z) : inject_Z z <= x -> x < inject_Z z + 1 -> Qfloor x = z.
Proof.
  intros L U. pose proof (Qfloor_le x) as F1. pose proof (Qlt_floor x) as F2.
  rewrite inject_Z_plus in F2. change (inject_Z 1) with 1 in F2.
  assert (A : inject_Z z < inject_Z (Qfloor x) + 1) by lra.
  assert (B : inject_Z (Qfloor x) < inject_Z z + 1) by lra.
  change 1 with (inject_Z 1) in A, B. rewrite <- inject_Z_plus in A, B.
  rewrite <- Zlt_Qlt in A, B. lia.
Qed.

Lemma float_floor_div_exact (s : Q) (w : Z) :
  (1 <= w)%Z -> Qabs s <= inject_Z (2 ^ 52) ->
  float_floor_div (Fin s) (Fin (inject_Z w)) =
  Ok (Fin (inject_Z (Qfloor (s / inject_Z w)))).
Proof.
  intros Hw Hs.
  assert (Wpos : 0 < inject_Z w) by (rewrite <- (Zlt_Qlt 0); lia).
  assert (W1 : 1 <= inject_Z w) by (rewrite <- (Zle_Qle 1); lia).
  unfold float_floor_div.
  assert (F0 : feq (Fin (inject_Z w)) (Fin 0) = false).
  { unfold feq, fle. destruct (Qle_bool (inject_Z w) 0) eqn:E; [|reflexivity].
    apply Qle_bool_iff in E. lra. }
  rewrite F0. f_equal. unfold float_div_mod.
  assert (NZ : Qeq_bool (inject_Z w) 0 = false).
  { destruct (Qeq_bool (inject_Z w) 0) eqn:E; [|reflexivity]. apply Qeq_bool_eq in E. lra. }
  unfold fmod. rewrite NZ.
  set (W := inject_Z w) in *.
  set (t := Qtrunc (s / W)).
  set (m := Qred (s - W * inject_Z t)).
  assert (Em : m == s - W * inject_Z t) by apply Qred_correct.
  apply Qabs_le_iff in Hs. destruct Hs as [Hs1 Hs2].
    (* bounds on the truncated quotient *)
  assert (Ht : ((Z.abs t <= 2 ^ 52)%Z /\ (Z.abs (w * t) <= 2 ^ 52)%Z) /\
               ((0 <= s -> 0 <= m /\ m < W /\ t = Qfloor (s / W)) /\
                (s < 0 -> m <= 0 /\ - W < m))).
  { destruct (Qlt_le_dec s 0) as [Neg|Pos].
    - destruct (trunc_neg s W Wpos Neg) as [A [B C]]. fold t in A, B, C.
      split; [|split; [lra | intros _; rewrite Em; lra]].
      assert (T0 : inject_Z t <= 0).
      { apply Qnot_lt_le. intro Cn. assert (0 < W * inject_Z t) by (apply Qmult_lt_0_compat; lra). lra. }
      assert (T1 : - inject_Z (2 ^ 52) <= inject_Z t).
      { apply Qnot_lt_le. intro Cn.
        assert (0 <= (W - 1) * (- inject_Z t)) by (apply Qmult_le_0_compat; lra).
        nra. }
      rewrite <- inject_Z_opp, <- Zle_Qle in T1. rewrite <- (Zle_Qle _ 0) in T0.
      assert (T2 : - inject_Z (2 ^ 52) <= inject_Z (w * t)) by (rewrite inject_Z_mult; fold W; lra).
      assert (T3 : inject_Z (w * t) <= 0) by (rewrite inject_Z_mult; fold W; lra).
      rewrite <- inject_Z_opp, <- Zle_Qle in T2. rewrite <- (Zle_Qle _ 0) in T3. lia.
    - destruct (trunc_nonneg s W Wpos Pos) as [A [B C]]. fold t in A, B, C.
      split; [|split; [intros _; rewrite Em; repeat split; try lra | lra]].
      + assert (T0 : 0 <= inject_Z t).
        { apply Qnot_lt_le. intro Cn.
          assert (0 < W * - inject_Z t) by (apply Qmult_lt_0_compat; lra). lra. }
        assert (T1 : inject_Z t <= inject_Z (2 ^ 52)).
        { apply Qnot_lt_le. intro Cn.
          assert (1 * inject_Z t <= W * inject_Z t) by (apply Qmult_le_compat_r; lra).
          lra. }
        rewrite <- Zle_Qle in T1. rewrite <- (Zle_Qle 0) in T0.
        assert (T2 : inject_Z (w * t) <= inject_Z (2 ^ 52)) by (rewrite inject_Z_mult; fold W; lra).
        assert (T3 : 0 <= inject_Z (w * t)) by (rewrite inject_Z_mult; fold W; lra).
        rewrite <- Zle_Qle in T2. rewrite <- (Zle_Qle 0) in T3. lia.
      + unfold t. apply Qfloor_trunc_nonneg. apply Qle_shift_div_l; lra. }
  destruct Ht as [[Tb Twt] [Hpos Hneg]].
  (* vx - mod *)
  rewrite fsub_Fin.
  destruct (rnd_int (s + Qred (- m)) (w * t)) as [r1 [Hr1 Er1]].
  { rewrite Qred_correct, Em, inject_Z_mult. fold W. ring. }
  { lia. }
  rewrite Hr1. unfold fdiv. rewrite NZ.
  destruct (rnd_int (r1 / W) t) as [d0 [Hd0 Ed0]].
  { rewrite Er1, inject_Z_mult. fold W. field. lra. }
  { lia. }
  rewrite Hd0.
  destruct (Qeq_dec m 0) as [M0|MN].
  - (* exact multiple *)
    rewrite (truthy_Fin_false m M0). cbv beta iota zeta.
    rewrite (floordiv_snap d0 t Ed0) by lia. cbn [fst]. do 2 f_equal.
    symmetry. apply Qfloor_unique.
    + assert (s == W * inject_Z t) by lra. rewrite H. apply Qle_shift_div_l; lra.
    + assert (s == W * inject_Z t) by lra. rewrite H. apply Qlt_shift_div_r; lra.
  - rewrite (truthy_Fin_true m MN).
    rewrite (flt_Fin_false W 0) by lra.
    destruct (Qlt_le_dec s 0) as [Neg|Pos].
    + destruct (Hneg Neg) as [A B].
      rewrite (flt_Fin_true m 0) by lra. cbv beta iota zeta. simpl negb. cbv iota.
      rewrite fsub_Fin.
      destruct (rnd_int (d0 + Qred (Qopp 1)) (t - 1)) as [d1 [Hd1 Ed1]].
      { rewrite Qred_correct, Ed0. unfold Z.sub. rewrite inject_Z_plus. reflexivity. }
      { lia. }
      rewrite Hd1. rewrite (floordiv_snap d1 (t - 1) Ed1) by lia. cbn [fst]. do 2 f_equal.
      symmetry. unfold Z.sub. apply Qfloor_unique.
      * rewrite inject_Z_plus, inject_Z_opp. change (inject_Z 1) with 1.
        apply Qle_shift_div_l; [lra|]. nra.
      * rewrite inject_Z_plus, inject_Z_opp. change (inject_Z 1) with 1.
        assert (Mneg : m < 0).
        { destruct (Qlt_le_dec m 0) as [L|G]; [assumption|]. exfalso. apply MN. lra. }
        apply Qlt_shift_div_r; [lra|]. nra.
    + destruct (Hpos Pos) as [A [B C]].
      rewrite (flt_Fin_false m 0) by lra. cbv beta iota zeta. simpl negb. cbv iota.
      rewrite (floordiv_snap d0 t Ed0) by lia. cbn [fst]. rewrite C. reflexivity.
Qed.

(** Finite results of floor division on any finite double *)
Lemma maxf_int : maxf == inject_Z ((2 ^ 53 - 1) * 2 ^ 971).
Proof. vm_compute. reflexivity. Qed.

Lemma fadd_bounded (a b : Q) : Qabs (a + b) <= maxf + 45 -> bounded (fadd (Fin a) (Fin b)).
Proof. intros. apply rnd_is_bounded. assumption. Qed.

Lemma floor_bounded (d : Q) : Qabs d <= maxf -> Qabs (inject_Z (Qfloor d)) <= maxf.
Proof.
  rewrite !Qabs_le_iff. intros [L U]. pose proof (Qfloor_le d). split; [|lra].
  rewrite maxf_int in *. rewrite <- inject_Z_opp in *. rewrite <- Zle_Qle.
  rewrite <- (Qfloor_Z (- _)). apply Qfloor_resp_le. assumption.
Qed.

Lemma snap_finite (d : Q) :
  Qabs d <= maxf ->
  exists f, (if truthy (Fin d)
             then if flt (Fin (1 # 2)) (fsub (Fin d) (ffloor (Fin d)))
                  then fadd (ffloor (Fin d)) (Fin 1) else ffloor (Fin d)
             else Fin 0) = Fin f.
Proof.
  intros B. destruct (truthy (Fin d)); [|eauto].
  destruct (flt _ _); [|simpl; eauto].
  pose proof (floor_bounded d B) as FB. unfold ffloor.
  destruct (fadd_bounded (inject_Z (Qfloor d)) 1) as [f [Hf _]]; [|eauto].
  apply Qabs_le_iff in FB. apply Qabs_le_iff. lra.
Qed.

Lemma float_floor_div_finite (s W : Q) :
  1 <= W -> Qabs s <= maxf ->
  exists f, float_floor_div (Fin s) (Fin W) = Ok (Fin f).
Proof.
  intros W1 Hs. assert (Wpos : 0 < W) by lra.
  unfold float_floor_div.
  assert (F0 : feq (Fin W) (Fin 0) = false).
  { unfold feq, fle. destruct (Qle_bool W 0) eqn:E; [|reflexivity].
    apply Qle_bool_iff in E. lra. }
  rewrite F0. unfold float_div_mod.
  assert (NZ : Qeq_bool W 0 = false).
  { destruct (Qeq_bool W 0) eqn:E; [|reflexivity]. apply Qeq_bool_eq in E. lra. }
  unfold fmod. rewrite NZ.
  set (t := Qtrunc (s / W)).
  set (m := Qred (s - W * inject_Z t)).
  assert (Em : m == s - W * inject_Z t) by apply Qred_correct.
  apply Qabs_le_iff in Hs. destruct Hs as [Hs1 Hs2].
  assert (Hwt : - maxf <= W * inject_Z t /\ W * inject_Z t <= maxf).
  { destruct (Qlt_le_dec s 0) as [Neg|Pos].
    - destruct (trunc_neg s W Wpos Neg) as [A [B C]]. fold t in A, B, C. lra.
    - destruct (trunc_nonneg s W Wpos Pos) as [A [B C]]. fold t in A, B, C. lra. }
  rewrite fsub_Fin.
  destruct (rnd_bounded (s + Qred (- m))) as [Hr1 Br1].
  { rewrite Qred_correct, Em. apply Qabs_le_iff. lra. }
  rewrite Hr1. set (r1 := round_q (s + Qred (- m))) in *.
  unfold fdiv. rewrite NZ.
  apply Qabs_le_iff in Br1.
  destruct (rnd_bounded (r1 / W)) as [Hd0 Bd0].
  { apply Qabs_le_iff. pose proof maxf_pos.
    split.
    - apply Qle_shift_div_l; [assumption|].
      assert (0 <= (maxf + 45) * (W - 1)) by (apply Qmult_le_0_compat; lra). nra.
    - apply Qle_shift_div_r; [assumption|].
      assert (0 <= (maxf + 45) * (W - 1)) by (apply Qmult_le_0_compat; lra). nra. }
  rewrite Hd0. set (d0 := round_q (r1 / W)) in *.
  assert (Hdiv : exists d, Qabs d <= maxf /\
    fst (if truthy (Fin m)
         then if negb (Bool.eqb (flt (Fin W) (Fin 0)) (flt (Fin m) (Fin 0)))
              then (fsub (Fin d0) (Fin 1), fadd (Fin m) (Fin W))
              else (Fin d0, Fin m)
         else (Fin d0, Fin 0)) = Fin d).
  { destruct (truthy (Fin m)); [|exists d0; auto].
    destruct (negb _); [|exists d0; auto].
    cbn [fst]. rewrite fsub_Fin.
    destruct (rnd_bounded (d0 + Qred (Qopp 1))) as [Hd1 Bd1].
    { rewrite Qred_correct. apply Qabs_le_iff in Bd0. apply Qabs_le_iff. lra. }
    rewrite Hd1. eauto. }
  destruct Hdiv as [d [Bd Hd]].
  match goal with
  | |- context [let '(div, md) := ?P in _] => destruct P as [dv md] eqn:EP
  end.
  cbn [fst] in Hd. subst dv. cbv beta iota zeta. cbn [fst].
  destruct (snap_finite d Bd) as [f Hf]. rewrite Hf. eauto.
Qed.

(** Float remainder *)
Lemma feq_pos_zero (W : Q) : 0 < W -> feq (Fin W) (Fin 0) = false.
Proof.
  intros H. unfold feq, fle. destruct (Qle_bool W 0) eqn:E; [|reflexivity].
  apply Qle_bool_iff in E. lra.
Qed.

Lemma Qeq_bool_pos_zero (W : Q) : 0 < W -> Qeq_bool W 0 = false.
Proof.
  intros H. destruct (Qeq_bool W 0) eqn:E; [|reflexivity]. apply Qeq_bool_eq in E. lra.
Qed.

Lemma float_rem_nonneg (s W : Q) :
  0 < W -> 0 <= s ->
  exists r, float_rem (Fin s) (Fin W) = Ok (Fin r) /\ 0 <= r /\ r < W.
Proof.
  intros Wpos Hs. unfold float_rem. rewrite (feq_pos_zero W Wpos).
  unfold fmod. rewrite (Qeq_bool_pos_zero W Wpos).
  destruct (trunc_nonneg s W Wpos Hs) as [A [B C]].
  set (m := Qred (s - W * inject_Z (Qtrunc (s / W)))).
  assert (Em : m == s - W * inject_Z (Qtrunc (s / W))) by apply Qred_correct.
  destruct (truthy (Fin m)).
  - rewrite (flt_Fin_false W 0), (flt_Fin_false m 0) by lra. cbn.
    exists m. split; [reflexivity|]. split; lra.
  - exists 0. split; [reflexivity|]. split; lra.
Qed.

Lemma float_rem_int (n w : Z) :
  (1 <= w < 2 ^ 52)%Z -> (Z.abs n <= 2 ^ 52)%Z ->
  exists r, float_rem (Fin (inject_Z n)) (Fin (inject_Z w)) = Ok (Fin r)
            /\ r == inject_Z (n mod w).
Proof.
  intros Hw Hn.
  assert (Wpos : 0 < inject_Z w) by (rewrite <- (Zlt_Qlt 0); lia).
  unfold float_rem. rewrite (feq_pos_zero _ Wpos).
  unfold fmod. rewrite (Qeq_bool_pos_zero _ Wpos).
  set (W := inject_Z w) in *. set (s := inject_Z n) in *.
  set (t := Qtrunc (s / W)).
  set (m := Qred (s - W * inject_Z t)).
  assert (Em : m == inject_Z (n - w * t)).
  { unfold m. rewrite Qred_correct. unfold Z.sub.
    rewrite inject_Z_plus, inject_Z_opp, inject_Z_mult. reflexivity. }
  assert (Em' : m == s - W * inject_Z t) by apply Qred_correct.
  destruct (Qlt_le_dec s 0) as [Neg|Pos].
  - destruct (trunc_neg s W Wpos Neg) as [A [B C]]. fold t in A, B, C.
    destruct (Qeq_dec m 0) as [M0|MN].
    + rewrite (truthy_Fin_false m M0). exists 0. split; [reflexivity|].
      assert (Z0 : (n - w * t = 0)%Z).
      { apply inject_Z_injective. rewrite <- Em, M0. reflexivity. }
      replace (n mod w)%Z with 0%Z; [reflexivity|].
      apply Z.mod_unique_pos with t; lia.
    + rewrite (truthy_Fin_true m MN).
      assert (Mneg : m < 0).
      { destruct (Qlt_le_dec m 0) as [L|G]; [assumption|]. exfalso. apply MN. lra. }
      rewrite (flt_Fin_false W 0), (flt_Fin_true m 0) by lra. cbn [Bool.eqb negb].
      assert (Z1 : (- w < n - w * t < 0)%Z).
      { rewrite Em in Mneg. rewrite Em' in Em.
        assert (L : - W < inject_Z (n - w * t)) by (rewrite <- Em; lra).
        unfold W in L. rewrite <- inject_Z_opp in L. rewrite <- Zlt_Qlt in L.
        change 0 with (inject_Z 0) in Mneg. rewrite <- Zlt_Qlt in Mneg. lia. }
      destruct (rnd_int (m + W) (n - w * t + w)) as [r [Hr Er]].
      { rewrite Em, inject_Z_plus. reflexivity. }
      { lia. }
      exists r. unfold fadd. split; [rewrite Hr; reflexivity|].
      rewrite Er. replace (n mod w)%Z with (n - w * t + w)%Z; [reflexivity|].
      apply Z.mod_unique_pos with (t - 1)%Z; lia.
  - destruct (trunc_nonneg s W Wpos Pos) as [A [B C]]. fold t in A, B, C.
    assert (Z1 : (0 <= n - w * t < w)%Z).
    { assert (L : 0 <= inject_Z (n - w * t)) by (rewrite <- Em; lra).
      assert (U : inject_Z (n - w * t) < W) by (rewrite <- Em; lra).
      unfold W in U. rewrite <- Zlt_Qlt in U.
      change 0 with (inject_Z 0) in L. rewrite <- Zle_Qle in L. lia. }
    assert (R : (n mod w = n - w * t)%Z).
    { symmetry. apply Z.mod_unique_pos with t; lia. }
    destruct (truthy (Fin m)) eqn:T.
    + rewrite (flt_Fin_false W 0), (flt_Fin_false m 0) by lra. cbn [Bool.eqb negb].
      exists m. split; [reflexivity|]. rewrite R. assumption.
    + exists 0. split; [reflexivity|].
      destruct (Qeq_dec m 0) as [M0|MN].
      * rewrite R, <- Em, M0. reflexivity.
      * rewrite (truthy_Fin_true m MN) in T. discriminate.
Qed.

(** ** Facts about [azimuth_to_dir] *)

Lemma lit_22_5 : lit 22.5 = Fin (45 # 2).
Proof. vm_compute. reflexivity. Qed.

Lemma lit_45 : lit 45 = Fin (inject_Z 45).
Proof. vm_compute. reflexivity. Qed.

Lemma lit_360 : lit 360 = Fin (inject_Z 360).
Proof. vm_compute. reflexivity. Qed.

Lemma Qtrunc_Z (z : Z) : Qtrunc (inject_Z z) = z.
Proof. unfold Qtrunc. destruct (Qle_bool 0 (inject_Z z)); [apply Qfloor_Z | apply Qceiling_Z]. Qed.

Lemma list_index_dirs8 (i : Z) :
  exists l, list_index dirs8 (i mod 8) = Ok l /\ In l dirs8.
Proof.
  assert (H : (0 <= i mod 8 < 8)%Z) by (apply Z.mod_pos_bound; lia).
  unfold list_index.
  assert (N : (Z.to_nat (i mod 8) < 8)%nat) by lia.
  destruct (Z.to_nat (i mod 8)) as [|[|[|[|[|[|[|[|k]]]]]]]];
    try lia; cbn; eexists; (split; [reflexivity|]); cbn; auto 10.
Qed.

(** On every finite double the label is defined. *)
Lemma azimuth_to_dir_total (q : Q) :
  Qabs q <= maxf -> exists l, azimuth_to_dir (Fin q) = Ok l /\ In l dirs8.
Proof.
  intros H. unfold azimuth_to_dir. rewrite lit_22_5, lit_45.
  destruct (rnd_bounded (q + (45 # 2))) as [Hs Bs].
  { apply Qabs_le_iff in H. apply Qabs_le_iff. lra. }
  unfold fadd. rewrite Hs.
  destruct (float_floor_div_finite (round_q (q + (45 # 2))) (inject_Z 45)) as [f Hf];
    [discriminate | assumption |].
  rewrite Hf. cbn [bind py_int]. apply list_index_dirs8.
Qed.

(** The sector rule: below [2 ^ 51] the floor division of CPython is the
    mathematical floor of the quotient. *)
Lemma azimuth_to_dir_rule_q (d : Q) :
  Qabs d <= inject_Z (2 ^ 51) ->
  fadd (Fin d) (lit 22.5) = Fin (round_q (d + (45 # 2))) /\
  azimuth_to_dir (Fin d) =
  list_index dirs8 (Qfloor (round_q (d + (45 # 2)) / 45) mod 8).
Proof.
  intros H.
  assert (B51 : inject_Z (2 ^ 51) == 2251799813685248) by reflexivity.
  assert (Bm : inject_Z (2 ^ 52) <= maxf) by (vm_compute; discriminate).
  assert (B52 : inject_Z (2 ^ 52) == 4503599627370496) by reflexivity.
  apply Qabs_le_iff in H.
  destruct (rnd_bounded (d + (45 # 2))) as [Hs _].
  { apply Qabs_le_iff. lra. }
  assert (Bs : Qabs (round_q (d + (45 # 2))) <= inject_Z (2 ^ 52)).
  { apply Qabs_le_iff. split.
    - rewrite <- inject_Z_opp. rewrite <- (round_q_Z (- 2 ^ 52)) by (vm_compute; reflexivity).
      apply round_q_mono. rewrite inject_Z_opp. lra.
    - rewrite <- (round_q_Z (2 ^ 52)) by (vm_compute; reflexivity).
      apply round_q_mono. lra. }
  unfold azimuth_to_dir. rewrite lit_22_5, lit_45. unfold fadd. rewrite Hs.
  split; [reflexivity|].
  rewrite float_floor_div_exact by (try lia; assumption).
  cbn [bind py_int]. rewrite Qtrunc_Z. reflexivity.
Qed.

(** Whole degrees: the sum [deg + 22.5] is exact, and the label is the
    integer sector [(2 n + 45) / 90 mod 8]. *)
Lemma azimuth_to_dir_int (d : Q) (n : Z) :
  d == inject_Z n -> (Z.abs n <= 2 ^ 50)%Z ->
  azimuth_to_dir (Fin d) = list_index dirs8 (((2 * n + 45) / 90) mod 8).
Proof.
  intros E Hn.
  assert (B : Qabs d <= inject_Z (2 ^ 51)).
  { rewrite E, Zabs_Qabs, <- Zle_Qle. lia. }
  destruct (azimuth_to_dir_rule_q d B) as [_ R]. rewrite R. do 2 f_equal.
  assert (Es : round_q (d + (45 # 2)) == inject_Z (2 * n + 45) * 2 ^ (-1)).
  { assert (X : d + (45 # 2) == inject_Z (2 * n + 45) * 2 ^ (-1)).
    { rewrite E, inject_Z_plus, inject_Z_mult. change (2 ^ (-1)) with (1 # 2).
      change (inject_Z 2) with 2. change (inject_Z 45) with 45. field. }
    rewrite (round_q_exact _ (2 * n + 45) (-1) X); [assumption | lia | lia]. }
  rewrite (Zdiv_Qdiv (2 * n + 45) 90). apply Qfloor_comp.
  rewrite Es. change (2 ^ (-1)) with (1 # 2). change (inject_Z 90) with 90. field.
Qed.

Lemma sector_periodic (n : Z) :
  (((2 * (n mod 360) + 45) / 90) mod 8 = ((2 * n + 45) / 90) mod 8)%Z.
Proof.
  pose proof (Z.div_mod n 360 ltac:(lia)) as D.
  set (q := (n / 360)%Z) in *. set (r := (n mod 360)%Z) in *.
  replace (2 * n + 45)%Z with (2 * r + 45 + (8 * q) * 90)%Z by lia.
  rewrite Z.div_add by lia.
  replace ((2 * r + 45) / 90 + 8 * q)%Z with ((2 * r + 45) / 90 + q * 8)%Z by lia.
  rewrite Z_mod_plus_full. reflexivity.
Qed.

(** [azimuth_to_dir] is 360-periodic on whole degrees, the reduction being
    Python's own [deg % 360]. *)
Lemma azimuth_to_dir_periodic_int (n : Z) :
  (Z.abs n <= 2 ^ 50)%Z ->
  exists r, float_rem (Fin (inject_Z n)) (lit 360) = Ok (Fin r) /\
            azimuth_to_dir (Fin r) = azimuth_to_dir (Fin (inject_Z n)).
Proof.
  intros Hn. rewrite lit_360.
  destruct (float_rem_int n 360) as [r [Hr Er]]; [lia | lia |].
  exists r. split; [assumption|].
  assert (M : (0 <= n mod 360 < 360)%Z) by (apply Z.mod_pos_bound; lia).
  rewrite (azimuth_to_dir_int r (n mod 360) Er) by lia.
  rewrite (azimuth_to_dir_int (inject_Z n) n) by (reflexivity || assumption).
  rewrite sector_periodic. reflexivity.
Qed.

(** ** Facts about [azimuth_geographic] *)

Lemma pi_eq : pi = Fin pi_q.
Proof. vm_compute. reflexivity. Qed.

Lemma radToDeg_eq : radToDeg = Fin radToDeg_q.
Proof. vm_compute. reflexivity. Qed.

Lemma degrees_pi : round_q (pi_q * radToDeg_q) == 180.
Proof. vm_compute. reflexivity. Qed.

(** [math.degrees] maps [[-pi, pi]] into [[-180, 180]]. *)
Lemma degrees_range (a : Q) :
  Qabs a <= pi_q ->
  exists g, degrees (Fin a) = Fin g /\ -180 <= g /\ g <= 180.
Proof.
  intros H. apply Qabs_le_iff in H. destruct H as [L U].
  unfold degrees. rewrite radToDeg_eq. unfold fmul.
  assert (Rpos : 0 < radToDeg_q) by (vm_compute; reflexivity).
  assert (P : pi_q * radToDeg_q <= 181) by (vm_compute; discriminate).
  assert (Mx : 181 <= maxf) by (vm_compute; discriminate).
  assert (X1 : a * radToDeg_q <= pi_q * radToDeg_q) by (apply Qmult_le_compat_r; lra).
  assert (X2 : - (pi_q * radToDeg_q) <= a * radToDeg_q).
  { assert (- pi_q * radToDeg_q <= a * radToDeg_q) by (apply Qmult_le_compat_r; lra). lra. }
  destruct (rnd_bounded (a * radToDeg_q)) as [Hr _].
  { apply Qabs_le_iff. lra. }
  rewrite Hr. eexists. split; [reflexivity|]. split.
  - assert (M : round_q (- (pi_q * radToDeg_q)) <= round_q (a * radToDeg_q))
      by (apply round_q_mono; assumption).
    rewrite round_q_opp, degrees_pi in M. lra.
  - assert (M : round_q (a * radToDeg_q) <= round_q (pi_q * radToDeg_q))
      by (apply round_q_mono; assumption).
    rewrite degrees_pi in M. assumption.
Qed.

Lemma fsub_not_nan (x y : float) :
  is_finite x = true -> is_finite y = true -> is_nan (fsub x y) = false.
Proof.
  destruct x as [| |a]; try discriminate. destruct y as [| |b]; try discriminate.
  intros _ _. rewrite fsub_Fin. unfold rnd. cbv zeta.
  destruct (Qle_bool _ _); reflexivity.
Qed.

Section BearingFacts.

Variable atan2 : float -> float -> float.

(** The C library's contract for [atan2]: on arguments that are not NaN
    the result lies in [[-pi, pi]]. *)
Hypothesis atan2_range :
  forall dx dy, is_nan dx = false -> is_nan dy = false ->
  exists a, atan2 dx dy = Fin a /\ Qabs a <= pi_q.

Lemma azimuth_geographic_range (p1 p2 : point) :
  is_finite (px p1) = true -> is_finite (py p1) = true ->
  is_finite (px p2) = true -> is_finite (py p2) = true ->
  exists r, azimuth_geographic atan2 p1 p2 = Ok (Fin r) /\ 0 <= r /\ r < 360.
Proof.
  intros X1 Y1 X2 Y2. unfold azimuth_geographic.
  destruct (atan2_range (fsub (px p2) (px p1)) (fsub (py p2) (py p1)))
    as [a [Ha Ba]]; try (apply fsub_not_nan; assumption).
  rewrite Ha. destruct (degrees_range a Ba) as [g [Hg [G1 G2]]]. rewrite Hg.
  rewrite lit_360. unfold fadd. change (inject_Z 360) with 360.
  assert (Mx : 600 <= maxf) by (vm_compute; discriminate).
  destruct (rnd_bounded (g + 360)) as [Hs _].
  { apply Qabs_le_iff. lra. }
  rewrite Hs.
  assert (S1 : 180 <= round_q (g + 360)).
  { rewrite <- (round_q_Z 180) by (vm_compute; reflexivity).
    apply round_q_mono. change (inject_Z 180) with 180. lra. }
  destruct (float_rem_nonneg (round_q (g + 360)) 360) as [r [Hr [R1 R2]]]; [reflexivity | lra |].
  exists r. auto.
Qed.

End BearingFacts.

(** *** Rounding errors and the value of the bearing *)

(** The nearest integer is at most one half away. *)
Lemma rne_half (x : Q) : Qabs (inject_Z (rne x) - x) <= 1 # 2.
Proof.
  pose proof (Qfloor_le x) as L. pose proof (Qlt_floor x) as U.
  rewrite inject_Z_plus in U. change (inject_Z 1) with 1 in U.
  unfold rne. set (f := Qfloor x) in *.
  destruct (Qcompare (x - inject_Z f) (1 # 2)) eqn:C.
  - apply Qeq_alt in C. apply Qabs_le_iff.
    destruct (Z.even f); [|rewrite inject_Z_plus; change (inject_Z 1) with 1];
      split; lra.
  - apply Qlt_alt in C. apply Qabs_le_iff. split; lra.
  - apply Qgt_alt in C. apply Qabs_le_iff.
    rewrite inject_Z_plus. change (inject_Z 1) with 1. split; lra.
Qed.

Lemma ilog2_le (q : Q) (e : Z) : 0 < q -> q <= 2 ^ e -> (ilog2 q <= e)%Z.
Proof.
  intros Hq Hle. destruct (ilog2_spec q Hq) as [L _].
  destruct (Z_le_gt_dec (ilog2 q) e) as [Y|N]; [exact Y|exfalso].
  assert (T : 2 ^ e < 2 ^ ilog2 q) by (apply two_pow_lt; lia). lra.
Qed.

(** Rounding moves a value of magnitude up to [2 ^ e] by at most half a
    unit in the last place of that binade. *)
Lemma round_pos_error (q : Q) (e : Z) :
  0 < q -> q <= 2 ^ e -> (-1022 <= e)%Z ->
  Qabs (round_pos q - q) <= 2 ^ (e - 53).
Proof.
  intros Hq Hle He. rewrite round_pos_eq.
  set (c := cexp q).
  assert (Hc : (c <= e - 52)%Z).
  { unfold c, cexp. pose proof (ilog2_le q e Hq Hle). lia. }
  pose proof (two_pow_pos c) as Cpos.
  pose proof (rne_half (q / 2 ^ c)) as R. apply Qabs_le_iff in R. destruct R as [R1 R2].
  assert (E : q == (q / 2 ^ c) * 2 ^ c) by (field; lra).
  set (y := q / 2 ^ c) in *. set (n := inject_Z (rne y)) in *.
  assert (B : 2 ^ c <= 2 ^ (e - 52)) by (apply two_pow_le; exact Hc).
  assert (S : 2 ^ (e - 52) == 2 * 2 ^ (e - 53)).
  { rewrite <- two_pow_succ. replace (e - 53 + 1)%Z with (e - 52)%Z by lia. reflexivity. }
  apply Qabs_le_iff. split; nra.
Qed.

Lemma round_q_error (q : Q) (e : Z) :
  Qabs q <= 2 ^ e -> (-1022 <= e)%Z ->
  Qabs (round_q q - q) <= 2 ^ (e - 53).
Proof.
  intros Hq He. apply Qabs_le_iff in Hq. destruct Hq as [L U].
  pose proof (two_pow_pos (e - 53)) as P.
  destruct (Q_trichotomy q) as [[Neg|Z0]|Pos].
  - rewrite (round_q_neg q Neg).
    assert (E : Qabs (round_pos (- q) - - q) <= 2 ^ (e - 53))
      by (apply round_pos_error; [lra|lra|exact He]).
    apply Qabs_le_iff in E. destruct E as [E1 E2].
    rewrite Qred_correct. apply Qabs_le_iff. split; lra.
  - rewrite (round_q_zero q Z0). apply Qabs_le_iff. split; lra.
  - rewrite (round_q_pos q Pos). apply round_pos_error; [exact Pos|lra|exact He].
Qed.

Lemma float_rem_floor (s W : Q) :
  0 < W -> 0 <= s ->
  exists r, float_rem (Fin s) (Fin W) = Ok (Fin r) /\
            r == s - W * inject_Z (Qfloor (s / W)) /\ 0 <= r /\ r < W.
Proof.
  intros Wpos Hs. unfold float_rem. rewrite (feq_pos_zero W Wpos).
  unfold fmod. rewrite (Qeq_bool_pos_zero W Wpos).
  destruct (trunc_nonneg s W Wpos Hs) as [A [B C]].
  assert (T : Qtrunc (s / W) = Qfloor (s / W)).
  { apply Qfloor_trunc_nonneg. apply Qle_shift_div_l; lra. }
  rewrite T in *.
  set (m := Qred (s - W * inject_Z (Qfloor (s / W)))).
  assert (Em : m == s - W * inject_Z (Qfloor (s / W))) by apply Qred_correct.
  destruct (Qeq_dec m 0) as [M0|MN].
  - rewrite (truthy_Fin_false m M0). exists 0. split; [reflexivity|].
    split; [lra|]. split; lra.
  - rewrite (truthy_Fin_true m MN).
    rewrite (flt_Fin_false W 0), (flt_Fin_false m 0) by lra. cbn.
    exists m. split; [reflexivity|]. split; [exact Em|]. split; lra.
Qed.

(** [math.degrees] on [[-pi, pi]]: the product with the factor, off by at
    most [2 ^ -45]. *)
Lemma degrees_value (a : Q) :
  Qabs a <= pi_q ->
  exists g, degrees (Fin a) = Fin g /\ -180 <= g /\ g <= 180 /\
            Qabs (g - a * radToDeg_q) <= 2 ^ (-45).
Proof.
  intros H. destruct (degrees_range a H) as [g [Hg [G1 G2]]].
  exists g. split; [exact Hg|]. split; [exact G1|]. split; [exact G2|].
  apply Qabs_le_iff in H. destruct H as [L U].
  revert Hg. unfold degrees. rewrite radToDeg_eq. unfold fmul.
  assert (Rpos : 0 < radToDeg_q) by (vm_compute; reflexivity).
  assert (P : pi_q * radToDeg_q <= 181) by (vm_compute; discriminate).
  assert (Mx : 181 <= maxf) by (vm_compute; discriminate).
  assert (X1 : a * radToDeg_q <= pi_q * radToDeg_q) by (apply Qmult_le_compat_r; lra).
  assert (X2 : - (pi_q * radToDeg_q) <= a * radToDeg_q).
  { assert (- pi_q * radToDeg_q <= a * radToDeg_q) by (apply Qmult_le_compat_r; lra). lra. }
  destruct (rnd_bounded (a * radToDeg_q)) as [Hr _].
  { apply Qabs_le_iff. lra. }
  rewrite Hr. intros [= <-].
  apply (round_q_error (a * radToDeg_q) 8); [|lia].
  apply Qabs_le_iff. change (2 ^ 8) with 256. lra.
Qed.

Section BearingValue.

Variable atan2 : float -> float -> float.

Hypothesis atan2_range :
  forall dx dy, is_nan dx = false -> is_nan dy = false ->
  exists a, atan2 dx dy = Fin a /\ Qabs a <= pi_q.

(** The bearing is the angle of [atan2] in degrees, turned into
    [[0, 360)] by a whole turn at most, off by at most [2 ^ -42]. *)
Lemma azimuth_geographic_value (p1 p2 : point) :
  is_finite (px p1) = true -> is_finite (py p1) = true ->
  is_finite (px p2) = true -> is_finite (py p2) = true ->
  exists (a b : Q) (k : Z),
    atan2 (fsub (px p2) (px p1)) (fsub (py p2) (py p1)) = Fin a /\
    Qabs a <= pi_q /\
    azimuth_geographic atan2 p1 p2 = Ok (Fin b) /\
    0 <= b /\ b < 360 /\
    (k = 0 \/ k = 1)%Z /\
    Qabs (b - (a * radToDeg_q + 360 * inject_Z k)) <= 2 ^ (-42).
Proof.
  intros X1 Y1 X2 Y2. unfold azimuth_geographic.
  destruct (atan2_range (fsub (px p2) (px p1)) (fsub (py p2) (py p1)))
    as [a [Ha Ba]]; try (apply fsub_not_nan; assumption).
  rewrite Ha. destruct (degrees_value a Ba) as [g [Hg [G1 [G2 G3]]]]. rewrite Hg.
  rewrite lit_360. unfold fadd. change (inject_Z 360) with 360.
  assert (Mx : 600 <= maxf) by (vm_compute; discriminate).
  destruct (rnd_bounded (g + 360)) as [Hs _].
  { apply Qabs_le_iff. lra. }
  rewrite Hs.
  assert (S1 : 180 <= round_q (g + 360)).
  { rewrite <- (round_q_Z 180) by (vm_compute; reflexivity).
    apply round_q_mono. change (inject_Z 180) with 180. lra. }
  assert (S2 : round_q (g + 360) <= 540).
  { rewrite <- (round_q_Z 540) by (vm_compute; reflexivity).
    apply round_q_mono. change (inject_Z 540) with 540. lra. }
  assert (S3 : Qabs (round_q (g + 360) - (g + 360)) <= 2 ^ (-43)).
  { apply (round_q_error (g + 360) 10); [|lia].
    apply Qabs_le_iff. change (2 ^ 10) with 1024. lra. }
  set (s := round_q (g + 360)) in *.
  destruct (float_rem_floor s 360) as [r [Hr [Er [R1 R2]]]]; [reflexivity | lra |].
  apply Qabs_le_iff in G3, S3. destruct G3 as [G3 G4]. destruct S3 as [S3 S4].
  assert (P42 : 2 ^ (-42) == 4 * 2 ^ (-44)) by reflexivity.
  assert (P43 : 2 ^ (-43) == 2 * 2 ^ (-44)) by reflexivity.
  assert (P45 : 2 * 2 ^ (-45) == 2 ^ (-44)) by reflexivity.
  assert (P44 : 0 < 2 ^ (-44)) by reflexivity.
  destruct (Qlt_le_dec s 360) as [Lt|Ge].
  - assert (F : Qfloor (s / 360) = 0%Z).
    { apply Qfloor_unique.
      - apply Qle_shift_div_l; [reflexivity|]. change (inject_Z 0) with 0. lra.
      - apply Qlt_shift_div_r; [reflexivity|]. change (inject_Z 0) with 0. lra. }
    rewrite F in Er. change (inject_Z 0) with 0 in Er.
    exists a, r, 1%Z. rewrite Hr. change (inject_Z 1) with 1.
    repeat split; try assumption; [right; reflexivity|].
    apply Qabs_le_iff. split; lra.
  - assert (F : Qfloor (s / 360) = 1%Z).
    { apply Qfloor_unique.
      - apply Qle_shift_div_l; [reflexivity|]. change (inject_Z 1) with 1. lra.
      - apply Qlt_shift_div_r; [reflexivity|]. change (inject_Z 1) with 1. lra. }
    rewrite F in Er. change (inject_Z 1) with 1 in Er.
    exists a, r, 0%Z. rewrite Hr. change (inject_Z 0) with 0.
    repeat split; try assumption; [left; reflexivity|].
    apply Qabs_le_iff. split; lra.
Qed.

End BearingValue.

(** The factor of [math.degrees] is [180 / pi] to thirteen places. *)
Lemma radToDeg_close : Qabs (radToDeg_q - 180 / 3.141592653589793) <= 1 # 10 ^ 13.
Proof. vm_compute. discriminate. Qed.

(** *** Periodicity of the label *)

Lemma inject_Z_sub (a b : Z) : inject_Z (a - b) == inject_Z a - inject_Z b.
Proof. unfold Z.sub. rewrite inject_Z_plus, inject_Z_opp. ring. Qed.

(** [x % 360]: the exact remainder [z] in [[0, 360)], which a negative
    [x] gets through a rounded sum. *)
Lemma float_rem_360 (x : Q) :
  exists (r z : Q) (q : Z),
    float_rem (Fin x) (lit 360) = Ok (Fin r) /\
    z == x - 360 * inject_Z q /\ 0 <= z /\ z < 360 /\
    (r == z \/ r = round_q z).
Proof.
  rewrite lit_360. change (inject_Z 360) with 360.
  destruct (Qlt_le_dec x 0) as [Neg|Pos].
  - unfold float_rem. rewrite (feq_pos_zero 360) by reflexivity.
    unfold fmod. rewrite (Qeq_bool_pos_zero 360) by reflexivity.
    destruct (trunc_neg x 360 eq_refl Neg) as [A [B C]].
    set (t := Qtrunc (x / 360)) in *.
    set (m := Qred (x - 360 * inject_Z t)).
    assert (Em : m == x - 360 * inject_Z t) by apply Qred_correct.
    destruct (Qeq_dec m 0) as [M0|MN].
    + rewrite (truthy_Fin_false m M0).
      exists 0, 0, t. split; [reflexivity|]. split; [lra|]. split; [lra|].
      split; [reflexivity|]. left. reflexivity.
    + rewrite (truthy_Fin_true m MN).
      rewrite (flt_Fin_false 360 0) by lra.
      rewrite (flt_Fin_true m 0) by lra. cbn [Bool.eqb negb].
      unfold fadd.
      assert (Mx : 600 <= maxf) by (vm_compute; discriminate).
      destruct (rnd_bounded (m + 360)) as [Hr _].
      { apply Qabs_le_iff. lra. }
      rewrite Hr.
      exists (round_q (m + 360)), (m + 360), (t - 1)%Z.
      split; [reflexivity|]. split.
      { rewrite inject_Z_sub. change (inject_Z 1) with 1. lra. }
      split; [lra|]. split; [lra|]. right. reflexivity.
  - destruct (float_rem_floor x 360 eq_refl Pos) as [r [Hr [Er [R1 R2]]]].
    exists r, r, (Qfloor (x / 360)). split; [exact Hr|]. split; [exact Er|].
    split; [exact R1|]. split; [exact R2|]. left. reflexivity.
Qed.

(** Rounding does not go below a double. *)
Lemma round_q_above (y : Q) (m k : Z) :
  (Z.abs m < 2 ^ 53)%Z -> (-1074 <= k)%Z ->
  inject_Z m * 2 ^ k <= y -> inject_Z m * 2 ^ k <= round_q y.
Proof.
  intros Hm Hk H.
  pose proof (round_q_exact (inject_Z m * 2 ^ k) m k (Qeq_refl _) Hm Hk) as E.
  apply Qle_trans with (round_q (inject_Z m * 2 ^ k)).
  - rewrite E. apply Qle_refl.
  - apply round_q_mono. exact H.
Qed.

Lemma round_q_below (y : Q) (m k : Z) :
  (Z.abs m < 2 ^ 53)%Z -> (-1074 <= k)%Z ->
  y <= inject_Z m * 2 ^ k -> round_q y <= inject_Z m * 2 ^ k.
Proof.
  intros Hm Hk H.
  pose proof (round_q_exact (inject_Z m * 2 ^ k) m k (Qeq_refl _) Hm Hk) as E.
  apply Qle_trans with (round_q (inject_Z m * 2 ^ k)).
  - apply round_q_mono. exact H.
  - rewrite E. apply Qle_refl.
Qed.

(** The label of a bearing whose rounded sum lies in sector [j]. *)
Lemma azimuth_to_dir_sector (x : Q) (j : Z) :
  Qabs x <= inject_Z (2 ^ 51) ->
  45 * inject_Z j <= round_q (x + (45 # 2)) ->
  round_q (x + (45 # 2)) < 45 * inject_Z j + 45 ->
  azimuth_to_dir (Fin x) = list_index dirs8 (j mod 8).
Proof.
  intros Hx L U. destruct (azimuth_to_dir_rule_q x Hx) as [_ R]. rewrite R.
  do 2 f_equal. apply Qfloor_unique.
  - apply Qle_shift_div_l; [reflexivity|]. lra.
  - apply Qlt_shift_div_r; [reflexivity|]. lra.
Qed.

Lemma Z_between (j a b : Z) :
  inject_Z a < inject_Z j + 1 -> inject_Z j <= inject_Z b -> (a <= j <= b)%Z.
Proof.
  intros L U. split.
  - assert (T : (a - 1 < j)%Z).
    { rewrite Zlt_Qlt, inject_Z_sub. change (inject_Z 1) with 1. lra. }
    lia.
  - rewrite Zle_Qle. exact U.
Qed.

Lemma mod8_shift (j q : Z) : ((j - 8 * q) mod 8 = j mod 8)%Z.
Proof.
  replace (j - 8 * q)%Z with (j + (- q) * 8)%Z by lia. apply Z_mod_plus_full.
Qed.

(** A bearing that stays [2 ^ -20] below the next sector edge has the
    label of its sector, and so has its reduction. *)
Lemma azimuth_to_dir_periodic_below_edge (x : Q) (j : Z) :
  Qabs x <= 2 ^ 31 ->
  45 * inject_Z j <= x + 22.5 ->
  x + 22.5 <= 45 * inject_Z j + 45 - 2 ^ (-20) ->
  exists r, float_rem (Fin x) (lit 360) = Ok (Fin r) /\
            azimuth_to_dir (Fin r) = list_index dirs8 (j mod 8) /\
            azimuth_to_dir (Fin x) = list_index dirs8 (j mod 8).
Proof.
  intros Hx L U. apply Qabs_le_iff in Hx. destruct Hx as [X1 X2].
  change (2 ^ 31) with 2147483648 in X1, X2.
  assert (P20 : 2 ^ (-20) == 2 * 2 ^ (-21)) by reflexivity.
  assert (P21 : 0 < 2 ^ (-21)) by reflexivity.
  assert (P43 : 2 ^ (-21) == 4194304 * 2 ^ (-43)) by reflexivity.
  assert (P44 : 2 * 2 ^ (-44) == 2 ^ (-43)) by reflexivity.
  assert (P44' : 0 < 2 ^ (-44)) by reflexivity.
  (* the bearing itself *)
  assert (Jz : (-47721859 <= j <= 47721860)%Z).
  { apply Z_between.
    - change (inject_Z (-47721859)) with (-47721859). lra.
    - change (inject_Z 47721860) with 47721860. lra. }
  assert (Ex : azimuth_to_dir (Fin x) = list_index dirs8 (j mod 8)).
  { apply azimuth_to_dir_sector.
    - apply Qabs_le_iff. change (inject_Z (2 ^ 51)) with 2251799813685248. split; lra.
    - assert (E : 45 * inject_Z j == inject_Z (45 * j) * 2 ^ 0).
      { rewrite inject_Z_mult. change (inject_Z 45) with 45. change (2 ^ 0) with 1. ring. }
      rewrite E. apply round_q_above; [lia|lia|]. rewrite <- E. lra.
    - pose proof (round_q_error (x + (45 # 2)) 32) as Er.
      assert (H32 : Qabs (x + (45 # 2)) <= 2 ^ 32).
      { apply Qabs_le_iff. change (2 ^ 32) with 4294967296. split; lra. }
      specialize (Er H32 ltac:(lia)). change (32 - 53)%Z with (-21)%Z in Er.
      apply Qabs_le_iff in Er. lra. }
  (* its reduction *)
  destruct (float_rem_360 x) as (r & z & q & Hr & Ez & Z0 & Z1 & Hrz).
  exists r. split; [exact Hr|]. split; [|exact Ex].
  rewrite <- (mod8_shift j q).
  set (J := (j - 8 * q)%Z).
  assert (EJ : inject_Z J == inject_Z j - 8 * inject_Z q).
  { unfold J. rewrite inject_Z_sub, inject_Z_mult.
    change (inject_Z 8) with 8. ring. }
  assert (Jr : (0 <= J <= 9)%Z).
  { apply Z_between.
    - change (inject_Z 0) with 0. lra.
    - change (inject_Z 9) with 9. lra. }
  assert (C1 : 45 * inject_Z J == inject_Z (45 * J) * 2 ^ 0).
  { rewrite inject_Z_mult. change (inject_Z 45) with 45. change (2 ^ 0) with 1. ring. }
  assert (C2 : 45 * inject_Z J - (45 # 2) == inject_Z (90 * J - 45) * 2 ^ (-1)).
  { rewrite inject_Z_sub, inject_Z_mult.
    change (inject_Z 90) with 90. change (inject_Z 45) with 45.
    change (2 ^ (-1)) with (1 # 2). ring. }
  assert (Rb : 45 * inject_Z J - (45 # 2) <= r /\ r <= z + 2 ^ (-44) /\ 0 <= r /\ r <= 360).
  { destruct Hrz as [E| ->].
    - rewrite E. repeat split; lra.
    - split; [|split; [|split]].
      + rewrite C2. apply round_q_above; [lia|lia|]. rewrite <- C2. lra.
      + pose proof (round_q_error z 9) as Er.
        assert (H9 : Qabs z <= 2 ^ 9).
        { apply Qabs_le_iff. change (2 ^ 9) with 512. split; lra. }
        specialize (Er H9 ltac:(lia)). change (9 - 53)%Z with (-44)%Z in Er.
        apply Qabs_le_iff in Er. lra.
      + apply round_q_nonneg. exact Z0.
      + assert (T : round_q z <= inject_Z 360 * 2 ^ 0).
        { apply round_q_below; [lia|lia|]. change (inject_Z 360 * 2 ^ 0) with 360. lra. }
        exact T. }
  destruct Rb as (R1 & R2 & R3 & R4).
  apply azimuth_to_dir_sector.
  - apply Qabs_le_iff. change (inject_Z (2 ^ 51)) with 2251799813685248. split; lra.
  - rewrite C1. apply round_q_above; [lia|lia|]. rewrite <- C1. lra.
  - pose proof (round_q_error (r + (45 # 2)) 9) as Er.
    assert (H9 : Qabs (r + (45 # 2)) <= 2 ^ 9).
    { apply Qabs_le_iff. change (2 ^ 9) with 512. split; lra. }
    specialize (Er H9 ltac:(lia)). change (9 - 53)%Z with (-44)%Z in Er.
    apply Qabs_le_iff in Er. lra.
Qed.

(** A bearing with few binary places: no sum is rounded, and the label of
    the reduction is the label of the bearing. *)
Lemma azimuth_to_dir_periodic_dyadic (x : Q) (n k : Z) :
  (0 <= k <= 43)%Z -> (Z.abs n <= 2 ^ 50)%Z -> x == inject_Z n / 2 ^ k ->
  exists r, float_rem (Fin x) (lit 360) = Ok (Fin r) /\
            azimuth_to_dir (Fin r) = azimuth_to_dir (Fin x).
Proof.
  intros Hk Hn Ex.
  set (T := (2 ^ k)%Z).
  assert (Tpos : (0 < T)%Z) by (apply Z.pow_pos_nonneg; lia).
  assert (Tle : (T <= 2 ^ 43)%Z) by (apply Z.pow_le_mono_r; lia).
  assert (ET : inject_Z T == 2 ^ k) by (apply two_pow_Z; lia).
  pose proof (two_pow_pos k) as Upos.
  assert (Eh : 2 ^ (- (k + 1)) == / (2 * 2 ^ k)).
  { rewrite Qpower_opp, two_pow_succ. reflexivity. }
  set (U := 2 ^ k) in *. set (N := inject_Z n) in *.
  assert (NB : - 1125899906842624 <= N /\ N <= 1125899906842624).
  { unfold N. split.
    - change (- 1125899906842624) with (inject_Z (- 2 ^ 50)). rewrite <- Zle_Qle. lia.
    - change 1125899906842624 with (inject_Z (2 ^ 50)). rewrite <- Zle_Qle. lia. }
  assert (U1 : 1 <= U).
  { unfold U. change 1 with (2 ^ 0). apply two_pow_le. lia. }
  assert (XB : - 1125899906842624 <= x /\ x <= 1125899906842624).
  { assert (E : x * U == N) by (rewrite Ex; field; lra).
    split; nra. }
  (* the bearing: its sum is a double *)
  set (y := x + (45 # 2)).
  assert (Ey : y == inject_Z (2 * n + 45 * T) * 2 ^ (- (k + 1))).
  { unfold y. rewrite Eh, inject_Z_plus, !inject_Z_mult, ET, Ex. fold N.
    change (inject_Z 2) with 2. change (inject_Z 45) with 45. field. lra. }
  assert (Ry : round_q y == y).
  { apply (round_q_exact y (2 * n + 45 * T) (- (k + 1))); [exact Ey|lia|lia]. }
  set (j := Qfloor (y / 45)).
  assert (Jb : 45 * inject_Z j <= y /\ y < 45 * inject_Z j + 45).
  { pose proof (Qfloor_le (y / 45)) as F1. pose proof (Qlt_floor (y / 45)) as F2.
    fold j in F1, F2. rewrite inject_Z_plus in F2. change (inject_Z 1) with 1 in F2.
    assert (E : y == 45 * (y / 45)) by (field; lra).
    set (t := y / 45) in *. split; lra. }
  destruct Jb as [J1 J2].
  assert (Lx : azimuth_to_dir (Fin x) = list_index dirs8 (j mod 8)).
  { apply azimuth_to_dir_sector.
    - apply Qabs_le_iff. change (inject_Z (2 ^ 51)) with 2251799813685248. split; lra.
    - fold y. rewrite Ry. exact J1.
    - fold y. rewrite Ry. exact J2. }
  (* the reduction: the remainder is a double, and so is its sum *)
  destruct (float_rem_360 x) as (r & z & q & Hr & Ez & Z0 & Z1 & Hrz).
  exists r. split; [exact Hr|]. rewrite Lx, <- (mod8_shift j q).
  set (m := (n - 360 * q * T)%Z).
  assert (Em : inject_Z m == N - 360 * inject_Z q * U).
  { unfold m. rewrite inject_Z_sub, !inject_Z_mult, ET.
    change (inject_Z 360) with 360. reflexivity. }
  assert (Zm : z * U == inject_Z m).
  { rewrite Em, Ez, Ex. fold N. field. lra. }
  assert (Mb : (0 <= m < 360 * T)%Z).
  { split.
    - rewrite Zle_Qle. change (inject_Z 0) with 0. rewrite <- Zm. nra.
    - rewrite Zlt_Qlt, inject_Z_mult, ET. change (inject_Z 360) with 360.
      fold U. rewrite <- Zm. nra. }
  assert (Ez' : z == inject_Z m * 2 ^ (- k)).
  { rewrite Qpower_opp. fold U. rewrite <- Zm. field. lra. }
  assert (Rz : round_q z == z).
  { apply (round_q_exact z m (- k)); [exact Ez'|lia|lia]. }
  assert (Erz : r == z).
  { destruct Hrz as [E| ->]; [exact E|exact Rz]. }
  set (J := (j - 8 * q)%Z).
  assert (EJ : inject_Z J == inject_Z j - 8 * inject_Z q).
  { unfold J. rewrite inject_Z_sub, inject_Z_mult. change (inject_Z 8) with 8. ring. }
  set (y' := r + (45 # 2)).
  assert (Ey' : y' == inject_Z (2 * m + 45 * T) * 2 ^ (- (k + 1))).
  { unfold y'. rewrite Eh, inject_Z_plus, !inject_Z_mult, ET, Erz, <- Zm. fold U.
    change (inject_Z 2) with 2. change (inject_Z 45) with 45. field. lra. }
  assert (Ry' : round_q y' == y').
  { apply (round_q_exact y' (2 * m + 45 * T) (- (k + 1))); [exact Ey'|lia|lia]. }
  apply azimuth_to_dir_sector.
  - apply Qabs_le_iff. change (inject_Z (2 ^ 51)) with 2251799813685248. split; lra.
  - fold y'. rewrite Ry'. unfold y', y in *. lra.
  - fold y'. rewrite Ry'. unfold y', y in *. lra.
Qed.

End PyFloatFacts.

(* ===================================================================== *)
(** ** Agreement with the machine's doubles *)
(* ===================================================================== *)

Local Set Warnings "-inexact-float".

(** The rounding model gives what the hardware gives on the values that
    the examples below turn on: decimal literals, the sum and the quotient
    of [azimuth_to_dir], the factor and the product of [math.degrees], and
    the sum that [%] rounds at the sector edge. *)
Example same_double_examples :
  same_double 22.4%float (lit 22.4) = true /\
  same_double (-22.500000000000004)%float (lit (-22.500000000000004)) = true /\
  same_double (22.6 + 22.5)%float (fadd (lit 22.6) (lit 22.5)) = true /\
  same_double ((359.9 + 22.5) / 45)%float
    (fdiv (fadd (lit 359.9) (lit 22.5)) (lit 45)) = true /\
  same_double (180 / 3.141592653589793)%float radToDeg = true /\
  same_double (3.141592653589793 * (180 / 3.141592653589793))%float (degrees pi) = true /\
  same_double (-22.500000000000004 + 360)%float
    (fadd (lit (-22.500000000000004)) (lit 360)) = true /\
  same_double (337.5)%float (fadd (lit (-22.500000000000004)) (lit 360)) = true.
Proof. repeat split; vm_compute; reflexivity. Qed.

(** The same for the sum that [azimuth_to_dir] rounds just below 1012.5
    and for the exact remainder of that bearing. *)
Example late_edge_same_double :
  same_double 1012.4999999999999%float late_edge_bearing = true /\
  same_double (1012.4999999999999 + 22.5)%float
    (fadd late_edge_bearing (lit 22.5)) = true /\
  same_double 1035%float (fadd late_edge_bearing (lit 22.5)) = true /\
  same_double 292.4999999999999%float (lit 292.4999999999999) = true.
Proof. repeat split; vm_compute; reflexivity. Qed.

(* ===================================================================== *)
(** ** The bearing label ([azimuth_to_dir]) *)
(* ===================================================================== *)

(** C3. The label is entry [floor((deg + 22.5) / 45) mod 8] of the list
    N, NE, E, SE, S, SW, W, NW, where [deg + 22.5] is the double sum: on
    bearings of magnitude up to [2 ^ 51] the floor division that CPython
    performs is the floor of the exact quotient.  In particular 0 and
    22.4 give N, 22.6 gives NE, 67.5 gives E and 359.9 gives N; the
    eight compass points 0, 45, ..., 315 give the eight labels in turn,
    and the sector of N closes at 337.5. *)
Theorem azimuth_to_dir_sector_rule :
  (forall d : Q, (Qabs d <= inject_Z (2 ^ 51))%Q ->
     exists s : Q,
       fadd (Fin d) (lit 22.5) = Fin s /\
       azimuth_to_dir (Fin d)
       = list_index ["N"; "NE"; "E"; "SE"; "S"; "SW"; "W"; "NW"]
           (Qfloor (s / 45) mod 8)) /\
  (azimuth_to_dir (lit 0) = Ok "N" /\
   azimuth_to_dir (lit 22.4) = Ok "N" /\
   azimuth_to_dir (lit 22.6) = Ok "NE" /\
   azimuth_to_dir (lit 67.5) = Ok "E" /\
   azimuth_to_dir (lit 359.9) = Ok "N") /\
  map azimuth_to_dir [lit 0; lit 45; lit 90; lit 135; lit 180; lit 225; lit 270; lit 315]
  = map Ok ["N"; "NE"; "E"; "SE"; "S"; "SW"; "W"; "NW"] /\
  map azimuth_to_dir
    [lit 22.5; lit 67.4; lit 112.5; lit 157.5; lit 202.5; lit 247.5; lit 292.5;
     lit 337.4; lit 337.5]
  = map Ok ["NE"; "NE"; "SE"; "S"; "SW"; "W"; "NW"; "NW"; "N"].
Proof.
  split.
  - intros d Hd. exists (round_q (d + (45 # 2))).
    apply PyFloatFacts.azimuth_to_dir_rule_q. exact Hd.
  - repeat split; vm_compute; reflexivity.
Qed.

(** C10, as stated, fails: [edge_bearing] is a finite double that maps to
    NW, while its reduction [edge_bearing % 360] is rounded to 337.5, which
    maps to N. *)
Lemma azimuth_to_dir_not_periodic :
  is_finite edge_bearing = true /\
  is_double edge_bearing = true /\
  azimuth_to_dir edge_bearing = Ok "NW" /\
  float_rem edge_bearing (lit 360) = Ok (lit 337.5) /\
  azimuth_to_dir (lit 337.5) = Ok "N".
Proof. repeat split; vm_compute; reflexivity. Qed.

(** The sum [deg + 22.5] is rounded as well: [late_edge_bearing] is a
    double above 360 whose reduction is exact, the double
    [292.4999999999999], with the label W; its own sum rounds up to the
    edge 1035, which gives NW. *)
Example azimuth_to_dir_not_periodic_above_360 :
  is_double late_edge_bearing = true /\
  fadd late_edge_bearing (lit 22.5) = lit 1035 /\
  azimuth_to_dir late_edge_bearing = Ok "NW" /\
  float_rem late_edge_bearing (lit 360) = Ok (lit 292.4999999999999) /\
  azimuth_to_dir (lit 292.4999999999999) = Ok "W".
Proof. repeat split; vm_compute; reflexivity. Qed.

(** C10, amended. On every finite double [azimuth_to_dir] returns one of
    the eight labels.  It is 360-periodic, the label of [deg] being the
    label of [deg % 360], wherever no sum is rounded up to a sector
    edge: on every bearing with few binary places, [n / 2 ^ k] with [n]
    up to [2 ^ 50] and [k] up to 43, whole and half degrees among them,
    and on every bearing of magnitude up to [2 ^ 31] that stays
    [2 ^ -20] below the next sector edge, where the label is entry
    [j mod 8] of the list for the sector [j] of the bearing. *)
Theorem azimuth_to_dir_total_and_periodic (x : Q) :
  is_double (Fin x) = true ->
  (exists l, azimuth_to_dir (Fin x) = Ok l /\ In l dirs8) /\
  (forall n k : Z, (0 <= k <= 43)%Z -> (Z.abs n <= 2 ^ 50)%Z ->
     (x == inject_Z n / 2 ^ k)%Q ->
     exists r, float_rem (Fin x) (lit 360) = Ok (Fin r) /\
               azimuth_to_dir (Fin r) = azimuth_to_dir (Fin x)) /\
  (forall j : Z, (Qabs x <= 2 ^ 31)%Q ->
     (45 * inject_Z j <= x + 22.5)%Q ->
     (x + 22.5 <= 45 * inject_Z j + 45 - 2 ^ (-20))%Q ->
     exists r, float_rem (Fin x) (lit 360) = Ok (Fin r) /\
               azimuth_to_dir (Fin r) = azimuth_to_dir (Fin x) /\
               azimuth_to_dir (Fin x)
               = list_index ["N"; "NE"; "E"; "SE"; "S"; "SW"; "W"; "NW"] (j mod 8)).
Proof.
  intros Hd. split; [|split].
  - apply PyFloatFacts.azimuth_to_dir_total.
    cbn in Hd. unfold representable in Hd.
    apply andb_true_iff in Hd. destruct Hd as [_ Hd].
    apply Qle_bool_iff. exact Hd.
  - intros n k Hk Hn E.
    exact (PyFloatFacts.azimuth_to_dir_periodic_dyadic x n k Hk Hn E).
  - intros j Hx L U.
    destruct (PyFloatFacts.azimuth_to_dir_periodic_below_edge x j Hx L U)
      as (r & Hr & Er & Ex).
    exists r. split; [exact Hr|]. split; [|exact Ex]. rewrite Er, Ex. reflexivity.
Qed.

(** The examples: -30 and 330 both give NW, and 330 is [-30 % 360];
    382.5 and 22.5 both give NE, -359.5 and 0.5 both give N, and 400.1
    gives NE as its reduction does. *)
Example minus_30_is_north_west :
  azimuth_to_dir (lit (-30)) = Ok "NW" /\
  azimuth_to_dir (lit 330) = Ok "NW" /\
  float_rem (lit (-30)) (lit 360) = Ok (lit 330) /\
  azimuth_to_dir (lit 382.5) = Ok "NE" /\
  float_rem (lit 382.5) (lit 360) = Ok (lit 22.5) /\
  azimuth_to_dir (lit 22.5) = Ok "NE" /\
  azimuth_to_dir (lit (-359.5)) = Ok "N" /\
  float_rem (lit (-359.5)) (lit 360) = Ok (lit 0.5) /\
  azimuth_to_dir (lit 0.5) = Ok "N" /\
  azimuth_to_dir (lit 400.1) = Ok "NE" /\
  match float_rem (lit 400.1) (lit 360) with
  | Ok r => azimuth_to_dir r = Ok "NE"
  | Raise _ => False
  end.
Proof. repeat split; vm_compute; reflexivity. Qed.

(** The bearing -30: a whole degree, in the sector [j = -1], whose
    label is entry 7 of the list. *)
Lemma azimuth_to_dir_minus_30 :
  (exists l, azimuth_to_dir (Fin (-30)) = Ok l /\ In l dirs8) /\
  (forall n k : Z, (0 <= k <= 43)%Z -> (Z.abs n <= 2 ^ 50)%Z ->
     (-30 == inject_Z n / 2 ^ k)%Q ->
     exists r, float_rem (Fin (-30)) (lit 360) = Ok (Fin r) /\
               azimuth_to_dir (Fin r) = azimuth_to_dir (Fin (-30))) /\
  (forall j : Z, (Qabs (-30) <= 2 ^ 31)%Q ->
     (45 * inject_Z j <= -30 + 22.5)%Q ->
     (-30 + 22.5 <= 45 * inject_Z j + 45 - 2 ^ (-20))%Q ->
     exists r, float_rem (Fin (-30)) (lit 360) = Ok (Fin r) /\
               azimuth_to_dir (Fin r) = azimuth_to_dir (Fin (-30)) /\
               azimuth_to_dir (Fin (-30))
               = list_index ["N"; "NE"; "E"; "SE"; "S"; "SW"; "W"; "NW"] (j mod 8)).
Proof.
  apply (azimuth_to_dir_total_and_periodic (-30)%Q). vm_compute. reflexivity.
Defined.

(* ===================================================================== *)
(** ** The bearing in degrees ([azimuth_geographic]) *)
(* ===================================================================== *)

Lemma atan2_in_range_Q (f : float -> float -> float) :
  atan2_in_range f ->
  forall dx dy, is_nan dx = false -> is_nan dy = false ->
  exists a, f dx dy = Fin a /\ (Qabs a <= pi_q)%Q.
Proof.
  intros R dx dy Hx Hy. specialize (R dx dy Hx Hy).
  apply andb_true_iff in R. destruct R as [L U].
  rewrite PyFloatFacts.pi_eq in L, U.
  destruct (f dx dy) as [| s | a]; try discriminate.
  - cbn in L, U. destruct s; discriminate.
  - exists a. split; [reflexivity|].
    cbn in L, U. apply Qle_bool_iff in L, U. rewrite Qred_correct in L.
    apply PyFloatFacts.Qabs_le_iff. split; assumption.
Qed.

Lemma azimuth_geographic_on_axes
    (f : float -> float -> float) (h : heading) (p1 p2 : point) :
  atan2_on_axes f ->
  heads h (fsub (px p2) (px p1)) (fsub (py p2) (py p1)) ->
  azimuth_geographic f p1 p2 = Ok (Fin (heading_degrees h)).
Proof.
  intros Hf [a [Ha Hh]]. destruct (Hf a Ha) as (F1 & F2 & F3 & F4).
  unfold azimuth_geographic.
  destruct h; destruct Hh as [-> ->];
    rewrite ?F1, ?F2, ?F3, ?F4; vm_compute; reflexivity.
Qed.

(** C2. For a candidate whose nearest boundary point is [P], the bearing
    is a double in [[0, 360)].  It is the angle [a] that [atan2] returns
    for [(P.x - centroid.x, P.y - centroid.y)], the easting first,
    converted to degrees and brought into the range by a whole turn at
    most: it differs from [a * 180 / pi], or from that plus 360, by less
    than [10 ^ -12].  With an [atan2] that is exact on the half-axes a
    point due north, east, south or west of the centroid has bearing 0,
    90, 180 or 270: 0 is north and the bearing grows clockwise.  The
    candidate carries this bearing, rounded to two places, and its
    label. *)
Theorem bearing_degrees_range
    (geometry : Type) (lib : GeoLib geometry)
    (app_union geom : geometry) (pts : point * point) :
  atan2_in_range atan2 ->
  nearest_points geom (boundary app_union) = Ok pts ->
  finite_point (centroid app_union) = true ->
  finite_point (snd pts) = true ->
  let c := centroid app_union in
  let P := snd pts in
  let dx := fsub (px P) (px c) in
  let dy := fsub (py P) (py c) in
  exists (a b : Q) (k : Z) (dir : string),
    atan2 dx dy = Fin a /\
    azimuth_geographic atan2 c P = Ok (Fin b) /\
    (0 <= b)%Q /\ (b < 360)%Q /\
    (k = 0 \/ k = 1)%Z /\
    (Qabs (b - (a * (180 / 3.141592653589793) + 360 * inject_Z k)) <= 1 # 10 ^ 12)%Q /\
    (atan2_on_axes atan2 -> forall h, heads h dx dy -> b = heading_degrees h) /\
    candidate_metrics app_union c geom = Ok (distance geom P, round2 (Fin b), dir).
Proof.
  intros R Hn Hc HP c P dx dy.
  apply andb_true_iff in Hc, HP. destruct Hc as [Cx Cy]. destruct HP as [Px Py].
  destruct (PyFloatFacts.azimuth_geographic_value atan2 (atan2_in_range_Q _ R) c P)
    as (a & b & k & Ha & Ba & Hb & B0 & B1 & Hk & Hv); try assumption.
  assert (Bm : (Qabs b <= maxf)%Q).
  { assert (M : (360 <= maxf)%Q) by (vm_compute; discriminate).
    apply PyFloatFacts.Qabs_le_iff. split; lra. }
  destruct (PyFloatFacts.azimuth_to_dir_total b Bm) as [dir [Hdir _]].
  exists a, b, k, dir.
  split; [exact Ha|]. split; [exact Hb|]. split; [exact B0|]. split; [exact B1|].
  split; [exact Hk|]. split; [|split].
  - pose proof PyFloatFacts.radToDeg_close as C.
    apply PyFloatFacts.Qabs_le_iff in C, Hv, Ba. destruct C as [C1 C2].
    destruct Hv as [V1 V2]. destruct Ba as [A1 A2].
    assert (P4 : (pi_q <= 4)%Q) by (vm_compute; discriminate).
    set (D := (180 / 3.141592653589793)%Q) in *.
    set (e := (1 # 10 ^ 13)%Q) in *.
    set (u := (2 ^ (-42))%Q) in *.
    assert (E42 : (u <= 3 * e)%Q) by (vm_compute; discriminate).
    assert (Epos : (0 < e)%Q) by reflexivity.
    assert (Ee : (1 # 10 ^ 12 == 10 * e)%Q) by reflexivity.
    rewrite Ee. clearbody D e u.
    assert (X1 : (a * (radToDeg_q - D) <= 4 * e)%Q) by nra.
    assert (X2 : (- (4 * e) <= a * (radToDeg_q - D))%Q) by nra.
    apply PyFloatFacts.Qabs_le_iff. split; lra.
  - intros Hax h Hh.
    pose proof (azimuth_geographic_on_axes atan2 h c P Hax Hh) as E.
    rewrite Hb in E. injection E as E. exact E.
  - unfold candidate_metrics. rewrite Hn. cbn [bind]. fold P. fold c.
    rewrite Hb. cbn [bind]. rewrite Hdir. reflexivity.
Qed.

(** The [atan2] of the box world keeps the contract. *)
Lemma atan8_in_range : atan2_in_range BoxWorld.atan8.
Proof.
  intros dx dy Hx Hy. unfold BoxWorld.atan8. rewrite Hx, Hy. cbn [orb].
  destruct (BoxWorld.sign dx), (BoxWorld.sign dy); vm_compute; reflexivity.
Qed.

(** A station south-west of the unit-kilometre square of the worked
    example: the nearest boundary point is the corner (-500, -500). *)
Lemma bearing_south_west_of_square :
  let c := centroid Scenario.area in
  let P := mkPoint (lit (-500)) (lit (-500)) in
  let dx := fsub (px P) (px c) in
  let dy := fsub (py P) (py c) in
  exists (a b : Q) (k : Z) (dir : string),
    atan2 dx dy = Fin a /\
    azimuth_geographic atan2 c P = Ok (Fin b) /\
    (0 <= b)%Q /\ (b < 360)%Q /\
    (k = 0 \/ k = 1)%Z /\
    (Qabs (b - (a * (180 / 3.141592653589793) + 360 * inject_Z k)) <= 1 # 10 ^ 12)%Q /\
    (atan2_on_axes atan2 -> forall h, heads h dx dy -> b = heading_degrees h) /\
    candidate_metrics Scenario.area c (BoxWorld.pt (-2000) (-2000))
    = Ok (distance (BoxWorld.pt (-2000) (-2000)) P, round2 (Fin b), dir).
Proof.
  apply (bearing_degrees_range BoxWorld.box BoxWorld.box_lib Scenario.area
           (BoxWorld.pt (-2000) (-2000))
           (mkPoint (lit (-2000)) (lit (-2000)), mkPoint (lit (-500)) (lit (-500)))).
  - exact atan8_in_range.
  - vm_compute. reflexivity.
  - vm_compute. reflexivity.
  - vm_compute. reflexivity.
Defined.

(** Its bearing is 225 and its label SW; stations due north and due
    east of the square have the bearings 0 and 90. *)
Example bearings_around_the_square :
  candidate_metrics Scenario.area (centroid Scenario.area) (BoxWorld.pt (-2000) (-2000))
  = Ok (lit 1500, lit 225, "SW") /\
  candidate_metrics Scenario.area (centroid Scenario.area) (BoxWorld.pt 0 2000)
  = Ok (lit 1500, lit 0, "N") /\
  candidate_metrics Scenario.area (centroid Scenario.area) (BoxWorld.pt 2000 0)
  = Ok (lit 1500, lit 90, "E").
Proof. repeat split; vm_compute; reflexivity. Qed.

(* ===================================================================== *)
(** ** The normaliser ([_to_metric_gdf]) *)
(* ===================================================================== *)

Section Normaliser.

Context {geometry : Type} `{GeoLib geometry}.

Lemma emit_twice (e1 e2 : event geometry) (d : dialog geometry) :
  set_trace (trace (set_trace (trace d ++ [e1]) d) ++ [e2]) (set_trace (trace d ++ [e1]) d)
  = set_trace (trace d ++ [e1; e2]) d.
Proof. destruct d. unfold set_trace. cbn. rewrite <- app_assoc. reflexivity. Qed.

Lemma to_crs_crs (code : Z) (f g : frame geometry) :
  to_crs code f = Ok g -> frame_crs g = Some (EPSG code).
Proof.
  unfold to_crs. destruct (frame_crs f); [|discriminate].
  destruct (mapM _ _); cbn; [|discriminate]. intros [= <-]. reflexivity.
Qed.

End Normaliser.

(** C6, as stated, fails: a table of attributes without geometry column
    has no reference system, and it comes back as it was, without one;
    only the failure is logged. *)
Lemma attribute_table_gets_no_reference_system :
  let table : frame BoxWorld.box :=
    mkFrame ["name"; "code"] [[CStr "X"; CStr "123"]] None in
  frame_crs table = None /\
  _to_metric_gdf table Scenario.new_dialog
  = (Ok (table, false, None),
     set_trace [Log "Unable to set CRS for the layer."] Scenario.new_dialog) /\
  frame_crs table <> Some (EPSG 29903).
Proof. repeat split. discriminate. Qed.

(** C6, amended. A collection without reference system that has a
    geometry column is first given EPSG:4326, which is logged.  When the
    reprojection of its geometries succeeds, the result is the
    reprojected collection, in EPSG:29903, flagged as changed; when it
    raises, the result is the collection in EPSG:4326, flagged as not
    changed, and the failure is logged.  A collection without geometry
    column comes back as it was, without reference system. *)
Theorem to_metric_gdf_assumes_wgs84
    (geometry : Type) (lib : GeoLib geometry)
    (gdf : frame geometry) (d : dialog geometry) :
  frame_crs gdf = None ->
  let assumed := mkFrame (columns gdf) (rows gdf) (Some (EPSG 4326)) in
  if has_geometry gdf then
    set_crs 4326 gdf = Ok assumed /\
    match to_crs 29903 assumed with
    | Ok gdf_29903 =>
        _to_metric_gdf gdf d =
          (Ok (gdf_29903, true, Some (EPSG 4326)),
           set_trace (trace d ++ [Log "Layer has no CRS; assumed EPSG:4326.";
                                  Log "Reprojected layer to EPSG:29903 (Irish Grid)."]) d) /\
        frame_crs gdf_29903 = Some (EPSG 29903)
    | Raise e =>
        _to_metric_gdf gdf d =
          (Ok (assumed, false, Some (EPSG 4326)),
           set_trace (trace d ++ [Log "Layer has no CRS; assumed EPSG:4326.";
                                  Log ("CRS conversion to EPSG:29903 failed: "
                                       +:+ exn_text e)]) d)
    end
  else
    _to_metric_gdf gdf d =
      (Ok (gdf, false, None),
       set_trace (trace d ++ [Log "Unable to set CRS for the layer."]) d).
Proof.
  intros Hc. cbn zeta. destruct (has_geometry gdf) eqn:Hg.
  - assert (Hs : set_crs 4326 gdf
                 = Ok (mkFrame (columns gdf) (rows gdf) (Some (EPSG 4326)))).
    { unfold set_crs. rewrite Hg, Hc. reflexivity. }
    split; [exact Hs|].
    destruct (to_crs 29903 (mkFrame (columns gdf) (rows gdf) (Some (EPSG 4326))))
      as [gdf_29903|e] eqn:Ht.
    + split; [|exact (to_crs_crs _ _ _ Ht)].
      unfold _to_metric_gdf. rewrite Hc, Hs.
      unfold bindM, try_except, log, emit, lift, ret. cbn -[to_crs].
      rewrite Ht. destruct d. cbn. rewrite <- List.app_assoc. reflexivity.
    + unfold _to_metric_gdf. rewrite Hc, Hs.
      unfold bindM, try_except, log, emit, lift, ret. cbn -[to_crs].
      rewrite Ht. destruct d. cbn. rewrite <- List.app_assoc. reflexivity.
  - unfold _to_metric_gdf, set_crs. rewrite Hc, Hg. reflexivity.
Qed.

(** The normalisation of [naive_gdf] in the box world: it has a geometry
    column and its reprojection succeeds. *)
Lemma to_metric_gdf_naive_area :
  set_crs 4326 naive_gdf
  = Ok (mkFrame (columns naive_gdf) (rows naive_gdf) (Some (EPSG 4326))) /\
  _to_metric_gdf naive_gdf Scenario.new_dialog =
    (Ok (Scenario.area_gdf, true, Some (EPSG 4326)),
     set_trace (trace Scenario.new_dialog
                ++ [Log "Layer has no CRS; assumed EPSG:4326.";
                    Log "Reprojected layer to EPSG:29903 (Irish Grid)."])
       Scenario.new_dialog) /\
  frame_crs Scenario.area_gdf = Some (EPSG 29903).
Proof.
  exact (to_metric_gdf_assumes_wgs84 BoxWorld.box BoxWorld.box_lib naive_gdf
           Scenario.new_dialog eq_refl).
Defined.

(** C7. A collection that is already in EPSG:29903 is returned as it is,
    flagged as not changed, and nothing is logged. *)
Theorem to_metric_gdf_planar_unchanged
    (geometry : Type) (lib : GeoLib geometry)
    (gdf : frame geometry) (c : crs) (d : dialog geometry) :
  frame_crs gdf = Some c ->
  to_epsg c = Some 29903%Z ->
  _to_metric_gdf gdf d = (Ok (gdf, false, Some c), d).
Proof.
  intros Hc He. unfold _to_metric_gdf. rewrite Hc.
  unfold bindM, try_except, lift, ret, epsg_is. cbn. rewrite He. reflexivity.
Qed.

(** The application area of the worked example is already planar. *)
Lemma to_metric_gdf_area_unchanged :
  _to_metric_gdf Scenario.area_gdf Scenario.new_dialog
  = (Ok (Scenario.area_gdf, false, Some (EPSG 29903)), Scenario.new_dialog).
Proof.
  apply (to_metric_gdf_planar_unchanged BoxWorld.box BoxWorld.box_lib
           Scenario.area_gdf (EPSG 29903) Scenario.new_dialog); reflexivity.
Defined.

(* ===================================================================== *)
(** ** The cache of pre-filtered data ([run_prestep], [populate_layers]) *)
(* ===================================================================== *)

Section Cache.

Context {geometry : Type} `{GeoLib geometry}.
Variable w : world geometry.

Lemma keeps_ret {A : Type} (a : A) : keeps_cache (@ret geometry A a).
Proof. intros d. reflexivity. Qed.

Lemma keeps_lift {A : Type} (r : result A) : keeps_cache (@lift geometry A r).
Proof. intros d. reflexivity. Qed.

Lemma keeps_get : keeps_cache (@get geometry).
Proof. intros d. reflexivity. Qed.

Lemma keeps_emit (e : event geometry) : keeps_cache (emit e).
Proof. intros d. reflexivity. Qed.

Lemma keeps_log (msg : string) : keeps_cache (@log geometry msg).
Proof. intros d. reflexivity. Qed.

Lemma keeps_bind {A B : Type} (m : M geometry A) (k : A -> M geometry B) :
  keeps_cache m -> (forall a, keeps_cache (k a)) -> keeps_cache (bindM m k).
Proof.
  intros Hm Hk d. unfold bindM. specialize (Hm d).
  destruct (m d) as [[a|e] d']; cbn in *.
  - rewrite (Hk a d'). exact Hm.
  - exact Hm.
Qed.

Lemma keeps_try {A : Type} (m : M geometry A) (h : exn -> M geometry A) :
  keeps_cache m -> (forall e, keeps_cache (h e)) -> keeps_cache (try_except m h).
Proof.
  intros Hm Hh d. unfold try_except. specialize (Hm d).
  destruct (m d) as [[a|e] d']; cbn in *.
  - exact Hm.
  - rewrite (Hh e d'). exact Hm.
Qed.

Ltac keeps :=
  repeat first
    [ apply keeps_ret | apply keeps_lift | apply keeps_get | apply keeps_emit
    | apply keeps_log
    | apply keeps_bind; [|intros ?]
    | apply keeps_try; [|intros ?]
    | match goal with
      | |- keeps_cache (match ?x with _ => _ end) => destruct x
      | |- keeps_cache (if ?b then _ else _) => destruct b
      end ].

Lemma keeps_to_metric_gdf (gdf : frame geometry) : keeps_cache (_to_metric_gdf gdf).
Proof. unfold _to_metric_gdf. keeps. Qed.

Lemma keeps_plot (u : geometry) (f : frame geometry) : keeps_cache (plot u f).
Proof. unfold plot. keeps. Qed.

(** [run_analysis] never writes to the cache. *)
Lemma keeps_run_analysis : keeps_cache (run_analysis w).
Proof.
  unfold run_analysis. keeps; try apply keeps_to_metric_gdf; try apply keeps_plot.
Qed.

Lemma keeps_cache_others {A : Type} (key : string * Z) (m : M geometry A) :
  keeps_cache m -> keeps_others key m.
Proof. intros Hm d k _. rewrite (Hm d). reflexivity. Qed.

Lemma others_bind {A B : Type} key (m : M geometry A) (k : A -> M geometry B) :
  keeps_others key m -> (forall a, keeps_others key (k a)) ->
  keeps_others key (bindM m k).
Proof.
  intros Hm Hk d k0 Hne. unfold bindM. specialize (Hm d k0 Hne).
  destruct (m d) as [[a|e] d']; cbn in *.
  - rewrite (Hk a d' k0 Hne). exact Hm.
  - exact Hm.
Qed.

Lemma others_try {A : Type} key (m : M geometry A) (h : exn -> M geometry A) :
  keeps_others key m -> (forall e, keeps_others key (h e)) ->
  keeps_others key (try_except m h).
Proof.
  intros Hm Hh d k0 Hne. unfold try_except. specialize (Hm d k0 Hne).
  destruct (m d) as [[a|e] d']; cbn in *.
  - exact Hm.
  - rewrite (Hh e d' k0 Hne). exact Hm.
Qed.

Lemma others_store key (f : frame geometry) :
  keeps_others key
    (fun d => (Ok tt, set_api_pre_filtered (<[key := f]> (api_pre_filtered d)) d)).
Proof. intros d k Hne. cbn. apply lookup_insert_ne. congruence. Qed.

Ltac others :=
  repeat first
    [ apply others_store
    | apply keeps_cache_others;
      first [ apply keeps_ret | apply keeps_lift | apply keeps_get | apply keeps_emit
            | apply keeps_log | apply keeps_to_metric_gdf ]
    | apply others_bind; [|intros ?]
    | apply others_try; [|intros ?]
    | match goal with
      | |- keeps_others _ (match ?x with _ => _ end) => destruct x
      | |- keeps_others _ (if ?b then _ else _) => destruct b
      end ].

Lemma others_prestep_wfs key t b : keeps_others key (prestep_wfs w key t b).
Proof. unfold prestep_wfs. others. Qed.

Lemma others_prestep_arcgis key s b : keeps_others key (prestep_arcgis w key s b).
Proof. unfold prestep_arcgis. others. Qed.

(** On a cache hit [run_prestep] only writes one line to the log. *)
Lemma run_prestep_cached (d : dialog geometry) (key : string * Z) (f : frame geometry) :
  current_key d = Some key ->
  api_pre_filtered d !! key = Some f ->
  run_prestep w d
  = (Ok tt, set_trace (trace d ++ [Log "Using cached preprocessed data."]) d).
Proof.
  unfold current_key, run_prestep. intros Hk Hc.
  unfold try_except, bindM, get. cbn.
  destruct (_ || _); [discriminate|]. injection Hk as <-.
  rewrite Hc. reflexivity.
Qed.

Lemma others_fetch_and_store (d : dialog geometry) (api_name : string) (app_index : Z) :
  keeps_others (api_name, app_index) (fetch_and_store w d api_name app_index).
Proof.
  unfold fetch_and_store.
  others; try apply others_prestep_wfs; try apply others_prestep_arcgis.
Qed.

Lemma others_handler key (m : M geometry unit) (h : exn -> M geometry unit) :
  keeps_others key m -> (forall e, keeps_cache (h e)) ->
  keeps_others key (try_except m h).
Proof.
  intros Hm Hh. apply others_try; [exact Hm|].
  intros e. apply keeps_cache_others. apply Hh.
Qed.

(** [run_prestep] never drops or replaces a cached collection. *)
Lemma run_prestep_keeps_entries (d : dialog geometry) (k : string * Z)
    (f : frame geometry) :
  api_pre_filtered d !! k = Some f ->
  api_pre_filtered (snd (run_prestep w d)) !! k = Some f.
Proof.
  intros Hk. destruct (current_key d) as [key|] eqn:Ck.
  - destruct (api_pre_filtered d !! key) as [g|] eqn:Hc.
    + rewrite (run_prestep_cached d key g Ck Hc). exact Hk.
    + assert (Hne : k <> key) by congruence.
      unfold current_key in Ck.
      destruct (_ || _) eqn:V; [discriminate|]. injection Ck as Ek.
      rewrite <- Hk. subst key.
      pose proof (others_handler _
                    (fetch_and_store w d (currentText (combo_api d)) (current (combo_app d)))
                    (fun e => do! log ("Preprocessing failed: " +:+ exn_text e) in
                              emit (LogTraceback e))
                    (others_fetch_and_store d _ _)) as E.
      assert (Hh : forall e, keeps_cache
                     (do! @log geometry ("Preprocessing failed: " +:+ exn_text e) in
                      emit (LogTraceback e))) by (intros e; keeps).
      specialize (E Hh d k Hne).
      unfold run_prestep. unfold try_except at 1. unfold bindM at 1. unfold get.
      cbn [fst snd]. rewrite V, Hc. exact E.
  - unfold current_key in Ck. unfold run_prestep, try_except, bindM, get. cbn.
    destruct (_ || _); [|discriminate]. exact Hk.
Qed.

End Cache.

Section SessionFacts.

Context {geometry : Type} `{GeoLib geometry}.
Variable w : world geometry.

Lemma step_keeps_entries (d : dialog geometry) (a : action) (k : string * Z)
    (f : frame geometry) :
  is_refresh a = false ->
  api_pre_filtered d !! k = Some f ->
  api_pre_filtered (step w d a) !! k = Some f.
Proof.
  intros Ha Hk. destruct a as [i|i|fs| |]; cbn [step]; try discriminate.
  - destruct (_ =? _)%Z; [exact Hk|]. apply run_prestep_keeps_entries. exact Hk.
  - destruct (_ =? _)%Z; [exact Hk|]. apply run_prestep_keeps_entries. exact Hk.
  - exact Hk.
  - rewrite (keeps_run_analysis w d). exact Hk.
Qed.

Lemma session_keeps_entries (acts : list action) (d : dialog geometry)
    (k : string * Z) (f : frame geometry) :
  existsb is_refresh acts = false ->
  api_pre_filtered d !! k = Some f ->
  api_pre_filtered (session w acts d) !! k = Some f.
Proof.
  revert d. induction acts as [|a acts IH]; intros d Ha Hk; [exact Hk|].
  cbn in Ha. apply orb_false_iff in Ha. destruct Ha as [Ha Hs].
  cbn [session fold_left]. apply IH; [exact Hs|].
  apply step_keeps_entries; assumption.
Qed.

(** [populate_layers] empties the cache. *)
Lemma populate_layers_clears (d : dialog geometry) (k : string * Z) :
  api_pre_filtered (snd (populate_layers w d)) !! k = None.
Proof.
  unfold populate_layers.
  set (d0 := mkDialog ∅ ∅ [] [] combo_clear combo_clear
               (fields_list d) (selectedItems d) (trace d)).
  assert (E0 : api_pre_filtered d0 = ∅) by reflexivity.
  assert (E1 : api_pre_filtered (fold_left add_project_layer (project_layers w) d0) = ∅).
  { revert E0. generalize d0. induction (project_layers w) as [|l ls IH]; intros d' E.
    - exact E.
    - cbn [fold_left]. apply IH. unfold add_project_layer.
      destruct (layer_is_vector l); [|exact E].
      destruct (_ || _); exact E. }
  set (d1 := fold_left add_project_layer (project_layers w) d0) in *.
  match goal with
  | |- context [try_except ?m ?h d1] =>
      assert (E2 : api_pre_filtered (snd (try_except m h d1)) = ∅);
      [| destruct (try_except m h d1) as [r d2] ]
  end.
  { unfold try_except, bindM, emit, lift, get, log. cbn.
    destruct (wfs_contents w) as [contents|e]; cbn; [|exact E1].
    assert (E : forall d' : dialog geometry, api_pre_filtered d' = ∅ ->
                api_pre_filtered (fold_left add_wfs_layer contents d') = ∅).
    { induction contents as [|[n t] cs IH]; intros d' Ed; [exact Ed|].
      cbn [fold_left]. apply IH. exact Ed. }
    apply E. exact E1. }
  cbn in E2. destruct (shp_layers d2); cbn; rewrite E2; apply lookup_empty.
Qed.

End SessionFacts.

(** C9, amended. A collection stored for a pair stays in the cache through
    every sequence of selections and analysis runs that contains no
    refresh, and a request for a cached pair only writes "Using cached
    preprocessed data." to the log: no download, no change of the cache. *)
Theorem cached_pair_is_not_fetched_again
    (geometry : Type) (lib : GeoLib geometry) (w : world geometry)
    (acts : list action) (d : dialog geometry)
    (key : string * Z) (f : frame geometry) :
  api_pre_filtered d !! key = Some f ->
  existsb is_refresh acts = false ->
  api_pre_filtered (session w acts d) !! key = Some f /\
  (current_key (session w acts d) = Some key ->
   run_prestep w (session w acts d)
   = (Ok tt, set_trace (trace (session w acts d)
                        ++ [Log "Using cached preprocessed data."])
               (session w acts d))).
Proof.
  intros Hk Ha.
  pose proof (session_keeps_entries w acts d key f Ha Hk) as Hs.
  split; [exact Hs|]. intros Ck. exact (run_prestep_cached w _ key f Ck Hs).
Qed.

(** C8, amended. An empty feature list from the ArcGIS service is not an
    error: the request is followed by the log line "No features returned
    from ArcGIS API." and nothing else happens; in particular no
    collection, empty or not, is put into the cache. *)
Theorem prestep_arcgis_empty_feature_list
    (geometry : Type) (lib : GeoLib geometry) (w : world geometry)
    (key : string * Z) (source_str : string) (buffer_geom : geometry)
    (d : dialog geometry) :
  arcgis_query w (query_url source_str) (bounds buffer_geom) = Ok [] ->
  prestep_arcgis w key source_str buffer_geom d
  = (Ok tt,
     set_trace (trace d ++ [HttpGet (query_url source_str)
                              (query_params (bounds buffer_geom));
                            Log "No features returned from ArcGIS API."]) d) /\
  api_pre_filtered (snd (prestep_arcgis w key source_str buffer_geom d))
  = api_pre_filtered d.
Proof.
  intros Hq.
  assert (E : prestep_arcgis w key source_str buffer_geom d
              = (Ok tt,
                 set_trace (trace d ++ [HttpGet (query_url source_str)
                                          (query_params (bounds buffer_geom));
                                        Log "No features returned from ArcGIS API."]) d)).
  { unfold prestep_arcgis, try_except, bindM, emit, lift, log. cbn.
    rewrite Hq. destruct d. cbn. rewrite <- List.app_assoc. reflexivity. }
  split; [exact E|]. rewrite E. reflexivity.
Qed.

(** C9, as stated, fails: in one session the features of the same pair
    are downloaded twice when the layer lists are refreshed in between. *)
Lemma refresh_makes_prestep_fetch_again :
  api_pre_filtered Sessions.fetched !! Scenario.wfs_key = Some Sessions.stored_stations /\
  current_key Sessions.fetched = Some Scenario.wfs_key /\
  Scenario.fetches Sessions.fetched = 1%nat /\
  current_key Sessions.refetched = Some Scenario.wfs_key /\
  Scenario.fetches Sessions.refetched = 2%nat.
Proof. repeat split; vm_compute; reflexivity. Qed.

(** The stations stay cached while the user picks the other layer,
    selects a field, runs the analysis and comes back. *)
Lemma cached_stations_are_not_fetched_again :
  api_pre_filtered
    (session Sessions.stations_world [PickApi 0; PickFields ["name"]; Run; PickApi 1]
       Sessions.fetched) !! Scenario.wfs_key = Some Sessions.stored_stations /\
  (current_key
     (session Sessions.stations_world [PickApi 0; PickFields ["name"]; Run; PickApi 1]
        Sessions.fetched) = Some Scenario.wfs_key ->
   run_prestep Sessions.stations_world
     (session Sessions.stations_world [PickApi 0; PickFields ["name"]; Run; PickApi 1]
        Sessions.fetched)
   = (Ok tt,
      set_trace
        (trace (session Sessions.stations_world
                  [PickApi 0; PickFields ["name"]; Run; PickApi 1] Sessions.fetched)
         ++ [Log "Using cached preprocessed data."])
        (session Sessions.stations_world
           [PickApi 0; PickFields ["name"]; Run; PickApi 1] Sessions.fetched))).
Proof.
  apply (cached_pair_is_not_fetched_again BoxWorld.box BoxWorld.box_lib
           Sessions.stations_world [PickApi 0; PickFields ["name"]; Run; PickApi 1]
           Sessions.fetched Scenario.wfs_key Sessions.stored_stations).
  - vm_compute. reflexivity.
  - reflexivity.
Defined.

(** C8, as stated, fails: after an empty answer of the ArcGIS service the
    cache has no entry for the pair, while the empty answer is logged. *)
Lemma arcgis_empty_answer_is_not_cached :
  current_key Sessions.queried = Some Scenario.arcgis_key /\
  api_pre_filtered Sessions.queried !! Scenario.arcgis_key = None /\
  last (trace Sessions.queried)
  = Some (Log "No features returned from ArcGIS API.").
Proof. repeat split; vm_compute; reflexivity. Qed.

(** The ArcGIS layer of the worked example answers with no feature. *)
Lemma rivers_empty_feature_list :
  prestep_arcgis Sessions.stations_world Scenario.arcgis_key Sessions.rivers_source
    Sessions.area_buffer Sessions.fetched
  = (Ok tt,
     set_trace (trace Sessions.fetched
                ++ [HttpGet (query_url Sessions.rivers_source)
                      (query_params (bounds Sessions.area_buffer));
                    Log "No features returned from ArcGIS API."]) Sessions.fetched) /\
  api_pre_filtered
    (snd (prestep_arcgis Sessions.stations_world Scenario.arcgis_key
            Sessions.rivers_source Sessions.area_buffer Sessions.fetched))
  = api_pre_filtered Sessions.fetched.
Proof.
  apply (prestep_arcgis_empty_feature_list BoxWorld.box BoxWorld.box_lib
           Sessions.stations_world Scenario.arcgis_key Sessions.rivers_source
           Sessions.area_buffer Sessions.fetched).
  reflexivity.
Defined.

(* ===================================================================== *)
(** ** [run_analysis] without candidates *)
(* ===================================================================== *)

Section NoCandidates.

Context {geometry : Type} `{GeoLib geometry}.
Variable w : world geometry.

(** The handler of [run_analysis] turns every exception into two log
    entries, so the method itself never raises. *)
Lemma run_analysis_returns (d : dialog geometry) : fst (run_analysis w d) = Ok tt.
Proof.
  unfold run_analysis, try_except.
  match goal with |- context [match ?m d with _ => _ end] => destruct (m d) as [[[]|e] d'] end.
  - reflexivity.
  - reflexivity.
Qed.

End NoCandidates.

(** C4, amended. [run_analysis] never raises.  When the cache has no
    collection for the selected pair, or an empty one, it shows a warning
    box titled "Error" and stops; when the cached collection is not empty
    but none of its features meets the buffer of the application area, it
    shows the information box "No Results" and stops.  Nothing is exported
    in either case. *)
Theorem run_analysis_without_candidates
    (geometry : Type) (lib : GeoLib geometry) (w : world geometry)
    (d : dialog geometry) :
  selection_made d = true ->
  fst (run_analysis w d) = Ok tt /\
  ((api_pre_filtered d !! (currentText (combo_api d), current (combo_app d)) = None \/
    exists f, api_pre_filtered d !! (currentText (combo_api d), current (combo_app d))
              = Some f /\ frame_empty f = true) ->
   snd (run_analysis w d)
   = set_trace (trace d ++ [Log all_computations;
                            MsgWarning "Error" "Preprocessed data is empty."]) d) /\
  (forall pre_gdf app_layer app_gdf normalised d' app_geoms result_gdf,
     api_pre_filtered d !! (currentText (combo_api d), current (combo_app d))
     = Some pre_gdf ->
     frame_empty pre_gdf = false ->
     list_index (shp_layers d) (current (combo_app d)) = Ok app_layer ->
     read_file w (layer_source app_layer) = Ok app_gdf ->
     _to_metric_gdf app_gdf (set_trace (trace d ++ [Log all_computations]) d)
     = (Ok normalised, d') ->
     frame_geometry (fst (fst normalised)) = Ok app_geoms ->
     within_buffer (buffer (unary_union app_geoms) (lit 100000)) pre_gdf
     = Ok result_gdf ->
     frame_empty result_gdf = true ->
     snd (run_analysis w d)
     = set_trace (trace d' ++ [MsgInformation "No Results"
                                 "No features found within the 100 km buffer."]) d').
Proof.
  intros Hsel. unfold selection_made in Hsel.
  apply andb_true_iff in Hsel. destruct Hsel as [Ha Hn].
  apply negb_true_iff in Ha, Hn.
  split; [apply run_analysis_returns|]. split.
  - intros Hc. unfold run_analysis, try_except, bindM, log, emit, get. cbn.
    rewrite Ha, Hn. cbn.
    destruct Hc as [Hc | [f [Hc He]]]; rewrite Hc; [|rewrite He]; cbn;
      destruct d; cbn; rewrite <- List.app_assoc; reflexivity.
  - intros pre_gdf app_layer app_gdf normalised d' app_geoms result_gdf
      Hc He Hl Hr Hm Hg Hw Hres.
    unfold run_analysis, try_except, bindM, log, emit, get, lift. cbn.
    rewrite Ha, Hn. cbn. rewrite Hc, He, Hl. cbn. rewrite Hr.
    unfold all_computations in Hm. rewrite Hm. rewrite Hg, Hw, Hres. reflexivity.
Qed.

(** C4, as stated, fails: no remote feature meets the region of interest,
    and the run answers with a warning box titled "Error", not with an
    information box. *)
Lemma empty_candidates_give_a_warning :
  selection_made EmptySessions.nothing_near = true /\
  api_pre_filtered EmptySessions.nothing_near !! Scenario.wfs_key
  = Some EmptySessions.no_stations /\
  run_analysis EmptySessions.far_world EmptySessions.nothing_near
  = (Ok tt,
     set_trace (trace EmptySessions.nothing_near
                ++ [Log all_computations;
                    MsgWarning "Error" "Preprocessed data is empty."])
       EmptySessions.nothing_near) /\
  existsb EmptySessions.is_information
    (trace (snd (run_analysis EmptySessions.far_world EmptySessions.nothing_near)))
  = false.
Proof. repeat split; vm_compute; reflexivity. Qed.

(** The theorem on the session in which the only station is 200 km
    away. *)
Lemma run_analysis_nothing_near :
  fst (run_analysis EmptySessions.far_world EmptySessions.nothing_near) = Ok tt /\
  ((api_pre_filtered EmptySessions.nothing_near
      !! (currentText (combo_api EmptySessions.nothing_near),
          current (combo_app EmptySessions.nothing_near)) = None \/
    exists f, api_pre_filtered EmptySessions.nothing_near
                !! (currentText (combo_api EmptySessions.nothing_near),
                    current (combo_app EmptySessions.nothing_near))
              = Some f /\ frame_empty f = true) ->
   snd (run_analysis EmptySessions.far_world EmptySessions.nothing_near)
   = set_trace (trace EmptySessions.nothing_near
                ++ [Log all_computations;
                    MsgWarning "Error" "Preprocessed data is empty."])
       EmptySessions.nothing_near) /\
  (forall pre_gdf app_layer app_gdf normalised d' app_geoms result_gdf,
     api_pre_filtered EmptySessions.nothing_near
       !! (currentText (combo_api EmptySessions.nothing_near),
           current (combo_app EmptySessions.nothing_near))
     = Some pre_gdf ->
     frame_empty pre_gdf = false ->
     list_index (shp_layers EmptySessions.nothing_near)
       (current (combo_app EmptySessions.nothing_near)) = Ok app_layer ->
     read_file EmptySessions.far_world (layer_source app_layer) = Ok app_gdf ->
     _to_metric_gdf app_gdf
       (set_trace (trace EmptySessions.nothing_near ++ [Log all_computations])
          EmptySessions.nothing_near)
     = (Ok normalised, d') ->
     frame_geometry (fst (fst normalised)) = Ok app_geoms ->
     within_buffer (buffer (unary_union app_geoms) (lit 100000)) pre_gdf
     = Ok result_gdf ->
     frame_empty result_gdf = true ->
     snd (run_analysis EmptySessions.far_world EmptySessions.nothing_near)
     = set_trace (trace d' ++ [MsgInformation "No Results"
                                 "No features found within the 100 km buffer."]) d').
Proof.
  apply (run_analysis_without_candidates BoxWorld.box BoxWorld.box_lib
           EmptySessions.far_world EmptySessions.nothing_near).
  reflexivity.
Defined.

(** The information box is reached when the cached collection is not
    empty but lies outside the buffer that the run computes. *)
Example stale_cache_gives_information :
  last (trace (snd (run_analysis EmptySessions.far_world EmptySessions.stale)))
  = Some (MsgInformation "No Results" "No features found within the 100 km buffer.").
Proof. vm_compute. reflexivity. Qed.

(* ===================================================================== *)
(** ** The exported columns *)
(* ===================================================================== *)

Section Columns.

Context {geometry : Type} {lib : GeoLib geometry}.

Lemma index_of_absent (name : string) (cols : list string) :
  ~ In name cols -> index_of name cols = None.
Proof.
  induction cols as [|c cs IH]; intros Hn; [reflexivity|].
  cbn. destruct (String.eqb_spec c name) as [->|_].
  - exfalso. apply Hn. left. reflexivity.
  - rewrite IH; [reflexivity|]. intros Hi. apply Hn. right. exact Hi.
Qed.

(** Assigning a column that the frame does not have appends its label. *)
Lemma set_column_new (name : string) (values : list (cell geometry))
    (f g : frame geometry) :
  ~ In name (columns f) ->
  set_column name values f = Ok g ->
  columns g = (columns f ++ [name])%list.
Proof.
  intros Hn. unfold set_column. rewrite (index_of_absent _ _ Hn).
  destruct (negb _); [discriminate|]. intros [= <-]. reflexivity.
Qed.

Lemma sort_values_columns (by_col : string) (f g : frame geometry) :
  sort_values by_col f = Ok g -> columns g = columns f.
Proof.
  unfold sort_values. destruct (mapM _ _); cbn; [|discriminate].
  intros [= <-]. reflexivity.
Qed.

Lemma keep_nearest_columns (f g : frame geometry) :
  keep_nearest f = Ok g -> columns g = columns f.
Proof.
  unfold keep_nearest. destruct (sort_values _ f) as [s|e] eqn:E; cbn; [|discriminate].
  intros [= <-]. cbn. apply (sort_values_columns _ _ _ E).
Qed.

(** After the loop over the candidates the frame has its own columns
    followed by the three computed ones. *)
Lemma with_metrics_columns (app_union : geometry) (f g : frame geometry) :
  (forall c, In c computed_fields -> ~ In c (columns f)) ->
  with_metrics app_union f = Ok g ->
  columns g = (columns f ++ computed_fields)%list.
Proof.
  intros Hc. unfold with_metrics.
  destruct (frame_geometry f) as [geoms|]; cbn; [|discriminate].
  destruct (mapM _ geoms) as [metrics|]; cbn; [|discriminate].
  destruct (set_column "Distance_m" _ f) as [f1|] eqn:E1; cbn; [|discriminate].
  destruct (set_column "Direction (°)" _ f1) as [f2|] eqn:E2; cbn; [|discriminate].
  intros E3.
  apply set_column_new in E1; [|apply Hc; cbn; tauto].
  apply set_column_new in E2.
  2:{ rewrite E1. rewrite in_app_iff. intros [Hi|[Hi|[]]]; [|discriminate].
      revert Hi. apply Hc. cbn. tauto. }
  apply set_column_new in E3.
  2:{ rewrite E2, E1. rewrite !in_app_iff.
      intros [[Hi|[Hi|[]]]|[Hi|[]]]; try discriminate.
      revert Hi. apply Hc. cbn. tauto. }
  rewrite E3, E2, E1. rewrite <- !List.app_assoc. reflexivity.
Qed.

Lemma nearest_feature_columns (app_union : geometry) (f g : frame geometry) :
  (forall c, In c computed_fields -> ~ In c (columns f)) ->
  nearest_feature app_union f = Ok g ->
  columns g = (columns f ++ computed_fields)%list.
Proof.
  intros Hc. unfold nearest_feature.
  destruct (with_metrics app_union f) as [m|] eqn:E; cbn; [|discriminate].
  intros Hk. rewrite (keep_nearest_columns _ _ Hk).
  apply (with_metrics_columns _ _ _ Hc E).
Qed.

End Columns.

(** C5, what the code does. When no field is selected, the export list
    is read off the frame after the three computed columns have been
    assigned to it: every original column except the geometry comes first,
    and the three computed columns follow twice.  When a subset is
    selected, the three computed columns follow it once. *)
Theorem export_cols_of_nearest_feature (geometry : Type) (lib : GeoLib geometry)
    (app_union : geometry) (f g : frame geometry) :
  (forall c, In c computed_fields -> ~ In c (columns f)) ->
  nearest_feature app_union f = Ok g ->
  export_cols [] g
  = (List.filter not_geometry (columns f) ++ computed_fields ++ computed_fields)%list /\
  (forall x fs, export_cols (x :: fs) g = (x :: fs ++ computed_fields)%list).
Proof.
  intros Hc Hn. split; [|reflexivity].
  unfold export_cols. rewrite (nearest_feature_columns _ _ _ Hc Hn).
  rewrite List.filter_app. cbn. rewrite <- List.app_assoc. reflexivity.
Qed.

(** The export lists for the nearest of the three stations. *)
Lemma export_cols_of_nearest_station :
  (forall c, In c computed_fields -> ~ In c (columns Sessions.stored_stations)) /\
  match Exports.nearest_station with
  | Ok g =>
      export_cols [] g
      = ["name"; "code"; "Distance_m"; "Direction (°)"; "Direction";
         "Distance_m"; "Direction (°)"; "Direction"] /\
      (forall x fs, export_cols (x :: fs) g = (x :: fs ++ computed_fields)%list)
  | Raise _ => False
  end.
Proof.
  assert (Hc : forall c, In c computed_fields -> ~ In c (columns Sessions.stored_stations)).
  { intros c Hi Hj. cbn in Hi, Hj.
    repeat match goal with H : _ \/ _ |- _ => destruct H as [H|H] end;
      subst; try discriminate; assumption. }
  split; [exact Hc|].
  destruct Exports.nearest_station as [g|e] eqn:E.
  - exact (export_cols_of_nearest_feature BoxWorld.box BoxWorld.box_lib
             Scenario.area Sessions.stored_stations g Hc E).
  - vm_compute in E. discriminate E.
Defined.

(** C5 on the worked example.  With no field selected the CSV file has
    eight columns, the three computed ones twice; with the field [name]
    selected it has the four columns of the specification. *)
Lemma default_export_has_the_computed_fields_twice :
  Exports.saved Exports.default_run
  = [(["name"; "code"; "Distance_m"; "Direction (°)"; "Direction";
       "Distance_m"; "Direction (°)"; "Direction"],
      [[CStr "Y"; CStr "124"; CNum (lit 10); CNum (lit 0); CStr "N";
        CNum (lit 10); CNum (lit 0); CStr "N"]])] /\
  Exports.saved Exports.subset_run
  = [(["name"; "Distance_m"; "Direction (°)"; "Direction"],
      [[CStr "Y"; CNum (lit 10); CNum (lit 0); CStr "N"]])].
Proof. split; vm_compute; reflexivity. Qed.

(* ===================================================================== *)
(** ** The nearest candidate *)
(* ===================================================================== *)

Section Lists.

Context {A B : Type}.

Lemma mapM_nth (f : A -> result B) (l : list A) (out : list B) :
  mapM f l = Ok out ->
  length out = length l /\
  forall i a, nth_error l i = Some a ->
    exists b, nth_error out i = Some b /\ f a = Ok b.
Proof.
  revert out. induction l as [|x l IH]; intros out; cbn.
  - intros [= <-]. split; [reflexivity|]. intros [|i] a; discriminate.
  - destruct (f x) as [b|] eqn:Ex; cbn; [|discriminate].
    destruct (mapM f l) as [bs|]; cbn; [|discriminate].
    intros [= <-]. destruct (IH bs eq_refl) as [Hl Hn]. split.
    + cbn. rewrite Hl. reflexivity.
    + intros [|i] a; cbn.
      * intros [= <-]. exists b. split; [reflexivity|exact Ex].
      * apply Hn.
Qed.

Lemma mapM_pointwise (f : A -> result B) (l : list A) (out : list B) :
  length out = length l ->
  (forall i a b, nth_error l i = Some a -> nth_error out i = Some b -> f a = Ok b) ->
  mapM f l = Ok out.
Proof.
  revert out. induction l as [|x l IH]; intros [|b out] Hl Hp; try discriminate.
  - reflexivity.
  - cbn. rewrite (Hp 0%nat x b eq_refl eq_refl). cbn.
    rewrite (IH out); [reflexivity| |].
    + cbn in Hl. congruence.
    + intros i a b'. apply (Hp (S i)).
Qed.

Lemma set_nth_length (i : nat) (a : A) (l : list A) :
  length (set_nth i a l) = length l.
Proof.
  revert i. induction l as [|x l IH]; intros [|i]; cbn; try reflexivity.
  rewrite IH. reflexivity.
Qed.

Lemma set_nth_same (i : nat) (a : A) (l : list A) :
  (i < length l)%nat -> nth_error (set_nth i a l) i = Some a.
Proof.
  revert i. induction l as [|x l IH]; intros [|i] Hi; cbn in *; try lia.
  - reflexivity.
  - apply IH. lia.
Qed.

Lemma set_nth_other (i j : nat) (a : A) (l : list A) :
  i <> j -> nth_error (set_nth i a l) j = nth_error l j.
Proof.
  revert i j. induction l as [|x l IH]; intros [|i] [|j] Hij; cbn; try reflexivity.
  - contradiction.
  - apply IH. congruence.
Qed.

Lemma take_order_cons (i : nat) (order : list nat) (l : list A) (a : A) :
  nth_error l i = Some a ->
  take_order (i :: order) l = a :: take_order order l.
Proof. intros E. unfold take_order. cbn. rewrite E. reflexivity. Qed.

Lemma take_order_seq (p l : list A) :
  take_order (seq (length p) (length l)) (p ++ l)%list = l.
Proof.
  revert p. induction l as [|a l IH]; intros p; [reflexivity|].
  cbn [length seq].
  rewrite (take_order_cons _ _ _ a).
  - f_equal. specialize (IH (p ++ [a])%list).
    rewrite List.length_app, Nat.add_1_r, <- List.app_assoc in IH. exact IH.
  - rewrite nth_error_app2 by lia. rewrite Nat.sub_diag. reflexivity.
Qed.

End Lists.

Lemma take_order_identity (n : nat) (order : list nat) :
  Forall (fun i => (i < n)%nat) order -> take_order order (seq 0 n) = order.
Proof.
  induction 1 as [|i order Hi _ IH]; [reflexivity|].
  rewrite (take_order_cons _ _ _ i); [rewrite IH; reflexivity|].
  rewrite nth_error_nth' with (d := 0%nat) by (rewrite List.length_seq; exact Hi).
  rewrite seq_nth by exact Hi. reflexivity.
Qed.

Lemma index_of_nth (name : string) (cols : list string) (i : nat) :
  index_of name cols = Some i -> nth_error cols i = Some name.
Proof.
  revert i. induction cols as [|c cs IH]; intros i; cbn; [discriminate|].
  destruct (String.eqb_spec c name) as [->|_].
  - intros [= <-]. reflexivity.
  - destruct (index_of name cs) as [j|]; cbn; [|discriminate].
    intros [= <-]. cbn. apply IH. reflexivity.
Qed.

Lemma index_of_lt (name : string) (cols : list string) (i : nat) :
  index_of name cols = Some i -> (i < length cols)%nat.
Proof.
  intros E. apply nth_error_Some. rewrite (index_of_nth _ _ _ E). discriminate.
Qed.

Lemma index_of_app (name last : string) (cols : list string) :
  index_of name (cols ++ [last])
  = match index_of name cols with
    | Some i => Some i
    | None => if String.eqb last name then Some (length cols) else None
    end.
Proof.
  induction cols as [|c cs IH]; cbn.
  - destruct (String.eqb last name); reflexivity.
  - destruct (String.eqb c name); [reflexivity|].
    rewrite IH. destruct (index_of name cs); cbn; [reflexivity|].
    destruct (String.eqb last name); reflexivity.
Qed.

Section Assignment.

Context {geometry : Type} {lib : GeoLib geometry}.

Implicit Types (f g : frame geometry) (r : list (cell geometry)).

Lemma wf_frame_row f r i :
  wf_frame f = true -> nth_error (rows f) i = Some r ->
  length r = length (columns f).
Proof.
  intros Hw Hr. unfold wf_frame in Hw. rewrite forallb_forall in Hw.
  apply Nat.eqb_eq. apply Hw. apply (nth_error_In _ _ Hr).
Qed.

(** What [df[name] = values] does to row [i]: the frame stays
    rectangular, the row now holds [values[i]] under [name], and the
    cells under every other label are the ones it had. *)
Lemma set_column_row (name : string) (values : list (cell geometry)) f g :
  wf_frame f = true ->
  set_column name values f = Ok g ->
  wf_frame g = true /\
  length (rows g) = length (rows f) /\
  frame_crs g = frame_crs f /\
  forall i r', nth_error (rows g) i = Some r' ->
    exists r v,
      nth_error (rows f) i = Some r /\ nth_error values i = Some v /\
      get_cell g name r' = Ok v /\
      forall other, other <> name -> get_cell g other r' = get_cell f other r.
Proof.
  intros Hw. unfold set_column.
  destruct (length values =? length (rows f))%nat eqn:El; cbn; [|discriminate].
  apply Nat.eqb_eq in El.
  assert (Hrow : forall (h : list (cell geometry) * cell geometry -> list (cell geometry))
                   i r',
             nth_error (map h (combine (rows f) values)) i = Some r' ->
             exists r v, nth_error (rows f) i = Some r /\ nth_error values i = Some v /\
                         r' = h (r, v)).
  { intros h i r' E. rewrite nth_error_map in E.
    destruct (nth_error (combine (rows f) values) i) as [[r v]|] eqn:Ec; [|discriminate].
    injection E as <-. exists r, v.
    assert (Hi : (i < length (combine (rows f) values))%nat)
      by (apply nth_error_Some; rewrite Ec; discriminate).
    rewrite List.length_combine in Hi.
    destruct (nth_error (rows f) i) as [r0|] eqn:E1;
      [|apply nth_error_None in E1; lia].
    destruct (nth_error values i) as [v0|] eqn:E2;
      [|apply nth_error_None in E2; lia].
    pose proof (nth_error_nth _ _ (r0, v0) Ec) as Hn.
    rewrite combine_nth in Hn by (symmetry; exact El).
    rewrite (nth_error_nth _ _ r0 E1), (nth_error_nth _ _ v0 E2) in Hn.
    injection Hn as -> ->. repeat split. }
  destruct (index_of name (columns f)) as [k|] eqn:Ek; intros [= <-]; cbn.
  - (* an existing column is overwritten *)
    repeat split.
    + unfold wf_frame. cbn. apply forallb_forall. intros r' Hi.
      apply In_nth_error in Hi. destruct Hi as [i Hi].
      destruct (Hrow _ _ _ Hi) as (r & v & Hr & _ & ->). cbn.
      rewrite set_nth_length. apply Nat.eqb_eq. apply (wf_frame_row _ _ _ Hw Hr).
    + rewrite List.length_map, List.length_combine. lia.
    + intros i r' Hi. destruct (Hrow _ _ _ Hi) as (r & v & Hr & Hv & ->). cbn.
      exists r, v. repeat split; try assumption.
      * unfold get_cell. cbn. rewrite Ek. rewrite set_nth_same; [reflexivity|].
        rewrite (wf_frame_row _ _ _ Hw Hr). apply (index_of_lt _ _ _ Ek).
      * intros other Ho. unfold get_cell. cbn.
        destruct (index_of other (columns f)) as [j|] eqn:Ej; [|reflexivity].
        rewrite set_nth_other; [reflexivity|].
        intros ->. apply Ho.
        apply index_of_nth in Ek, Ej. congruence.
  - (* a new column is appended *)
    repeat split.
    + unfold wf_frame. cbn. apply forallb_forall. intros r' Hi.
      apply In_nth_error in Hi. destruct Hi as [i Hi].
      destruct (Hrow _ _ _ Hi) as (r & v & Hr & _ & ->). cbn.
      rewrite !List.length_app. cbn. apply Nat.eqb_eq.
      rewrite (wf_frame_row _ _ _ Hw Hr). reflexivity.
    + rewrite List.length_map, List.length_combine. lia.
    + intros i r' Hi. destruct (Hrow _ _ _ Hi) as (r & v & Hr & Hv & ->). cbn.
      exists r, v. repeat split; try assumption.
      * unfold get_cell. cbn. rewrite index_of_app, Ek, String.eqb_refl.
        rewrite nth_error_app2 by (rewrite (wf_frame_row _ _ _ Hw Hr); lia).
        rewrite (wf_frame_row _ _ _ Hw Hr), Nat.sub_diag. reflexivity.
      * intros other Ho. unfold get_cell. cbn. rewrite index_of_app.
        destruct (index_of other (columns f)) as [j|] eqn:Ej.
        -- rewrite nth_error_app1; [reflexivity|].
           rewrite (wf_frame_row _ _ _ Hw Hr). apply (index_of_lt _ _ _ Ej).
        -- destruct (String.eqb_spec name other) as [->|_]; [contradiction|reflexivity].
Qed.

End Assignment.

Section Scoring.

Context {geometry : Type} {lib : GeoLib geometry}.

Implicit Types (f g : frame geometry) (r : list (cell geometry)).

Lemma set_column_returns (name : string) (values : list (cell geometry)) f :
  length values = length (rows f) ->
  exists g, set_column name values f = Ok g.
Proof.
  intros El. unfold set_column.
  apply Nat.eqb_eq in El. rewrite El. cbn.
  destruct (index_of name (columns f)); eexists; reflexivity.
Qed.

Lemma frame_geometry_row f (geoms : list geometry) i r :
  frame_geometry f = Ok geoms -> nth_error (rows f) i = Some r ->
  exists x, nth_error geoms i = Some x /\ get_cell f "geometry" r = Ok (CGeom x).
Proof.
  intros Hg Hr. apply mapM_nth in Hg. destruct Hg as [_ Hg].
  destruct (Hg _ _ Hr) as (x & Hx & E). exists x. split; [exact Hx|].
  destruct (get_cell f "geometry" r) as [[s|y|y|]|]; cbn in E; try discriminate.
  injection E as ->. reflexivity.
Qed.

(** The frame after the loop over the candidates: row [i] is candidate
    [i] with its distance under ["Distance_m"]. *)
Lemma with_metrics_rows (app_union : geometry) f (geoms : list geometry)
    (metrics : list (float * float * string)) :
  wf_frame f = true ->
  frame_geometry f = Ok geoms ->
  mapM (candidate_metrics app_union (centroid app_union)) geoms = Ok metrics ->
  exists scored,
    with_metrics app_union f = Ok scored /\
    length (rows scored) = length metrics /\
    forall i r', nth_error (rows scored) i = Some r' ->
      exists x m,
        nth_error geoms i = Some x /\ nth_error metrics i = Some m /\
        get_cell scored "geometry" r' = Ok (CGeom x) /\
        get_cell scored "Distance_m" r' = Ok (CNum (dist_of m)).
Proof.
  intros Hw Hg Hm. unfold with_metrics. rewrite Hg. cbn. rewrite Hm. cbn.
  pose proof (mapM_nth _ _ _ Hg) as [Lg _].
  pose proof (mapM_nth _ _ _ Hm) as [Lm _].
  destruct (set_column_returns "Distance_m"
              (map (fun m => CNum (fst (fst m))) metrics) f) as [f1 E1].
  { rewrite List.length_map. congruence. }
  destruct (set_column_row _ _ _ _ Hw E1) as (Hw1 & L1 & _ & R1).
  destruct (set_column_returns "Direction (°)"
              (map (fun m => CNum (snd (fst m))) metrics) f1) as [f2 E2].
  { rewrite List.length_map. congruence. }
  destruct (set_column_row _ _ _ _ Hw1 E2) as (Hw2 & L2 & _ & R2).
  destruct (set_column_returns "Direction"
              (map (fun m => CStr (snd m)) metrics) f2) as [f3 E3].
  { rewrite List.length_map. congruence. }
  destruct (set_column_row _ _ _ _ Hw2 E3) as (Hw3 & L3 & _ & R3).
  rewrite E1. cbn. rewrite E2. cbn. rewrite E3.
  exists f3. split; [reflexivity|]. split; [congruence|].
  intros i r3 H3.
  destruct (R3 _ _ H3) as (r2 & _ & H2 & _ & _ & O3).
  destruct (R2 _ _ H2) as (r1 & _ & H1 & _ & _ & O2).
  destruct (R1 _ _ H1) as (r0 & v & H0 & Hv & G1 & O1).
  destruct (frame_geometry_row _ _ _ _ Hg H0) as (x & Hx & Gx).
  rewrite nth_error_map in Hv.
  destruct (nth_error metrics i) as [m|] eqn:Em; [|discriminate].
  injection Hv as <-.
  exists x, m. repeat split; try assumption.
  - rewrite O3, O2, O1 by discriminate. exact Gx.
  - rewrite O3, O2 by discriminate. exact G1.
Qed.

End Scoring.

Section Ordering.

Lemma fle_trans (x y z : float) :
  fle x y = true -> fle y z = true -> fle x z = true.
Proof.
  destruct x as [| s |a], y as [| t |b], z as [| u |c]; cbn; intros H1 H2;
    try discriminate; try assumption; try reflexivity;
    try (repeat match goal with b : bool |- _ => destruct b end;
         cbn in *; congruence).
  revert H1 H2.
  rewrite !Qle_bool_iff. apply Qle_trans.
Qed.

Lemma fle_refl (x : float) : is_nan x = false -> fle x x = true.
Proof.
  destruct x as [| s |a]; cbn; try discriminate; intros _.
  - destruct s; reflexivity.
  - apply Qle_bool_iff. apply Qle_refl.
Qed.

Lemma nan_split_none (i : nat) (v : list float) :
  forallb (fun x => negb (is_nan x)) v = true ->
  nan_split i v = (seq i (length v), []).
Proof.
  revert i. induction v as [|x v IH]; intros i; cbn; [reflexivity|].
  intros Hn. apply andb_true_iff in Hn. destruct Hn as [Hx Hv].
  rewrite (IH _ Hv). apply negb_true_iff in Hx. rewrite Hx. reflexivity.
Qed.

(** A chain of [<=] from its head reaches every later entry. *)
Lemma chain_head (v : list float) (i0 : nat) (order : list nat) :
  forallb (fun ij => fle (nth (fst ij) v NaN) (nth (snd ij) v NaN))
    (combine (i0 :: order) order) = true ->
  forall j, In j order -> fle (nth i0 v NaN) (nth j v NaN) = true.
Proof.
  revert i0. induction order as [|a order IH]; intros i0 Hc j Hj; [destruct Hj|].
  cbn in Hc. apply andb_true_iff in Hc. destruct Hc as [Ha Hc].
  destruct Hj as [->|Hj]; [exact Ha|].
  apply (fle_trans _ _ _ Ha). apply (IH a Hc j Hj).
Qed.

(** What [argsort_ok] gives: the order is a permutation of the
    positions, and its head is a position of a least key. *)
Lemma argsort_ok_positions (v : list float) (order : list nat) :
  argsort_ok v order = true ->
  length order = length v /\
  (forall j, (j < length v)%nat -> In j order) /\
  Forall (fun i => (i < length v)%nat) order.
Proof.
  unfold argsort_ok. rewrite !andb_true_iff. intros [[Hc Hl] _].
  apply Nat.eqb_eq in Hl. rewrite forallb_forall in Hc.
  assert (Hin : forall j, (j < length v)%nat -> In j order).
  { intros j Hj.
    assert (E : (count_occ Nat.eq_dec order j =? 1)%nat = true)
      by (apply Hc; apply in_seq; lia).
    apply Nat.eqb_eq in E. apply (count_occ_In Nat.eq_dec). lia. }
  repeat split; try assumption.
  apply List.Forall_forall. intros i Hi.
  assert (Hs : In i (seq 0 (length v))).
  { apply (List.NoDup_length_incl (l := seq 0 (length v)) (l' := order));
      [apply List.seq_NoDup | | | exact Hi].
    - rewrite List.length_seq. lia.
    - intros j Hj. apply in_seq in Hj. apply Hin. lia. }
  apply in_seq in Hs. lia.
Qed.

Lemma argsort_ok_head (v : list float) (order : list nat) :
  argsort_ok v order = true ->
  forallb (fun x => negb (is_nan x)) v = true ->
  v <> [] ->
  exists i0 rest,
    order = i0 :: rest /\ (i0 < length v)%nat /\
    forall j, (j < length v)%nat -> fle (nth i0 v NaN) (nth j v NaN) = true.
Proof.
  intros Hok Hn Hv.
  destruct (argsort_ok_positions _ _ Hok) as (Hl & Hin & Hlt).
  destruct order as [|i0 rest].
  { destruct v; [contradiction|discriminate]. }
  exists i0, rest. split; [reflexivity|].
  assert (Hi0 : (i0 < length v)%nat) by (inversion Hlt; assumption).
  split; [exact Hi0|]. intros j Hj.
  destruct (Hin j Hj) as [<-|Hr].
  - apply fle_refl. rewrite forallb_forall in Hn.
    apply negb_true_iff. apply Hn. apply nth_In. exact Hi0.
  - unfold argsort_ok in Hok. rewrite !andb_true_iff in Hok.
    destruct Hok as [_ Hc]. cbn [tl] in Hc.
    apply (chain_head v i0 rest Hc j Hr).
Qed.

End Ordering.

Section Selection.

Context {geometry : Type} {lib : GeoLib geometry}.

(** Without NaN keys pandas hands the whole column to numpy and uses the
    order that comes back. *)
Lemma nargsort_argsort (v : list float) :
  forallb (fun x => negb (is_nan x)) v = true ->
  argsort_ok v (argsort v) = true ->
  nargsort v = argsort v.
Proof.
  intros Hn Hok. unfold nargsort. rewrite (nan_split_none _ _ Hn).
  change (seq 0 (length v)) with (seq (length (@nil float)) (length v)).
  change v with ([] ++ v)%list at 2. rewrite take_order_seq.
  cbn [length]. rewrite List.app_nil_r.
  apply take_order_identity.
  apply (argsort_ok_positions _ _ Hok).
Qed.

End Selection.

(** C1, amended. The candidates are scored, every distance is a number,
    and numpy's [argsort] keeps its contract on the distances.  Then the
    evaluator returns one row of the scored frame, that row is candidate
    [i] of the input with its own distance, and no candidate has a smaller
    distance.  Which of several nearest candidates is returned is left to
    the sort. *)
Theorem nearest_feature_selects_a_minimum (geometry : Type) (lib : GeoLib geometry)
    (app_union : geometry) (f : frame geometry) (geoms : list geometry)
    (metrics : list (float * float * string)) :
  wf_frame f = true ->
  frame_geometry f = Ok geoms ->
  mapM (candidate_metrics app_union (centroid app_union)) geoms = Ok metrics ->
  metrics <> [] ->
  forallb (fun x => negb (is_nan x)) (map dist_of metrics) = true ->
  argsort_ok (map dist_of metrics) (argsort (map dist_of metrics)) = true ->
  exists scored i r x m,
    with_metrics app_union f = Ok scored /\
    nearest_feature app_union f
    = Ok (mkFrame (columns scored) [r] (frame_crs scored)) /\
    nth_error (rows scored) i = Some r /\
    nth_error geoms i = Some x /\
    candidate_metrics app_union (centroid app_union) x = Ok m /\
    get_cell scored "geometry" r = Ok (CGeom x) /\
    get_cell scored "Distance_m" r = Ok (CNum (dist_of m)) /\
    Forall (fun m' => fle (dist_of m) (dist_of m') = true) metrics.
Proof.
  intros Hw Hg Hm Hne Hnan Hok.
  destruct (with_metrics_rows app_union f geoms metrics Hw Hg Hm)
    as (scored & Hs & Hl & Hrows).
  set (keys := map dist_of metrics) in *.
  assert (Hk : mapM (fun r => let* c := get_cell scored "Distance_m" r in cell_float c)
                 (rows scored) = Ok keys).
  { apply mapM_pointwise.
    - unfold keys. rewrite List.length_map. congruence.
    - intros i r b Hr Hb. destruct (Hrows _ _ Hr) as (x & m & _ & Em & _ & Ed).
      rewrite Ed. cbn. unfold keys in Hb. rewrite nth_error_map, Em in Hb.
      injection Hb as <-. reflexivity. }
  assert (Hkne : keys <> []).
  { unfold keys. destruct metrics; [contradiction|discriminate]. }
  destruct (argsort_ok_head keys _ Hok Hnan Hkne) as (i0 & rest & Eo & Hi0 & Hmin).
  assert (Lk : length keys = length metrics) by (unfold keys; apply List.length_map).
  destruct (nth_error (rows scored) i0) as [r|] eqn:Er.
  2:{ apply nth_error_None in Er. lia. }
  destruct (Hrows _ _ Er) as (x & m & Ex & Em & Gx & Gd).
  exists scored, i0, r, x, m. repeat split; try assumption.
  - unfold nearest_feature. rewrite Hs. cbn. unfold keep_nearest, sort_values.
    rewrite Hk. cbn. rewrite (nargsort_argsort keys Hnan Hok), Eo.
    rewrite (take_order_cons _ _ _ r Er). reflexivity.
  - apply mapM_nth in Hm. destruct Hm as [_ Hm].
    destruct (Hm _ _ Ex) as (m' & Em' & Ec). congruence.
  - apply List.Forall_forall. intros m' Hin.
    apply In_nth_error in Hin. destruct Hin as [j Ej].
    assert (Hj : (j < length keys)%nat).
    { rewrite Lk. apply nth_error_Some. rewrite Ej. discriminate. }
    specialize (Hmin j Hj). unfold keys in Hmin.
    assert (E0 : nth_error (map dist_of metrics) i0 = Some (dist_of m))
      by (rewrite nth_error_map, Em; reflexivity).
    assert (E1 : nth_error (map dist_of metrics) j = Some (dist_of m'))
      by (rewrite nth_error_map, Ej; reflexivity).
    rewrite (nth_error_nth _ _ NaN E0), (nth_error_nth _ _ NaN E1) in Hmin.
    exact Hmin.
Qed.

(** The worked example of the specification: of three candidates at 50,
    10 and 30 metres the one at 10 metres is returned, and no other. *)
Example nearest_of_three_stations :
  map dist_of (Nearest.scores Sessions.stored_stations) = [lit 50; lit 10; lit 30] /\
  nearest_feature Scenario.area Sessions.stored_stations
  = Ok (mkFrame ["name"; "code"; "geometry"; "Distance_m"; "Direction (°)"; "Direction"]
          [[CStr "Y"; CStr "124"; CGeom (Scenario.north 10);
            CNum (lit 10); CNum (lit 0); CStr "N"]]
          (Some (EPSG 29903))).
Proof. split; vm_compute; reflexivity. Qed.

(** C1, as stated, fails: stations 3 and 8 are both at the least
    distance, station 3 comes first in input order, and the evaluator
    returns station 8.  The order that numpy's quicksort gives is a
    correct one ([argsort_ok]); it is not the stable one. *)
Lemma nearest_feature_tie_is_not_first :
  map dist_of (Nearest.scores Nearest.eighteen) = map (fun d => lit (inject_Z d)) Nearest.spacing /\
  first_nearest (map dist_of (Nearest.scores Nearest.eighteen)) = Some 3%nat /\
  nth_error (Nearest.names Nearest.eighteen) 3 = Some (Ok (CStr "S3")) /\
  argsort_ok (map dist_of (Nearest.scores Nearest.eighteen))
    (argsort (map dist_of (Nearest.scores Nearest.eighteen))) = true /\
  nearest_feature Scenario.area Nearest.eighteen
  = Ok (mkFrame ["name"; "code"; "geometry"; "Distance_m"; "Direction (°)"; "Direction"]
          [[CStr "S8"; CStr "108"; CGeom (Scenario.north 1);
            CNum (lit 1); CNum (lit 0); CStr "N"]]
          (Some (EPSG 29903))).
Proof. repeat split; vm_compute; reflexivity. Qed.

(** The theorem on the three stations of the worked example: the
    hypotheses hold there by computation. *)
Lemma nearest_feature_of_three_stations :
  exists scored i r x m,
    with_metrics Scenario.area Sessions.stored_stations = Ok scored /\
    nearest_feature Scenario.area Sessions.stored_stations
    = Ok (mkFrame (columns scored) [r] (frame_crs scored)) /\
    nth_error (rows scored) i = Some r /\
    nth_error [Scenario.north 50; Scenario.north 10; Scenario.north 30] i = Some x /\
    candidate_metrics Scenario.area (centroid Scenario.area) x = Ok m /\
    get_cell scored "geometry" r = Ok (CGeom x) /\
    get_cell scored "Distance_m" r = Ok (CNum (dist_of m)) /\
    Forall (fun m' => fle (dist_of m) (dist_of m') = true)
      (Nearest.scores Sessions.stored_stations).
Proof.
  apply (nearest_feature_selects_a_minimum BoxWorld.box BoxWorld.box_lib
           Scenario.area Sessions.stored_stations
           [Scenario.north 50; Scenario.north 10; Scenario.north 30]
           (Nearest.scores Sessions.stored_stations)).
  - reflexivity.
  - reflexivity.
  - vm_compute. reflexivity.
  - vm_compute. discriminate.
  - vm_compute. reflexivity.
  - vm_compute. reflexivity.
Defined.

(** The session of the counterexample: the eighteen stations are
    downloaded, the analysis runs, and the CSV file holds station 8. *)
Example eighteen_stations_session :
  Exports.saved
    (session Nearest.eighteen_world [PickApi 1; PickFields ["name"]; Run]
       (Scenario.opened Nearest.eighteen_world))
  = [(["name"; "Distance_m"; "Direction (°)"; "Direction"],
      [[CStr "S8"; CNum (lit 1); CNum (lit 0); CStr "N"]])].
Proof. vm_compute. reflexivity. Qed.

(* ===================================================================== *)
(** * Further properties of the code *)
(* ===================================================================== *)

(** ** Compass labels and exported bearings *)

Lemma opposite_sector (i : Z) :
  (0 <= i < 8)%Z ->
  exists l, list_index dirs8 i = Ok l /\
            list_index dirs8 ((i + 4) mod 8) = Ok (opposite l).
Proof.
  intros Hi.
  assert (E : (i = 0 \/ i = 1 \/ i = 2 \/ i = 3 \/ i = 4 \/ i = 5 \/ i = 6 \/ i = 7)%Z)
    by lia.
  repeat (destruct E as [-> | E]); try subst i; eexists; split; reflexivity.
Qed.

(** Turning a whole-degree bearing by 180 degrees gives the label across
    the rose. *)
Theorem azimuth_to_dir_opposite (n : Z) :
  (Z.abs n <= 2 ^ 50 - 180)%Z ->
  exists l,
    azimuth_to_dir (Fin (inject_Z n)) = Ok l /\
    azimuth_to_dir (Fin (inject_Z (n + 180))) = Ok (opposite l).
Proof.
  intros Hn.
  rewrite (PyFloatFacts.azimuth_to_dir_int (inject_Z n) n) by (reflexivity || lia).
  rewrite (PyFloatFacts.azimuth_to_dir_int (inject_Z (n + 180)) (n + 180))
    by (reflexivity || lia).
  replace (2 * (n + 180) + 45)%Z with (2 * n + 45 + 4 * 90)%Z by lia.
  rewrite Z.div_add by lia.
  rewrite <- Zplus_mod_idemp_l.
  apply opposite_sector. apply Z.mod_pos_bound. lia.
Qed.

(** The bearing 30 is NE, the bearing 210 is SW. *)
Lemma azimuth_to_dir_opposite_of_30 :
  exists l,
    azimuth_to_dir (Fin (inject_Z 30)) = Ok l /\
    azimuth_to_dir (Fin (inject_Z (30 + 180))) = Ok (opposite l).
Proof. apply (azimuth_to_dir_opposite 30). vm_compute. discriminate. Defined.

(** [round(angle, 2)] of a bearing in [[0, 360)] is a double in
    [[0, 360]]: the exported bearing can reach 360. *)
Theorem round2_bearing_range (b : Q) :
  (0 <= b)%Q -> (b < 360)%Q ->
  exists r, round2 (Fin b) = Fin r /\ (0 <= r)%Q /\ (r <= 360)%Q.
Proof.
  intros H0 H1. unfold round2.
  assert (E : Qle_bool 0 b = true) by (apply Qle_bool_iff; exact H0).
  rewrite E.
  assert (L : (0 <= rne (b * 100))%Z).
  { apply PyFloatFacts.rne_ge_Z. change (inject_Z 0) with 0%Q. nra. }
  assert (U : (rne (b * 100) <= 36000)%Z).
  { apply PyFloatFacts.rne_le_Z. change (inject_Z 36000) with 36000%Q. nra. }
  set (n := rne (b * 100)) in *.
  assert (Q0 : (0 <= inject_Z n / 100)%Q).
  { apply Qle_shift_div_l; [reflexivity|]. rewrite Qmult_0_l.
    change 0%Q with (inject_Z 0). rewrite <- Zle_Qle. exact L. }
  assert (Q1 : (inject_Z n / 100 <= 360)%Q).
  { apply Qle_shift_div_r; [reflexivity|].
    change (360 * 100)%Q with (inject_Z 36000). rewrite <- Zle_Qle. exact U. }
  assert (Mx : (360 <= maxf)%Q) by (vm_compute; discriminate).
  destruct (PyFloatFacts.rnd_bounded (inject_Z n / 100)) as [Hr _].
  { apply PyFloatFacts.Qabs_le_iff. split; lra. }
  rewrite Hr. eexists. split; [reflexivity|]. split.
  - rewrite <- (PyFloatFacts.round_q_Z 0) by (vm_compute; reflexivity).
    apply PyFloatFacts.round_q_mono. exact Q0.
  - rewrite <- (PyFloatFacts.round_q_Z 360) by (vm_compute; reflexivity).
    apply PyFloatFacts.round_q_mono. exact Q1.
Qed.

(** The bearing 359.996 is exported as 360.0; its label is N. *)
Lemma round2_bearing_range_at_the_top :
  exists r, round2 (Fin (359996 # 1000)) = Fin r /\ (0 <= r)%Q /\ (r <= 360)%Q.
Proof.
  apply (round2_bearing_range (359996 # 1000)); vm_compute; [discriminate|reflexivity].
Defined.

Example round2_reaches_360 :
  round2 (lit 359.996) = lit 360 /\ azimuth_to_dir (lit 359.996) = Ok "N".
Proof. split; vm_compute; reflexivity. Qed.

(** The convention of [azimuth_geographic], "0 points to North; increases
    clockwise": a point due north, east, south or west of the first one
    has bearing 0, 90, 180 or 270, and the label N, E, S or W. *)
Theorem azimuth_geographic_cardinal
    (f : float -> float -> float) (h : heading) (p1 p2 : point) :
  atan2_on_axes f ->
  heads h (fsub (px p2) (px p1)) (fsub (py p2) (py p1)) ->
  azimuth_geographic f p1 p2 = Ok (Fin (heading_degrees h)) /\
  azimuth_to_dir (Fin (heading_degrees h)) = Ok (heading_label h).
Proof.
  intros Hf [a [Ha Hh]]. destruct (Hf a Ha) as (F1 & F2 & F3 & F4).
  unfold azimuth_geographic.
  destruct h; destruct Hh as [-> ->];
    rewrite ?F1, ?F2, ?F3, ?F4; split; vm_compute; reflexivity.
Qed.

Lemma atan8_on_axes : atan2_on_axes BoxWorld.atan8.
Proof.
  intros a Ha. unfold BoxWorld.atan8, BoxWorld.sign. cbn [is_nan orb].
  assert (P : Qle_bool a 0 = false).
  { destruct (Qle_bool a 0) eqn:E; [|reflexivity].
    apply Qle_bool_iff in E. lra. }
  assert (N : Qle_bool 0 (- a) = false).
  { destruct (Qle_bool 0 (- a)) eqn:E; [|reflexivity].
    apply Qle_bool_iff in E. lra. }
  assert (P' : Qle_bool 0 a = true) by (apply Qle_bool_iff; lra).
  assert (N' : Qle_bool (- a) 0 = true) by (apply Qle_bool_iff; lra).
  cbn [flt]. rewrite ?P, ?N, ?P', ?N'. cbn.
  repeat split; reflexivity.
Qed.

(** A station north of the application area of the worked example. *)
Lemma azimuth_geographic_cardinal_north :
  azimuth_geographic BoxWorld.atan8 (mkPoint (lit 0) (lit 0)) (mkPoint (lit 0) (lit 500))
  = Ok (Fin (heading_degrees North)) /\
  azimuth_to_dir (Fin (heading_degrees North)) = Ok (heading_label North).
Proof.
  apply (azimuth_geographic_cardinal BoxWorld.atan8 North).
  - exact atan8_on_axes.
  - exists 500%Q. split; [reflexivity|]. split; vm_compute; reflexivity.
Defined.


(** ** The normaliser: what it returns in every case *)

Section NormaliserCases.

Context {geometry : Type} `{GeoLib geometry}.

Lemma set_crs_data (code : Z) (f g : frame geometry) :
  set_crs code f = Ok g ->
  columns g = columns f /\ rows g = rows f /\
  (frame_crs f = None -> frame_crs g = Some (EPSG code)).
Proof.
  unfold set_crs. destruct (negb (has_geometry f)); [discriminate|].
  destruct (frame_crs f) as [c|].
  - destruct (to_epsg c) as [n|]; [|discriminate].
    destruct (n =? code)%Z; [|discriminate].
    intros [= <-]. repeat split. discriminate.
  - intros [= <-]. repeat split.
Qed.

Lemma mapM_length {A B : Type} (f : A -> result B) (l : list A) (out : list B) :
  mapM f l = Ok out -> length out = length l.
Proof. intros E. apply (mapM_nth _ _ _ E). Qed.

Lemma to_crs_data (code : Z) (f g : frame geometry) :
  to_crs code f = Ok g ->
  columns g = columns f /\ length (rows g) = length (rows f) /\
  frame_crs g = Some (EPSG code).
Proof.
  unfold to_crs. destruct (frame_crs f); [|discriminate].
  destruct (mapM _ (rows f)) as [data|] eqn:E; cbn; [|discriminate].
  intros [= <-]. cbn. repeat split. apply (mapM_length _ _ _ E).
Qed.

End NormaliserCases.

Ltac trace_done d :=
  destruct d; unfold set_trace; cbn;
  rewrite <- ?List.app_assoc, ?List.app_nil_r; reflexivity.

Ltac cases_done :=
  repeat split;
  first [ reflexivity | assumption | congruence
        | intros; first [discriminate | assumption | congruence | reflexivity] ].

(** The cases of [_to_metric_gdf]. *)
Lemma to_metric_gdf_cases (geometry : Type) (lib : GeoLib geometry)
    (gdf : frame geometry) (d : dialog geometry) :
  exists out changed orig t,
    _to_metric_gdf gdf d = (Ok (out, changed, orig), set_trace (trace d ++ t) d) /\
    forallb is_log t = true /\
    columns out = columns gdf /\
    length (rows out) = length (rows gdf) /\
    (changed = true -> frame_crs out = Some (EPSG 29903)) /\
    (changed = false -> rows out = rows gdf).
Proof.
  unfold _to_metric_gdf.
  destruct (frame_crs gdf) as [c|] eqn:Hc.
  - unfold try_except, bindM, lift, log, emit, ret. cbn.
    destruct (epsg_is 29903 c); cbn.
    + exists gdf, false, (Some c), []. split; [trace_done d | cases_done].
    + destruct (to_crs 29903 gdf) as [g|e] eqn:Ht; cbn.
      * destruct (to_crs_data _ _ _ Ht) as (C & L & R).
        exists g, true, (Some c), [Log "Reprojected layer to EPSG:29903 (Irish Grid)."].
        split; [trace_done d | cases_done].
      * exists gdf, false, (Some c),
          [Log ("CRS conversion to EPSG:29903 failed: " +:+ exn_text e)].
        split; [trace_done d | cases_done].
  - destruct (set_crs 4326 gdf) as [gdf'|e0] eqn:Hs.
    + destruct (set_crs_data _ _ _ Hs) as (C & R & K). rewrite (K Hc).
      unfold try_except, bindM, lift, log, emit, ret. cbn.
      destruct (to_crs 29903 gdf') as [g|e] eqn:Ht; cbn.
      * destruct (to_crs_data _ _ _ Ht) as (C' & L' & R').
        exists g, true, (Some (EPSG 4326)),
          [Log "Layer has no CRS; assumed EPSG:4326.";
           Log "Reprojected layer to EPSG:29903 (Irish Grid)."].
        split; [trace_done d | cases_done].
      * exists gdf', false, (Some (EPSG 4326)),
          [Log "Layer has no CRS; assumed EPSG:4326.";
           Log ("CRS conversion to EPSG:29903 failed: " +:+ exn_text e)].
        split; [trace_done d | cases_done].
    + unfold bindM, log, emit, ret. cbn.
      exists gdf, false, None, [Log "Unable to set CRS for the layer."].
      split; [trace_done d | cases_done].
Qed.

(** [_to_metric_gdf] never raises and touches nothing but the log.  It
    keeps the columns and the number of rows; when it reports a change the
    result is in EPSG:29903, and when it reports none the rows are the
    ones it was given. *)
Theorem to_metric_gdf_returns (geometry : Type) (lib : GeoLib geometry)
    (gdf : frame geometry) (d : dialog geometry) :
  exists out changed orig t,
    _to_metric_gdf gdf d = (Ok (out, changed, orig), set_trace (trace d ++ t) d) /\
    forallb is_log t = true /\
    columns out = columns gdf /\
    length (rows out) = length (rows gdf) /\
    (changed = true -> frame_crs out = Some (EPSG 29903)) /\
    (changed = false -> rows out = rows gdf).
Proof. apply to_metric_gdf_cases. Qed.

(** When the reprojection raises, the collection comes back as it was,
    flagged as not changed, and the failure is logged with its message. *)
Theorem to_metric_gdf_reprojection_fails (geometry : Type) (lib : GeoLib geometry)
    (gdf : frame geometry) (c : crs) (e : exn) (d : dialog geometry) :
  frame_crs gdf = Some c ->
  to_epsg c <> Some 29903%Z ->
  to_crs 29903 gdf = Raise e ->
  _to_metric_gdf gdf d
  = (Ok (gdf, false, Some c),
     set_trace (trace d ++ [Log ("CRS conversion to EPSG:29903 failed: "
                                 +:+ exn_text e)]) d).
Proof.
  intros Hc He Ht. unfold _to_metric_gdf. rewrite Hc.
  unfold try_except, bindM, lift, log, emit, ret. cbn.
  assert (E : epsg_is 29903 c = false).
  { unfold epsg_is. destruct (to_epsg c) as [n|]; [|reflexivity].
    apply Z.eqb_neq. congruence. }
  rewrite E. cbn. rewrite Ht. reflexivity.
Qed.

(** A layer in an unknown local system cannot be reprojected. *)
Lemma to_metric_gdf_local_system :
  _to_metric_gdf local_gdf Scenario.new_dialog
  = (Ok (local_gdf, false, Some (OtherCRS "LOCAL_CS")),
     set_trace (trace Scenario.new_dialog
                ++ [Log ("CRS conversion to EPSG:29903 failed: "
                         +:+ exn_text (LibraryError "Invalid projection"))])
       Scenario.new_dialog).
Proof.
  apply (to_metric_gdf_reprojection_fails BoxWorld.box BoxWorld.box_lib local_gdf
           (OtherCRS "LOCAL_CS") (LibraryError "Invalid projection")
           Scenario.new_dialog).
  - reflexivity.
  - discriminate.
  - reflexivity.
Defined.

(** A collection without reference system and without geometry column
    cannot be given one: it comes back as it was, with no original
    system, and the failure is logged. *)
Theorem to_metric_gdf_without_geometry (geometry : Type) (lib : GeoLib geometry)
    (gdf : frame geometry) (d : dialog geometry) :
  frame_crs gdf = None ->
  has_geometry gdf = false ->
  _to_metric_gdf gdf d
  = (Ok (gdf, false, None),
     set_trace (trace d ++ [Log "Unable to set CRS for the layer."]) d).
Proof.
  intros Hc Hg. unfold _to_metric_gdf. rewrite Hc.
  unfold set_crs. rewrite Hg. reflexivity.
Qed.

(** A table of two attribute rows without a geometry column. *)
Lemma to_metric_gdf_plain_table :
  _to_metric_gdf (mkFrame ["id"] [[CStr "A1"]] None) Scenario.new_dialog
  = (Ok (mkFrame ["id"] [[CStr "A1"]] None, false, None),
     set_trace (trace Scenario.new_dialog ++ [Log "Unable to set CRS for the layer."])
       Scenario.new_dialog).
Proof.
  apply (to_metric_gdf_without_geometry BoxWorld.box BoxWorld.box_lib
           (mkFrame ["id"] [[CStr "A1"]] None) Scenario.new_dialog); reflexivity.
Defined.


(** ** [populate_layers]: the combos and the layer lists *)

Section Populate.

Context {geometry : Type} `{GeoLib geometry}.
Variable w : world geometry.

Lemma add_project_layers (ls : list layer) (d : dialog geometry) :
  let d' := fold_left add_project_layer ls d in
  shp_layers d' = (shp_layers d ++ List.filter is_application_layer ls)%list /\
  api_layers d' = (api_layers d ++ List.filter is_api_layer ls)%list /\
  items (combo_app d')
  = (items (combo_app d) ++ map layer_name (List.filter is_application_layer ls))%list /\
  items (combo_api d')
  = (items (combo_api d) ++ map layer_name (List.filter is_api_layer ls))%list /\
  wfs_layers_info d' = wfs_layers_info d /\
  trace d' = trace d.
Proof.
  revert d. induction ls as [|l ls IH]; intros d; cbn zeta.
  - cbn. rewrite !List.app_nil_r. repeat split.
  - cbn [fold_left]. specialize (IH (add_project_layer d l)). cbn zeta in IH.
    destruct IH as (I1 & I2 & I3 & I4 & I5 & I6).
    rewrite I1, I2, I3, I4, I5, I6.
    unfold add_project_layer, is_api_layer, is_application_layer.
    cbn [List.filter].
    destruct (layer_is_vector l); cbn [negb andb];
      [|rewrite ?List.app_nil_r; repeat split].
    destruct (_ || _); cbn;
      rewrite <- ?List.app_assoc; repeat split.
Qed.

Lemma add_wfs_layers (contents : list (string * string)) (d : dialog geometry) :
  let d' := fold_left add_wfs_layer contents d in
  shp_layers d' = shp_layers d /\
  api_layers d' = api_layers d /\
  items (combo_app d') = items (combo_app d) /\
  items (combo_api d') = (items (combo_api d) ++ map wfs_display_name contents)%list /\
  trace d' = trace d.
Proof.
  revert d. induction contents as [|[n t] cs IH]; intros d; cbn zeta.
  - cbn. rewrite List.app_nil_r. repeat split.
  - cbn [fold_left]. specialize (IH (add_wfs_layer d (n, t))). cbn zeta in IH.
    destruct IH as (I1 & I2 & I3 & I4 & I5).
    rewrite I1, I2, I3, I4, I5. cbn. rewrite <- List.app_assoc. repeat split.
Qed.

Lemma startswith_append (p s : string) : PyStr.startswith p (p +:+ s) = true.
Proof.
  unfold PyStr.startswith. induction p as [|a p IH].
  - destruct s; reflexivity.
  - change (String a p +:+ s) with (String a (p +:+ s)).
    cbn [String.prefix].
    destruct (ascii_dec a a) as [_|N]; [exact IH|contradiction].
Qed.

(** Every type name that the catalogue loop registers starts with
    [EPA:], under an entry of the API combo. *)
Lemma add_wfs_layers_info (contents : list (string * string)) (d : dialog geometry) :
  (forall k t, wfs_layers_info d !! k = Some t ->
     PyStr.startswith "EPA:" t = true /\ In k (items (combo_api d))) ->
  forall k t, wfs_layers_info (fold_left add_wfs_layer contents d) !! k = Some t ->
    PyStr.startswith "EPA:" t = true /\
    In k (items (combo_api (fold_left add_wfs_layer contents d))).
Proof.
  revert d. induction contents as [|[n title] cs IH]; intros d Hd; [exact Hd|].
  cbn [fold_left]. apply IH. intros k t. cbn.
  destruct (decide (title +:+ " (" +:+
                    (if PyStr.startswith "EPA:" n then n else "EPA:" +:+ n) +:+ ")" = k))
    as [<-|Hne].
  - rewrite lookup_insert_eq. intros [= <-]. split.
    + destruct (PyStr.startswith "EPA:" n) eqn:E; [exact E|apply startswith_append].
    + apply in_or_app. right. left. reflexivity.
  - rewrite lookup_insert_ne by exact Hne. intros Hk.
    destruct (Hd k t Hk) as [P I]. split; [exact P|].
    apply in_or_app. left. exact I.
Qed.

End Populate.

(** After [populate_layers] the vector layers of the project are split,
    in project order, between the two layer lists, and the other layers
    of the project are in neither; the application combo shows the names
    of [shp_layers] entry by entry, and the API combo shows the names of
    [api_layers] followed by the entries of the WFS catalogue.  So the
    index of an entry of the application combo is the index of its layer
    in [shp_layers]. *)
Theorem populate_layers_lists (geometry : Type) (lib : GeoLib geometry)
    (w : world geometry) (d : dialog geometry) :
  let d' := snd (populate_layers w d) in
  shp_layers d' = List.filter is_application_layer (project_layers w) /\
  api_layers d' = List.filter is_api_layer (project_layers w) /\
  items (combo_app d') = map layer_name (shp_layers d') /\
  items (combo_api d')
  = (map layer_name (api_layers d')
     ++ match wfs_contents w with
        | Ok contents => map wfs_display_name contents
        | Raise _ => []
        end)%list.
Proof.
  cbn zeta. unfold populate_layers.
  set (d0 := mkDialog ∅ ∅ [] [] combo_clear combo_clear
               (fields_list d) (selectedItems d) (trace d)).
  destruct (add_project_layers (project_layers w) d0) as (P1 & P2 & P3 & P4 & _ & _).
  set (d1 := fold_left add_project_layer (project_layers w) d0) in *.
  cbn in P1, P2, P3, P4.
  unfold try_except, bindM, emit, lift, get, log. cbn.
  destruct (wfs_contents w) as [contents|e]; cbn.
  - destruct (add_wfs_layers contents (set_trace (trace d1 ++ [HttpGet
                 "https://gis.epa.ie/geoserver/EPA/wfs"
                 [("service", PStr "WFS"); ("version", PStr "1.1.0");
                  ("request", PStr "GetCapabilities")]]) d1))
      as (W1 & W2 & W3 & W4 & _).
    cbn in W1, W2, W3, W4.
    match goal with
    | |- context [fold_left add_wfs_layer contents ?x] =>
        set (d2 := fold_left add_wfs_layer contents x) in *
    end.
    assert (S1 : shp_layers d2 = List.filter is_application_layer (project_layers w))
      by congruence.
    assert (S2 : api_layers d2 = List.filter is_api_layer (project_layers w))
      by congruence.
    assert (S3 : items (combo_app d2) = map layer_name (shp_layers d2)) by congruence.
    assert (S4 : items (combo_api d2)
                 = (map layer_name (api_layers d2) ++ map wfs_display_name contents)%list)
      by congruence.
    clear W1 W2 W3 W4 P1 P2 P3 P4. clearbody d2. cbn.
    destruct (shp_layers d2) eqn:E; cbn; rewrite ?E; repeat split; assumption.
  - assert (S3 : items (combo_app d1) = map layer_name (shp_layers d1)) by congruence.
    assert (S4 : items (combo_api d1) = (map layer_name (api_layers d1) ++ [])%list)
      by (rewrite List.app_nil_r; congruence).
    clear P3 P4. clearbody d1. cbn. rewrite List.app_nil_r in S4.
    rewrite List.app_nil_r.
    destruct (shp_layers d1) eqn:E; cbn; rewrite ?E; repeat split; assumption.
Qed.

(** A raster layer is in no list and in no combo, whatever its name. *)
Example populate_layers_skips_a_raster_layer :
  let d' := snd (populate_layers relief_world Scenario.new_dialog) in
  shp_layers d' = [Scenario.area_layer] /\
  api_layers d' = [Scenario.arcgis_layer] /\
  items (combo_app d') = ["area.shp"] /\
  items (combo_api d') = ["Rivers"; "Monitoring stations (EPA:STATIONS)"].
Proof. repeat split. Qed.

(** Every type name in [wfs_layers_info] after [populate_layers] starts
    with [EPA:] (so it is not empty), and its key is an entry of the API
    combo. *)
Theorem populate_layers_type_names (geometry : Type) (lib : GeoLib geometry)
    (w : world geometry) (d : dialog geometry) (k t : string) :
  wfs_layers_info (snd (populate_layers w d)) !! k = Some t ->
  PyStr.startswith "EPA:" t = true /\
  In k (items (combo_api (snd (populate_layers w d)))).
Proof.
  unfold populate_layers.
  set (d0 := mkDialog ∅ ∅ [] [] combo_clear combo_clear
               (fields_list d) (selectedItems d) (trace d)).
  destruct (add_project_layers (project_layers w) d0) as (_ & _ & _ & _ & P5 & _).
  set (d1 := fold_left add_project_layer (project_layers w) d0) in *.
  cbn in P5. clearbody d1.
  unfold try_except, bindM, emit, lift, get, log. cbn.
  destruct (wfs_contents w) as [contents|e]; cbn.
  - match goal with
    | |- context [fold_left add_wfs_layer contents ?x] =>
        pose proof (add_wfs_layers_info contents x) as Hinfo;
        set (d2 := fold_left add_wfs_layer contents x) in *
    end.
    assert (Hk : forall k t, wfs_layers_info d2 !! k = Some t ->
                   PyStr.startswith "EPA:" t = true /\ In k (items (combo_api d2))).
    { apply Hinfo. cbn. rewrite P5. intros k' t' Hl.
      rewrite lookup_empty in Hl. discriminate. }
    clearbody d2. clear Hinfo.
    destruct (shp_layers d2); cbn; intros Hl; apply (Hk _ _ Hl).
  - destruct (shp_layers d1); cbn; rewrite P5, lookup_empty; discriminate.
Qed.

(** The worked example: the catalogue entry [STATIONS] is registered as
    [EPA:STATIONS]. *)
Lemma populate_layers_stations_type_name :
  PyStr.startswith "EPA:" "EPA:STATIONS" = true /\
  In Scenario.wfs_display
    (items (combo_api (snd (populate_layers Sessions.stations_world Scenario.new_dialog)))).
Proof.
  apply (populate_layers_type_names BoxWorld.box BoxWorld.box_lib
           Sessions.stations_world Scenario.new_dialog
           Scenario.wfs_display "EPA:STATIONS").
  vm_compute. reflexivity.
Defined.

(** When the WFS catalogue cannot be read, the call still returns: the
    failure is logged directly after the request, which is the only
    request of the call, no WFS layer is registered, and the API combo
    shows the API layers of the project only. *)
Theorem populate_layers_wfs_failure (geometry : Type) (lib : GeoLib geometry)
    (w : world geometry) (d : dialog geometry) (e : exn) :
  wfs_contents w = Raise e ->
  let d' := snd (populate_layers w d) in
  fst (populate_layers w d) = Ok tt /\
  wfs_layers_info d' = ∅ /\
  items (combo_api d') = map layer_name (List.filter is_api_layer (project_layers w)) /\
  exists before after : list (event geometry),
    trace d'
    = (trace d ++ before
       ++ [HttpGet "https://gis.epa.ie/geoserver/EPA/wfs"
             [("service", PStr "WFS"); ("version", PStr "1.1.0");
              ("request", PStr "GetCapabilities")];
           Log ("Failed to access WFS service: " +:+ exn_text e)]
       ++ after)%list /\
    http_count (before ++ after) = 0%nat.
Proof.
  intros He. cbn zeta. unfold populate_layers.
  set (d0 := mkDialog ∅ ∅ [] [] combo_clear combo_clear
               (fields_list d) (selectedItems d) (trace d)).
  destruct (add_project_layers (project_layers w) d0) as (_ & _ & _ & P4 & P5 & P6).
  set (d1 := fold_left add_project_layer (project_layers w) d0) in *.
  cbn in P4, P5, P6. clearbody d1.
  unfold try_except, bindM, emit, lift, get, log. cbn. rewrite He. cbn.
  destruct (shp_layers d1); cbn; rewrite P4, P5, P6, <- ?List.app_assoc;
    (split; [reflexivity|]); (split; [reflexivity|]); (split; [reflexivity|]);
    exists [], []; split; reflexivity.
Qed.

(** The dialog opened while the WFS service refuses the connection. *)
Lemma populate_layers_offline :
  let d' := snd (populate_layers offline_world Scenario.new_dialog) in
  fst (populate_layers offline_world Scenario.new_dialog) = Ok tt /\
  wfs_layers_info d' = ∅ /\
  items (combo_api d')
  = map layer_name (List.filter is_api_layer (project_layers offline_world)) /\
  exists before after : list (event BoxWorld.box),
    trace d'
    = (trace Scenario.new_dialog ++ before
       ++ [HttpGet "https://gis.epa.ie/geoserver/EPA/wfs"
             [("service", PStr "WFS"); ("version", PStr "1.1.0");
              ("request", PStr "GetCapabilities")];
           Log ("Failed to access WFS service: "
                +:+ exn_text (LibraryError "Connection refused"))]
       ++ after)%list /\
    http_count (before ++ after) = 0%nat.
Proof.
  apply (populate_layers_wfs_failure BoxWorld.box BoxWorld.box_lib offline_world
           Scenario.new_dialog (LibraryError "Connection refused")).
  reflexivity.
Defined.


(** ** The filter [gdf[gdf.geometry.intersects(buffer_geom)]] *)

Section Filter.

Context {geometry : Type} `{GeoLib geometry}.

Lemma select_mask_filter {A : Type} (f : A -> result bool) (l : list A)
    (mask : list bool) :
  mapM f l = Ok mask ->
  select_mask mask l
  = List.filter (fun a => match f a with Ok true => true | _ => false end) l.
Proof.
  revert mask. induction l as [|a l IH]; intros mask; cbn.
  - intros [= <-]. reflexivity.
  - destruct (f a) as [b|]; cbn; [|discriminate].
    destruct (mapM f l) as [bs|]; cbn; [|discriminate].
    intros [= <-]. cbn. rewrite (IH bs eq_refl). destruct b; reflexivity.
Qed.

Lemma cell_in_reach (b : geometry) (gdf : frame geometry) (r : list (cell geometry)) :
  match (let* c := get_cell gdf "geometry" r in cell_intersects b c) with
  | Ok true => true
  | _ => false
  end = in_reach b gdf r.
Proof.
  unfold in_reach. destruct (get_cell gdf "geometry" r) as [[s|x|g|]|]; cbn;
    try reflexivity.
  destruct (intersects g b); reflexivity.
Qed.

Lemma within_buffer_rows (b : geometry) (gdf pre : frame geometry) :
  within_buffer b gdf = Ok pre ->
  columns pre = columns gdf /\
  frame_crs pre = frame_crs gdf /\
  rows pre = List.filter (in_reach b gdf) (rows gdf).
Proof.
  unfold within_buffer.
  destruct (mapM _ (rows gdf)) as [mask|] eqn:E; cbn; [|discriminate].
  intros [= <-]. cbn. split; [reflexivity|]. split; [reflexivity|].
  rewrite (select_mask_filter _ _ _ E).
  apply List.filter_ext. intros r. apply cell_in_reach.
Qed.

(** The rows in reach have geometries, and these meet the buffer. *)
Lemma geometry_in_reach (b : geometry) (gdf : frame geometry)
    (l : list (list (cell geometry))) :
  exists geoms,
    mapM (fun r => let* c := get_cell gdf "geometry" r in cell_geometry c)
      (List.filter (in_reach b gdf) l) = Ok geoms /\
    forallb (fun g => intersects g b) geoms = true.
Proof.
  induction l as [|r l (geoms & E & F)]; [exists []; split; reflexivity|].
  cbn [List.filter]. destruct (in_reach b gdf r) eqn:R; [|exists geoms; tauto].
  unfold in_reach in R.
  destruct (get_cell gdf "geometry" r) as [[s|x|g|]|] eqn:G; try discriminate.
  exists (g :: geoms). split.
  - cbn [mapM]. rewrite G. cbn. rewrite E. reflexivity.
  - cbn. rewrite R. exact F.
Qed.

Lemma within_buffer_reach (b : geometry) (gdf pre : frame geometry) :
  within_buffer b gdf = Ok pre ->
  frame_crs pre = frame_crs gdf /\
  exists geoms, frame_geometry pre = Ok geoms /\
                forallb (fun g => intersects g b) geoms = true.
Proof.
  intros E. destruct (within_buffer_rows _ _ _ E) as (C & S & R).
  split; [exact S|].
  destruct (geometry_in_reach b gdf (rows gdf)) as (geoms & G & F).
  exists geoms. split; [|exact F].
  unfold frame_geometry, get_cell. rewrite C, R. exact G.
Qed.

End Filter.

(** The filter keeps the columns and the reference system; its rows are
    the rows of the collection that have a geometry meeting the buffer,
    in their order and as often as they occur.  A row without geometry
    is dropped. *)
Theorem within_buffer_keeps_the_rows_in_reach (geometry : Type) (lib : GeoLib geometry)
    (b : geometry) (gdf pre : frame geometry) :
  within_buffer b gdf = Ok pre ->
  columns pre = columns gdf /\
  frame_crs pre = frame_crs gdf /\
  rows pre = List.filter (in_reach b gdf) (rows gdf) /\
  forall r, In r (rows pre) <->
            In r (rows gdf) /\
            exists g, get_cell gdf "geometry" r = Ok (CGeom g) /\ intersects g b = true.
Proof.
  intros E. destruct (within_buffer_rows _ _ _ E) as (C & S & R).
  split; [exact C|]. split; [exact S|]. split; [exact R|].
  intros r. rewrite R, List.filter_In. unfold in_reach. split.
  - intros [Hi Hr]. split; [exact Hi|].
    destruct (get_cell gdf "geometry" r) as [[s|x|g|]|]; try discriminate.
    exists g. split; [reflexivity|exact Hr].
  - intros [Hi (g & Hg & Hp)]. split; [exact Hi|]. rewrite Hg. exact Hp.
Qed.

(** A station 10 m away, twice, a record without geometry and a station
    200 km away: the near station is kept, twice, and nothing else. *)
Lemma within_buffer_near_and_far :
  let near := Scenario.station "Y" "124" (Scenario.north 10) in
  let gdf := Scenario.stations [near; [CStr "N"; CStr "000"; CNull];
                                Scenario.station "F" "900" (Scenario.north 200000);
                                near] in
  let pre := Scenario.stations [near; near] in
  columns pre = columns gdf /\
  frame_crs pre = frame_crs gdf /\
  rows pre = List.filter (in_reach Sessions.area_buffer gdf) (rows gdf) /\
  forall r, In r (rows pre) <->
            In r (rows gdf) /\
            exists g, get_cell gdf "geometry" r = Ok (CGeom g) /\
                      intersects g Sessions.area_buffer = true.
Proof.
  apply (within_buffer_keeps_the_rows_in_reach BoxWorld.box BoxWorld.box_lib
           Sessions.area_buffer).
  vm_compute. reflexivity.
Defined.


(** ** What the methods do to the dialog: widgets, trace, HTTP requests *)

Section Budget.

Context {geometry : Type} `{GeoLib geometry}.
Variable w : world geometry.

Lemma same_widgets_refl (d : dialog geometry) : same_widgets d d.
Proof. repeat split. Qed.

Lemma same_widgets_trans (d1 d2 d3 : dialog geometry) :
  same_widgets d1 d2 -> same_widgets d2 d3 -> same_widgets d1 d3.
Proof.
  intros (A1 & A2 & A3 & A4 & A5 & A6 & A7) (B1 & B2 & B3 & B4 & B5 & B6 & B7).
  repeat split; congruence.
Qed.

Lemma http_count_app (t1 t2 : list (event geometry)) :
  http_count (t1 ++ t2) = (http_count t1 + http_count t2)%nat.
Proof. unfold http_count. rewrite List.filter_app, List.length_app. reflexivity. Qed.

Lemma adds_refl (d : dialog geometry) : adds 0 d d.
Proof.
  split; [apply same_widgets_refl|]. exists []. rewrite List.app_nil_r.
  split; [reflexivity|]. cbn. lia.
Qed.

Lemma adds_trans (n m : nat) (d1 d2 d3 : dialog geometry) :
  adds n d1 d2 -> adds m d2 d3 -> adds (n + m) d1 d3.
Proof.
  intros [W1 (t1 & E1 & C1)] [W2 (t2 & E2 & C2)]. split.
  - apply (same_widgets_trans _ _ _ W1 W2).
  - exists (t1 ++ t2)%list. rewrite E2, E1, <- List.app_assoc.
    split; [reflexivity|]. rewrite http_count_app. lia.
Qed.

Lemma adds_weaken (n m : nat) (d d' : dialog geometry) :
  (n <= m)%nat -> adds n d d' -> adds m d d'.
Proof.
  intros Hnm [W (t & E & C)]. split; [exact W|]. exists t. split; [exact E|lia].
Qed.

Lemma budget_weaken {A : Type} (n k : nat) (m : M geometry A) :
  (n <= k)%nat -> within_budget n m -> within_budget k m.
Proof. intros Hnk Hm d. apply (adds_weaken n k); [exact Hnk|apply Hm]. Qed.

Lemma budget_ret {A : Type} (a : A) : within_budget 0 (@ret geometry A a).
Proof. intros d. apply adds_refl. Qed.

Lemma budget_lift {A : Type} (r : result A) : within_budget 0 (@lift geometry A r).
Proof. intros d. apply adds_refl. Qed.

Lemma budget_get : within_budget 0 (@get geometry).
Proof. intros d. apply adds_refl. Qed.

Lemma budget_emit (e : event geometry) :
  within_budget (if is_http e then 1 else 0) (emit e).
Proof.
  intros d. split; [repeat split|]. exists [e]. split; [reflexivity|].
  unfold http_count. cbn. destruct (is_http e); cbn; lia.
Qed.

Lemma budget_emit_quiet (e : event geometry) :
  is_http e = false -> within_budget 0 (emit e).
Proof. intros He. pose proof (budget_emit e) as B. rewrite He in B. exact B. Qed.

Lemma budget_log (msg : string) : within_budget 0 (@log geometry msg).
Proof. apply budget_emit_quiet. reflexivity. Qed.

Lemma budget_store (c : dialog geometry -> gmap (string * Z) (frame geometry)) :
  within_budget 0 (fun d => (Ok tt, set_api_pre_filtered (c d) d)).
Proof.
  intros d. split; [repeat split|]. exists []. cbn. rewrite List.app_nil_r.
  split; [reflexivity|]. cbn. lia.
Qed.

Lemma budget_bind {A B : Type} (n k : nat) (m : M geometry A) (f : A -> M geometry B) :
  within_budget n m -> (forall a, within_budget k (f a)) ->
  within_budget (n + k) (bindM m f).
Proof.
  intros Hm Hf d. unfold bindM. specialize (Hm d).
  destruct (m d) as [[a|e] d']; cbn in *.
  - apply (adds_trans n k d d'); [exact Hm|apply Hf].
  - apply (adds_weaken n); [lia|exact Hm].
Qed.

Lemma budget_try {A : Type} (n k : nat) (m : M geometry A) (h : exn -> M geometry A) :
  within_budget n m -> (forall e, within_budget k (h e)) ->
  within_budget (n + k) (try_except m h).
Proof.
  intros Hm Hh d. unfold try_except. specialize (Hm d).
  destruct (m d) as [[a|e] d']; cbn in *.
  - apply (adds_weaken n); [lia|exact Hm].
  - apply (adds_trans n k d d'); [exact Hm|apply Hh].
Qed.

Lemma quiet_bind {A B : Type} (m : M geometry A) (f : A -> M geometry B) :
  within_budget 0 m -> (forall a, within_budget 0 (f a)) ->
  within_budget 0 (bindM m f).
Proof. intros Hm Hf. apply (budget_bind 0 0); assumption. Qed.

Lemma quiet_try {A : Type} (m : M geometry A) (h : exn -> M geometry A) :
  within_budget 0 m -> (forall e, within_budget 0 (h e)) ->
  within_budget 0 (try_except m h).
Proof. intros Hm Hh. apply (budget_try 0 0); assumption. Qed.

Ltac quiet :=
  repeat first
    [ apply budget_ret | apply budget_lift | apply budget_get | apply budget_log
    | apply budget_emit_quiet; reflexivity
    | apply budget_store
    | apply quiet_bind; [|intros ?]
    | apply quiet_try; [|intros ?]
    | match goal with
      | |- within_budget 0 (match ?x with _ => _ end) => destruct x
      | |- within_budget 0 (if ?b then _ else _) => destruct b
      end ].

Lemma quiet_to_metric_gdf (gdf : frame geometry) : within_budget 0 (_to_metric_gdf gdf).
Proof. unfold _to_metric_gdf. quiet. Qed.

Lemma quiet_plot (u : geometry) (f : frame geometry) : within_budget 0 (plot u f).
Proof. unfold plot. quiet. Qed.

Lemma quiet_run_analysis : within_budget 0 (run_analysis w).
Proof.
  unfold run_analysis. quiet; try apply quiet_to_metric_gdf; try apply quiet_plot.
Qed.

(** After the request, the rest of a pre-download makes no other. *)
Lemma budget_prestep_wfs key t b : within_budget 1 (prestep_wfs w key t b).
Proof.
  unfold prestep_wfs. apply (budget_try 1 0); [|intros e; apply budget_log].
  apply (budget_bind 1 0).
  - apply (budget_emit (HttpGet _ _)).
  - intros _. quiet.
Qed.

Lemma budget_prestep_arcgis key s b : within_budget 1 (prestep_arcgis w key s b).
Proof.
  unfold prestep_arcgis. apply (budget_try 1 0); [|intros e; apply budget_log].
  apply (budget_bind 1 0).
  - apply (budget_emit (HttpGet _ _)).
  - intros _. quiet.
Qed.

Lemma budget_fetch_and_store (d : dialog geometry) (api_name : string) (app_index : Z) :
  within_budget 1 (fetch_and_store w d api_name app_index).
Proof.
  unfold fetch_and_store.
  apply (budget_bind 0 1); [quiet|intros app_layer].
  apply (budget_bind 0 1); [quiet|intros app_gdf].
  apply (budget_bind 0 1); [apply quiet_to_metric_gdf|intros normalised].
  apply (budget_bind 0 1); [quiet|intros app_geoms].
  destruct (wfs_layers_info d !! api_name) as [[|c t]|].
  - destruct (option_map _ _) as [[|c s]|];
      try (apply (budget_weaken 0); [lia|apply budget_log]).
    destruct (_ || _); [apply budget_prestep_arcgis|].
    apply (budget_weaken 0); [lia|apply budget_log].
  - apply budget_prestep_wfs.
  - destruct (option_map _ _) as [[|c s]|];
      try (apply (budget_weaken 0); [lia|apply budget_log]).
    destruct (_ || _); [apply budget_prestep_arcgis|].
    apply (budget_weaken 0); [lia|apply budget_log].
Qed.

Lemma budget_run_prestep : within_budget 1 (run_prestep w).
Proof.
  unfold run_prestep. apply (budget_try 1 0).
  - apply (budget_bind 0 1); [apply budget_get|intros d].
    destruct (_ || _); [apply (budget_weaken 0); [lia|apply budget_ret]|].
    destruct (api_pre_filtered d !! _).
    + apply (budget_weaken 0); [lia|apply budget_log].
    + apply budget_fetch_and_store.
  - intros e. quiet.
Qed.

Lemma run_prestep_returns (d : dialog geometry) : fst (run_prestep w d) = Ok tt.
Proof.
  unfold run_prestep, try_except.
  match goal with |- context [match ?m d with _ => _ end] => destruct (m d) as [[[]|e] d'] end;
    reflexivity.
Qed.

(** [run_prestep] leaves the entries of the other pairs alone. *)
Lemma run_prestep_others (d : dialog geometry) (k : string * Z) :
  current_key d <> Some k ->
  api_pre_filtered (snd (run_prestep w d)) !! k = api_pre_filtered d !! k.
Proof.
  intros Hk. destruct (current_key d) as [key|] eqn:Ck.
  - destruct (api_pre_filtered d !! key) as [g|] eqn:Hc.
    + rewrite (run_prestep_cached w d key g Ck Hc). reflexivity.
    + assert (Hne : k <> key) by congruence.
      unfold current_key in Ck.
      destruct (_ || _) eqn:V; [discriminate|]. injection Ck as Ek. subst key.
      pose proof (others_handler _
                    (fetch_and_store w d (currentText (combo_api d)) (current (combo_app d)))
                    (fun e => do! log ("Preprocessing failed: " +:+ exn_text e) in
                              emit (LogTraceback e))
                    (others_fetch_and_store w d _ _)) as E.
      assert (Hh : forall e, keeps_cache
                     (do! @log geometry ("Preprocessing failed: " +:+ exn_text e) in
                      emit (LogTraceback e))).
      { intros e. apply keeps_bind; [apply keeps_log|intros _; apply keeps_emit]. }
      specialize (E Hh d k Hne).
      unfold run_prestep. unfold try_except at 1. unfold bindM at 1. unfold get.
      cbn [fst snd]. rewrite V, Hc. exact E.
  - unfold current_key in Ck. unfold run_prestep, try_except, bindM, get. cbn.
    destruct (_ || _); [|discriminate]. reflexivity.
Qed.

End Budget.


(** [run_prestep] never raises.  It changes no widget, writes at most
    one HTTP request to the trace, keeps every cached collection, and
    touches no pair but the selected one. *)
Theorem run_prestep_effects (geometry : Type) (lib : GeoLib geometry)
    (w : world geometry) (d : dialog geometry) :
  let d' := snd (run_prestep w d) in
  fst (run_prestep w d) = Ok tt /\
  same_widgets d d' /\
  (exists t, trace d' = (trace d ++ t)%list /\ (http_count t <= 1)%nat) /\
  (forall k f, api_pre_filtered d !! k = Some f -> api_pre_filtered d' !! k = Some f) /\
  (forall k, current_key d <> Some k ->
     api_pre_filtered d' !! k = api_pre_filtered d !! k).
Proof.
  cbn zeta. destruct (budget_run_prestep w d) as [W T].
  split; [apply run_prestep_returns|]. split; [exact W|]. split; [exact T|]. split.
  - intros k f. apply run_prestep_keeps_entries.
  - intros k. apply run_prestep_others.
Qed.

(** [run_analysis] never raises and only writes to the trace: the cache
    and the widgets stay as they are, and no HTTP request is made. *)
Theorem run_analysis_effects (geometry : Type) (lib : GeoLib geometry)
    (w : world geometry) (d : dialog geometry) :
  fst (run_analysis w d) = Ok tt /\
  exists t, snd (run_analysis w d) = set_trace (trace d ++ t) d /\ http_count t = 0%nat.
Proof.
  split; [apply run_analysis_returns|].
  destruct (quiet_run_analysis w d) as [(W1 & W2 & W3 & W4 & W5 & W6 & W7) (t & E & C)].
  pose proof (keeps_run_analysis w d) as K.
  exists t. split; [|lia].
  destruct (snd (run_analysis w d)), d. unfold set_trace. cbn in *. congruence.
Qed.

Section Stored.

Context {geometry : Type} `{GeoLib geometry}.
Variable w : world geometry.

Lemma prestep_wfs_stores key t b (d : dialog geometry) (f : frame geometry) :
  api_pre_filtered d !! key = None ->
  api_pre_filtered (snd (prestep_wfs w key t b d)) !! key = Some f ->
  within_reach b f.
Proof.
  intros Hn. unfold prestep_wfs, try_except, bindM, emit, lift, log. cbn.
  destruct (wfs_get_feature w t) as [fetched|]; cbn; [|rewrite Hn; discriminate].
  destruct (to_crs 29903 fetched) as [api_gdf|] eqn:Ec; cbn; [|rewrite Hn; discriminate].
  destruct (within_buffer b api_gdf) as [pre|] eqn:Eb; cbn; [|rewrite Hn; discriminate].
  rewrite lookup_insert_eq. intros [= <-].
  destruct (within_buffer_reach _ _ _ Eb) as [C G].
  split; [|exact G]. rewrite C. apply (to_crs_data _ _ _ Ec).
Qed.

Lemma prestep_arcgis_stores key s b (d : dialog geometry) (f : frame geometry) :
  api_pre_filtered d !! key = None ->
  api_pre_filtered (snd (prestep_arcgis w key s b d)) !! key = Some f ->
  within_reach b f.
Proof.
  intros Hn. unfold prestep_arcgis, try_except, bindM, emit, lift, log. cbn.
  destruct (arcgis_query w _ _) as [[|feat feats]|];
    cbn -[mapM frame_of_records within_buffer]; try (rewrite Hn; discriminate).
  destruct (mapM feature_record (feat :: feats)) as [geo_list|];
    cbn -[frame_of_records within_buffer]; [|rewrite Hn; discriminate].
  destruct (within_buffer b _) as [pre|] eqn:Eb; cbn; [|rewrite Hn; discriminate].
  rewrite lookup_insert_eq. intros [= <-].
  destruct (within_buffer_reach _ _ _ Eb) as [C G].
  split; [|exact G]. rewrite C. reflexivity.
Qed.

End Stored.

Section StoredByPrestep.

Context {geometry : Type} `{GeoLib geometry}.
Variable w : world geometry.

Lemma try_except_cache {A : Type} (m : M geometry A) (h : exn -> M geometry A)
    (d : dialog geometry) :
  (forall e, keeps_cache (h e)) ->
  api_pre_filtered (snd (try_except m h d)) = api_pre_filtered (snd (m d)).
Proof.
  intros Hh. unfold try_except. destruct (m d) as [[a|e] d']; cbn; [reflexivity|].
  apply Hh.
Qed.

Lemma fetch_and_store_stores (d : dialog geometry) (api_name : string) (app_index : Z)
    (f : frame geometry) :
  api_pre_filtered d !! (api_name, app_index) = None ->
  api_pre_filtered (snd (fetch_and_store w d api_name app_index d))
    !! (api_name, app_index) = Some f ->
  exists app_layer app_gdf normalised d1 app_geoms,
    list_index (shp_layers d) app_index = Ok app_layer /\
    read_file w (layer_source app_layer) = Ok app_gdf /\
    _to_metric_gdf app_gdf d = (Ok normalised, d1) /\
    frame_geometry (fst (fst normalised)) = Ok app_geoms /\
    within_reach (buffer (unary_union app_geoms) (lit 100000)) f.
Proof.
  intros Hn. unfold fetch_and_store.
  unfold bindM at 1. unfold lift at 1.
  destruct (list_index (shp_layers d) app_index) as [app_layer|] eqn:E1;
    [|cbn; rewrite Hn; discriminate].
  unfold bindM at 1. unfold lift at 1.
  destruct (read_file w (layer_source app_layer)) as [app_gdf|] eqn:E2;
    [|cbn; rewrite Hn; discriminate].
  unfold bindM at 1.
  pose proof (keeps_to_metric_gdf app_gdf d) as K.
  destruct (_to_metric_gdf app_gdf d) as [[normalised|e] d1] eqn:E3;
    cbn [fst snd] in K; [|cbn; rewrite K, Hn; discriminate].
  assert (Hn1 : api_pre_filtered d1 !! (api_name, app_index) = None) by (rewrite K; exact Hn).
  unfold bindM at 1. unfold lift at 1.
  destruct (frame_geometry (fst (fst normalised))) as [app_geoms|] eqn:E4;
    [|cbn; rewrite Hn1; discriminate].
  intros Hs. exists app_layer, app_gdf, normalised, d1, app_geoms.
  do 4 (split; [first [reflexivity | assumption]|]).
  revert Hs.
  destruct (wfs_layers_info d !! api_name) as [[|c t]|].
  - destruct (option_map _ _) as [[|c s]|];
      try (cbn; rewrite Hn1; discriminate).
    destruct (_ || _); [apply prestep_arcgis_stores; exact Hn1|].
    cbn; rewrite Hn1; discriminate.
  - apply prestep_wfs_stores. exact Hn1.
  - destruct (option_map _ _) as [[|c s]|];
      try (cbn; rewrite Hn1; discriminate).
    destruct (_ || _); [apply prestep_arcgis_stores; exact Hn1|].
    cbn; rewrite Hn1; discriminate.
Qed.

Lemma run_prestep_stores (d : dialog geometry) (key : string * Z) (f : frame geometry) :
  current_key d = Some key ->
  api_pre_filtered d !! key = None ->
  api_pre_filtered (snd (run_prestep w d)) !! key = Some f ->
  exists app_layer app_gdf normalised d1 app_geoms,
    list_index (shp_layers d) (snd key) = Ok app_layer /\
    read_file w (layer_source app_layer) = Ok app_gdf /\
    _to_metric_gdf app_gdf d = (Ok normalised, d1) /\
    frame_geometry (fst (fst normalised)) = Ok app_geoms /\
    within_reach (buffer (unary_union app_geoms) (lit 100000)) f.
Proof.
  intros Ck Hn. unfold current_key in Ck.
  destruct (_ || _) eqn:V; [discriminate|]. injection Ck as <-.
  unfold run_prestep. rewrite try_except_cache.
  2:{ intros e. apply keeps_bind; [apply keeps_log|intros _; apply keeps_emit]. }
  unfold bindM at 1. unfold get. cbn [fst snd]. rewrite V, Hn.
  apply fetch_and_store_stores. exact Hn.
Qed.

End StoredByPrestep.

(** What [run_prestep] stores on a cache miss: the application layer
    was read and normalised, and the stored collection is in EPSG:29903
    with every geometry meeting the 100 km buffer of that layer. *)
Theorem run_prestep_stores_within_reach (geometry : Type) (lib : GeoLib geometry)
    (w : world geometry) (d : dialog geometry) (key : string * Z)
    (f : frame geometry) :
  current_key d = Some key ->
  api_pre_filtered d !! key = None ->
  api_pre_filtered (snd (run_prestep w d)) !! key = Some f ->
  exists app_layer app_gdf normalised d1 app_geoms,
    list_index (shp_layers d) (snd key) = Ok app_layer /\
    read_file w (layer_source app_layer) = Ok app_gdf /\
    _to_metric_gdf app_gdf d = (Ok normalised, d1) /\
    frame_geometry (fst (fst normalised)) = Ok app_geoms /\
    within_reach (buffer (unary_union app_geoms) (lit 100000)) f.
Proof. apply run_prestep_stores. Qed.

(** The three stations of the worked example, once downloaded. *)
Lemma run_prestep_stores_the_stations :
  exists app_layer app_gdf normalised d1 app_geoms,
    list_index (shp_layers (set_combo_api 1 (Scenario.opened Sessions.stations_world)))
      (snd Scenario.wfs_key) = Ok app_layer /\
    read_file Sessions.stations_world (layer_source app_layer) = Ok app_gdf /\
    _to_metric_gdf app_gdf (set_combo_api 1 (Scenario.opened Sessions.stations_world))
    = (Ok normalised, d1) /\
    frame_geometry (fst (fst normalised)) = Ok app_geoms /\
    within_reach (buffer (unary_union app_geoms) (lit 100000)) Sessions.stored_stations.
Proof.
  apply (run_prestep_stores_within_reach BoxWorld.box BoxWorld.box_lib
           Sessions.stations_world
           (set_combo_api 1 (Scenario.opened Sessions.stations_world))
           Scenario.wfs_key Sessions.stored_stations).
  - vm_compute. reflexivity.
  - vm_compute. reflexivity.
  - vm_compute. reflexivity.
Defined.


(** ** An invariant of the cache *)

Section CacheInvariant.

Context {geometry : Type} `{GeoLib geometry}.
Variable w : world geometry.

Lemma populate_layers_cache_empty (d : dialog geometry) :
  api_pre_filtered (snd (populate_layers w d)) = ∅.
Proof.
  unfold populate_layers.
  set (d0 := mkDialog ∅ ∅ [] [] combo_clear combo_clear
               (fields_list d) (selectedItems d) (trace d)).
  assert (E1 : api_pre_filtered (fold_left add_project_layer (project_layers w) d0) = ∅).
  { assert (E0 : api_pre_filtered d0 = ∅) by reflexivity.
    revert E0. generalize d0. induction (project_layers w) as [|l ls IH]; intros d' E.
    - exact E.
    - cbn [fold_left]. apply IH. unfold add_project_layer.
      destruct (layer_is_vector l); [|exact E].
      destruct (_ || _); exact E. }
  set (d1 := fold_left add_project_layer (project_layers w) d0) in *. clearbody d1.
  unfold try_except, bindM, emit, lift, get, log. cbn.
  destruct (wfs_contents w) as [contents|e]; cbn.
  - assert (E : forall d' : dialog geometry, api_pre_filtered d' = ∅ ->
                api_pre_filtered (fold_left add_wfs_layer contents d') = ∅).
    { induction contents as [|[n t] cs IH]; intros d' Ed; [exact Ed|].
      cbn [fold_left]. apply IH. exact Ed. }
    match goal with
    | |- context [fold_left add_wfs_layer contents ?x] =>
        pose proof (E x E1) as E2; set (d2 := fold_left add_wfs_layer contents x) in *
    end.
    clearbody d2. destruct (shp_layers d2); cbn; exact E2.
  - destruct (shp_layers d1); cbn; exact E1.
Qed.

Lemma run_prestep_cache_in_29903 (d : dialog geometry) :
  cache_in_29903 d -> cache_in_29903 (snd (run_prestep w d)).
Proof.
  intros Hd k f Hf.
  destruct (api_pre_filtered d !! k) as [f0|] eqn:E0.
  - rewrite (run_prestep_keeps_entries w d k f0 E0) in Hf. injection Hf as <-.
    apply (Hd k f0 E0).
  - destruct (current_key d) as [key|] eqn:Ck.
    + destruct (decide (key = k)) as [->|Hne].
      * destruct (run_prestep_stores w d k f Ck E0 Hf) as (x1 & x2 & x3 & x4 & x5 & _ & _ & _ & _ & R).
        apply R.
      * rewrite (run_prestep_others w d k) in Hf by congruence. congruence.
    + rewrite (run_prestep_others w d k) in Hf by congruence. congruence.
Qed.

Lemma step_cache_in_29903 (d : dialog geometry) (a : action) :
  cache_in_29903 d -> cache_in_29903 (step w d a).
Proof.
  intros Hd. destruct a as [i|i|fs| |]; cbn [step].
  - destruct (_ =? _)%Z; [exact Hd|]. apply run_prestep_cache_in_29903. exact Hd.
  - destruct (_ =? _)%Z; [exact Hd|]. apply run_prestep_cache_in_29903. exact Hd.
  - exact Hd.
  - intros k f. rewrite populate_layers_cache_empty, lookup_empty. discriminate.
  - intros k f. rewrite (keeps_run_analysis w d). apply Hd.
Qed.

End CacheInvariant.

(** Whatever the user does, every cached collection is in EPSG:29903, if
    that was so at the start. *)
Theorem session_cache_in_29903 (geometry : Type) (lib : GeoLib geometry)
    (w : world geometry) (acts : list action) (d : dialog geometry) :
  cache_in_29903 d -> cache_in_29903 (session w acts d).
Proof.
  revert d. induction acts as [|a acts IH]; intros d Hd; [exact Hd|].
  cbn [session fold_left]. apply IH. apply step_cache_in_29903. exact Hd.
Qed.

(** A dialog that has just been opened has an empty cache; the session
    of the worked example keeps the invariant. *)
Lemma stations_session_cache_in_29903 :
  cache_in_29903
    (session Sessions.stations_world
       [PickApi 1; PickFields ["name"]; Run; Refresh; PickApi 1]
       (Scenario.opened Sessions.stations_world)).
Proof.
  apply (session_cache_in_29903 BoxWorld.box BoxWorld.box_lib Sessions.stations_world).
  intros k f. unfold Scenario.opened, Scenario.after.
  rewrite populate_layers_cache_empty, lookup_empty. discriminate.
Defined.

(** ** Failed downloads *)

(** When the WFS request fails, the failure is logged after the request
    and nothing is stored. *)
Theorem prestep_wfs_download_fails (geometry : Type) (lib : GeoLib geometry)
    (w : world geometry) (key : string * Z) (type_name : string)
    (buffer_geom : geometry) (e : exn) (d : dialog geometry) :
  wfs_get_feature w type_name = Raise e ->
  prestep_wfs w key type_name buffer_geom d
  = (Ok tt,
     set_trace (trace d ++ [HttpGet wfs_url
                              [("service", PStr "WFS"); ("version", PStr "1.1.0");
                               ("request", PStr "GetFeature");
                               ("typename", PStr type_name);
                               ("outputFormat", PStr "application/json")];
                            Log ("WFS pre-download failed: " +:+ exn_text e)]) d).
Proof.
  intros He. unfold prestep_wfs, try_except, bindM, log, emit, lift. cbn.
  rewrite He. cbn. trace_done d.
Qed.

(** The stations layer while the WFS service refuses the connection. *)
Lemma prestep_wfs_offline :
  prestep_wfs offline_world Scenario.wfs_key "EPA:STATIONS" Sessions.area_buffer
    Scenario.new_dialog
  = (Ok tt,
     set_trace (trace Scenario.new_dialog
                ++ [HttpGet wfs_url
                      [("service", PStr "WFS"); ("version", PStr "1.1.0");
                       ("request", PStr "GetFeature");
                       ("typename", PStr "EPA:STATIONS");
                       ("outputFormat", PStr "application/json")];
                    Log ("WFS pre-download failed: "
                         +:+ exn_text (LibraryError "Connection refused"))])
       Scenario.new_dialog).
Proof.
  apply (prestep_wfs_download_fails BoxWorld.box BoxWorld.box_lib offline_world).
  reflexivity.
Defined.

(** The same for the ArcGIS request. *)
Theorem prestep_arcgis_download_fails (geometry : Type) (lib : GeoLib geometry)
    (w : world geometry) (key : string * Z) (source_str : string)
    (buffer_geom : geometry) (e : exn) (d : dialog geometry) :
  arcgis_query w (query_url source_str) (bounds buffer_geom) = Raise e ->
  prestep_arcgis w key source_str buffer_geom d
  = (Ok tt,
     set_trace (trace d ++ [HttpGet (query_url source_str)
                              (query_params (bounds buffer_geom));
                            Log ("ArcGIS REST pre-download failed: " +:+ exn_text e)]) d).
Proof.
  intros He. unfold prestep_arcgis, try_except, bindM, log, emit, lift. cbn.
  rewrite He. cbn. trace_done d.
Qed.

(** The rivers layer while the ArcGIS service refuses the connection. *)
Lemma prestep_arcgis_offline :
  prestep_arcgis offline_world Scenario.arcgis_key Sessions.rivers_source
    Sessions.area_buffer Scenario.new_dialog
  = (Ok tt,
     set_trace (trace Scenario.new_dialog
                ++ [HttpGet (query_url Sessions.rivers_source)
                      (query_params (bounds Sessions.area_buffer));
                    Log ("ArcGIS REST pre-download failed: "
                         +:+ exn_text (LibraryError "Connection refused"))])
       Scenario.new_dialog).
Proof.
  apply (prestep_arcgis_download_fails BoxWorld.box BoxWorld.box_lib offline_world).
  reflexivity.
Defined.

(** ** [run_analysis] without a selection *)

(** When a combo box shows no entry, the run stops at the warning
    "Please select both layers.". *)
Theorem run_analysis_without_selection (geometry : Type) (lib : GeoLib geometry)
    (w : world geometry) (d : dialog geometry) :
  selection_made d = false ->
  run_analysis w d
  = (Ok tt, set_trace (trace d ++ [Log all_computations;
                                   MsgWarning "Error" "Please select both layers."]) d).
Proof.
  intros Hs. unfold selection_made in Hs.
  unfold run_analysis, try_except, bindM, log, emit, get. cbn.
  assert (E : (current (combo_app d) <? 0)%Z
              || is_empty_string (currentText (combo_api d)) = true).
  { destruct (current (combo_app d) <? 0)%Z; [reflexivity|].
    destruct (is_empty_string (currentText (combo_api d))); [reflexivity|discriminate]. }
  rewrite E. cbn. trace_done d.
Qed.

(** A project without layers and without catalogue. *)
Lemma run_analysis_in_an_empty_project :
  run_analysis offline_world Scenario.new_dialog
  = (Ok tt, set_trace (trace Scenario.new_dialog
                       ++ [Log all_computations;
                           MsgWarning "Error" "Please select both layers."])
              Scenario.new_dialog).
Proof.
  apply (run_analysis_without_selection BoxWorld.box BoxWorld.box_lib offline_world).
  reflexivity.
Defined.


(** ** What [run_analysis] writes *)

Section Emits.

Context {geometry : Type} `{GeoLib geometry}.
Variable P : event geometry -> bool.

Lemma only_ret {A : Type} (a : A) : emits_only P (@ret geometry A a).
Proof. intros d. exists []. cbn. rewrite List.app_nil_r. split; reflexivity. Qed.

Lemma only_lift {A : Type} (r : result A) : emits_only P (@lift geometry A r).
Proof. intros d. exists []. cbn. rewrite List.app_nil_r. split; reflexivity. Qed.

Lemma only_get : emits_only P (@get geometry).
Proof. intros d. exists []. cbn. rewrite List.app_nil_r. split; reflexivity. Qed.

Lemma only_emit (e : event geometry) : P e = true -> emits_only P (emit e).
Proof. intros He d. exists [e]. cbn. rewrite He. split; reflexivity. Qed.

Lemma only_bind {A B : Type} (m : M geometry A) (k : A -> M geometry B) :
  emits_only P m -> (forall a, emits_only P (k a)) -> emits_only P (bindM m k).
Proof.
  intros Hm Hk d. unfold bindM. destruct (Hm d) as (t1 & E1 & P1).
  destruct (m d) as [[a|e] d']; cbn in *.
  - destruct (Hk a d') as (t2 & E2 & P2). exists (t1 ++ t2)%list.
    rewrite E2, E1, <- List.app_assoc, forallb_app, P1, P2. split; reflexivity.
  - exists t1. split; assumption.
Qed.

(** A step that only computes hands its value on with its equation. *)
Lemma only_bind_lift {A B : Type} (r : result A) (k : A -> M geometry B) :
  (forall a, r = Ok a -> emits_only P (k a)) -> emits_only P (bindM (lift r) k).
Proof.
  intros Hk d. unfold bindM, lift. destruct r as [a|e]; cbn.
  - apply (Hk a eq_refl).
  - exists []. rewrite List.app_nil_r. split; reflexivity.
Qed.

Lemma only_try {A : Type} (m : M geometry A) (h : exn -> M geometry A) :
  emits_only P m -> (forall e, emits_only P (h e)) -> emits_only P (try_except m h).
Proof.
  intros Hm Hh d. unfold try_except. destruct (Hm d) as (t1 & E1 & P1).
  destruct (m d) as [[a|e] d']; cbn in *.
  - exists t1. split; assumption.
  - destruct (Hh e d') as (t2 & E2 & P2). exists (t1 ++ t2)%list.
    rewrite E2, E1, <- List.app_assoc, forallb_app, P1, P2. split; reflexivity.
Qed.

End Emits.

Ltac only_step :=
  first
    [ apply only_ret | apply only_lift | apply only_get
    | apply only_emit; reflexivity
    | apply only_bind_lift; intros ? ?
    | apply only_bind; [|intros ?]
    | apply only_try; [|intros ?]
    | match goal with
      | |- emits_only _ (log _) => apply only_emit; reflexivity
      | |- emits_only _ (match ?x with _ => _ end) => destruct x eqn:?
      | |- emits_only _ (if ?b then _ else _) => destruct b eqn:?
      end ].

Section Written.

Context {geometry : Type} `{GeoLib geometry}.
Variable w : world geometry.

(** The log lines of the normaliser pass every filter used below. *)
Lemma only_to_metric_gdf (P : event geometry -> bool) (gdf : frame geometry) :
  (forall msg, P (Log msg) = true) -> emits_only P (_to_metric_gdf gdf).
Proof.
  intros Hlog d.
  destruct (to_metric_gdf_cases _ _ gdf d) as (out & changed & orig & t & E & L & _).
  exists t. rewrite E. cbn. split; [reflexivity|].
  apply forallb_forall. intros e He. rewrite forallb_forall in L.
  specialize (L e He). destruct e; try discriminate. apply Hlog.
Qed.

Lemma trace_only (d d' : dialog geometry) (t : list (event geometry)) :
  same_widgets d d' -> api_pre_filtered d' = api_pre_filtered d ->
  trace d' = (trace d ++ t)%list -> d' = set_trace (trace d ++ t) d.
Proof.
  intros (W1 & W2 & W3 & W4 & W5 & W6 & W7) C T.
  destruct d', d. unfold set_trace. cbn in *. congruence.
Qed.

(** From a filter on the events of [run_analysis] to the dialog after
    the run. *)
Lemma run_analysis_writes (P : event geometry -> bool) (d : dialog geometry) :
  emits_only P (run_analysis w) ->
  exists t, snd (run_analysis w d) = set_trace (trace d ++ t) d /\ forallb P t = true.
Proof.
  intros HP. destruct (HP d) as (t & E & Pt). exists t. split; [|exact Pt].
  apply trace_only; [apply (quiet_run_analysis w d)|apply (keeps_run_analysis w d)|exact E].
Qed.

Lemma select_columns_shape (names : list string) (g out : frame geometry) :
  select_columns names g = Ok out ->
  columns out = names /\
  length (rows out) = length (rows g) /\
  forallb (fun r => (length r =? length names)%nat) (rows out) = true /\
  forall n, In n names -> In n (columns g).
Proof.
  unfold select_columns.
  destruct (mapM _ (rows g)) as [data|] eqn:E1; cbn; [|discriminate].
  destruct (mapM _ names) as [oks|] eqn:E2; cbn; [|discriminate].
  intros [= <-]. cbn. split; [reflexivity|]. split; [apply (mapM_length _ _ _ E1)|]. split.
  - apply forallb_forall. intros r Hr. apply In_nth_error in Hr. destruct Hr as [i Hi].
    destruct (mapM_nth _ _ _ E1) as [L1 N1].
    destruct (nth_error (rows g) i) as [r0|] eqn:E0.
    + destruct (N1 _ _ E0) as (r' & Hr' & Hm).
      assert (r' = r) by congruence. subst r'.
      apply Nat.eqb_eq. apply (mapM_length _ _ _ Hm).
    + apply nth_error_None in E0.
      assert (i < length data)%nat by (apply nth_error_Some; rewrite Hi; discriminate).
      lia.
  - intros n Hn. apply In_nth_error in Hn. destruct Hn as [i Hi].
    destruct (mapM_nth _ _ _ E2) as [_ N2].
    destruct (N2 _ _ Hi) as (b & _ & Hb).
    destruct (index_of n (columns g)) as [j|] eqn:Ej; [|discriminate].
    apply index_of_nth in Ej. apply (nth_error_In _ _ Ej).
Qed.

Lemma set_column_columns_incl (name : string) (values : list (cell geometry))
    (f g : frame geometry) (c : string) :
  set_column name values f = Ok g ->
  In c (columns g) -> In c (columns f) \/ c = name.
Proof.
  unfold set_column. destruct (negb _); [discriminate|].
  destruct (index_of name (columns f)); intros [= <-]; cbn.
  - tauto.
  - rewrite in_app_iff. cbn. intuition congruence.
Qed.

Lemma nearest_feature_shape (u : geometry) (f g : frame geometry) :
  nearest_feature u f = Ok g ->
  (length (rows g) <= 1)%nat /\
  forall c, In c (columns g) -> In c (columns f) \/ In c computed_fields.
Proof.
  unfold nearest_feature.
  destruct (with_metrics u f) as [m|] eqn:Em; cbn; [|discriminate].
  unfold keep_nearest, sort_values.
  destruct (mapM _ (rows m)) as [keys|]; cbn; [|discriminate].
  intros [= <-]. cbn. split.
  - rewrite List.length_firstn. lia.
  - intros c Hc. revert Em. unfold with_metrics.
    destruct (frame_geometry f) as [geoms|]; cbn; [|discriminate].
    destruct (mapM _ geoms) as [metrics|]; cbn; [|discriminate].
    destruct (set_column "Distance_m" _ f) as [f1|] eqn:E1; cbn; [|discriminate].
    destruct (set_column "Direction (°)" _ f1) as [f2|] eqn:E2; cbn; [|discriminate].
    intros E3.
    destruct (set_column_columns_incl _ _ _ _ c E3 Hc) as [H3| ->];
      [|right; cbn; tauto].
    destruct (set_column_columns_incl _ _ _ _ c E2 H3) as [H2| ->];
      [|right; cbn; tauto].
    destruct (set_column_columns_incl _ _ _ _ c E1 H2) as [H1| ->];
      [left; exact H1|right; cbn; tauto].
Qed.

Lemma within_buffer_columns (b : geometry) (gdf pre : frame geometry) :
  within_buffer b gdf = Ok pre -> columns pre = columns gdf.
Proof.
  unfold within_buffer. destruct (mapM _ (rows gdf)); cbn; [|discriminate].
  intros [= <-]. reflexivity.
Qed.

End Written.

Ltac only_rest :=
  try (apply only_to_metric_gdf; intros; reflexivity).

(** When the user dismisses the file dialog, the run writes no CSV file
    and shows no figure. *)
Theorem run_analysis_cancelled (geometry : Type) (lib : GeoLib geometry)
    (w : world geometry) (d : dialog geometry) :
  is_empty_string (getSaveFileName w) = true ->
  exists t, snd (run_analysis w d) = set_trace (trace d ++ t) d /\
            forallb no_output t = true.
Proof.
  intros Hc. apply run_analysis_writes.
  unfold run_analysis. cbv zeta.
  repeat first
    [ match goal with
      | |- emits_only _ (if is_empty_string (getSaveFileName w) then _ else _) =>
          rewrite Hc
      end
    | only_step ];
    only_rest.
Qed.

(** The session of the worked example with a user who cancels. *)
Lemma run_analysis_cancelled_session :
  exists t,
    snd (run_analysis cancelling_world
           (session cancelling_world [PickApi 1] (Scenario.opened cancelling_world)))
    = set_trace
        (trace (session cancelling_world [PickApi 1] (Scenario.opened cancelling_world))
         ++ t)
        (session cancelling_world [PickApi 1] (Scenario.opened cancelling_world)) /\
    forallb no_output t = true.
Proof.
  apply (run_analysis_cancelled BoxWorld.box BoxWorld.box_lib cancelling_world).
  reflexivity.
Defined.

Example cancelled_run_is_logged :
  last (trace (snd (run_analysis cancelling_world
                      (session cancelling_world [PickApi 1]
                         (Scenario.opened cancelling_world)))))
  = Some (Log "CSV save cancelled by user.").
Proof. vm_compute. reflexivity. Qed.

(** "Only the single nearest feature is exported": whatever the
    libraries return, a CSV file that the run writes has at most one data
    row, and each row has one cell per column of the header. *)
Theorem run_analysis_exports_one_row (geometry : Type) (lib : GeoLib geometry)
    (w : world geometry) (d : dialog geometry) :
  exists t, snd (run_analysis w d) = set_trace (trace d ++ t) d /\
            forallb single_row t = true.
Proof.
  apply run_analysis_writes.
  unfold run_analysis, plot. cbv zeta.
  repeat only_step; only_rest.
  apply only_emit. cbn [single_row].
  match goal with
  | Hs : select_columns _ ?g = Ok ?out, Hn : nearest_feature _ _ = Ok ?g |- _ =>
      destruct (select_columns_shape _ _ _ Hs) as (C & L & R & _);
      destruct (nearest_feature_shape _ _ _ Hn) as [L1 _]
  end.
  rewrite C, R, andb_true_r. apply Nat.leb_le. lia.
Qed.


Section ForeignField.

Context {geometry : Type} `{GeoLib geometry}.

(** The first two steps of [run_analysis]: a log line, then the dialog
    is read. *)
Lemma only_after_log (P : event geometry -> bool) (msg : string)
    (body : dialog geometry -> M geometry unit) (handler : exn -> M geometry unit)
    (d : dialog geometry) :
  P (Log msg) = true ->
  emits_only P (try_except (body (set_trace (trace d ++ [Log msg]) d)) handler) ->
  exists t,
    trace (snd (try_except (do! log msg in let! d0 := get in body d0) handler d))
    = (trace d ++ t)%list /\ forallb P t = true.
Proof.
  intros Hlog Hb.
  destruct (Hb (set_trace (trace d ++ [Log msg]) d)) as (t & E & Pt).
  exists (Log msg :: t).
  unfold try_except, bindM, log, emit, get in *. cbn in *.
  rewrite Hlog, Pt. split; [|reflexivity].
  rewrite E. rewrite <- List.app_assoc. reflexivity.
Qed.

Lemma export_cols_In (fs : list string) (g : frame geometry) (n : string) :
  In n fs -> In n (export_cols fs g).
Proof.
  intros Hn. unfold export_cols. destruct fs as [|x fs']; [destruct Hn|].
  apply in_or_app. left. exact Hn.
Qed.

End ForeignField.

(** The field list is prefilled from the application layer, while the
    export selects columns of the API collection.  When a selected field
    is neither a column of the cached collection nor a computed one, the
    run writes no CSV file. *)
Theorem run_analysis_with_a_foreign_field (geometry : Type) (lib : GeoLib geometry)
    (w : world geometry) (d : dialog geometry) (name : string) :
  In name (selectedItems d) ->
  ~ In name computed_fields ->
  (forall f, api_pre_filtered d !! (currentText (combo_api d), current (combo_app d))
             = Some f -> ~ In name (columns f)) ->
  exists t, snd (run_analysis w d) = set_trace (trace d ++ t) d /\
            forallb (fun e => negb (is_csv e)) t = true.
Proof.
  intros Hin Hnc Hcol.
  assert (Ht : exists t, trace (snd (run_analysis w d)) = (trace d ++ t)%list /\
                         forallb (fun e => negb (is_csv e)) t = true).
  { unfold run_analysis. apply only_after_log; [reflexivity|].
    unfold plot, set_trace.
    cbn [selectedItems api_pre_filtered combo_app combo_api shp_layers].
    cbv zeta.
    repeat only_step; only_rest.
    exfalso.
    match goal with
    | Hs : select_columns _ ?g = Ok ?out, Hn : nearest_feature _ ?r = Ok ?g,
      Hw : within_buffer _ ?p = Ok ?r, Hc : _ !! _ = Some ?p |- _ =>
        destruct (select_columns_shape _ _ _ Hs) as (_ & _ & _ & I);
        destruct (nearest_feature_shape _ _ _ Hn) as [_ J];
        pose proof (within_buffer_columns _ _ _ Hw) as C;
        specialize (I name (export_cols_In _ _ _ Hin));
        destruct (J name I) as [K|K]; [|exact (Hnc K)];
        rewrite C in K; exact (Hcol _ eq_refl K)
    end. }
  destruct Ht as (t & E & Pt). exists t. split; [|exact Pt].
  apply trace_only;
    [apply (quiet_run_analysis w d)|apply (keeps_run_analysis w d)|exact E].
Qed.

(** With two application layers, picking the second one downloads the
    stations while the field list still shows the layer's own field
    [id]; selecting it makes the run fail. *)
Lemma run_analysis_with_the_field_id :
  exists t,
    snd (run_analysis two_areas_world
           (session two_areas_world [PickApp 1; PickFields ["id"]]
              (Scenario.opened two_areas_world)))
    = set_trace
        (trace (session two_areas_world [PickApp 1; PickFields ["id"]]
                  (Scenario.opened two_areas_world)) ++ t)
        (session two_areas_world [PickApp 1; PickFields ["id"]]
           (Scenario.opened two_areas_world)) /\
    forallb (fun e => negb (is_csv e)) t = true.
Proof.
  apply (run_analysis_with_a_foreign_field BoxWorld.box BoxWorld.box_lib
           two_areas_world _ "id").
  - vm_compute. left. reflexivity.
  - cbn. intros [E|[E|[E|[]]]]; discriminate E.
  - intros f Hf. vm_compute in Hf. injection Hf as <-.
    cbn. intros [E|[E|[E|[]]]]; discriminate E.
Defined.

Example foreign_field_session :
  fields_list (Scenario.opened two_areas_world) = ["id"] /\
  columns Scenario.three_stations = ["name"; "code"; "geometry"] /\
  firstn 2 (rev (trace (snd (run_analysis two_areas_world
                               (session two_areas_world [PickApp 1; PickFields ["id"]]
                                  (Scenario.opened two_areas_world))))))
  = [LogTraceback (KeyError "id"); Log "Analysis failed: id"].
Proof. repeat split; vm_compute; reflexivity. Qed.


(** ** Strings: the URLs that the dialog builds *)

Section StringFacts.

Ltac app_cons :=
  repeat match goal with
         | |- context [String ?x ?a +:+ ?b] =>
             change (String x a +:+ b) with (String x (a +:+ b))
         end.

Lemma append_assoc (a b c : string) : (a +:+ b) +:+ c = a +:+ (b +:+ c).
Proof.
  induction a as [|x a IH]; [reflexivity|].
  change (String x ((a +:+ b) +:+ c) = String x (a +:+ (b +:+ c))).
  rewrite IH. reflexivity.
Qed.

Lemma append_nil_r (a : string) : a +:+ EmptyString = a.
Proof.
  induction a as [|x a IH]; [reflexivity|].
  change (String x (a +:+ EmptyString) = String x a). rewrite IH. reflexivity.
Qed.

Lemma rev_app_spec (s t : string) : String.rev_app s t = String.rev s +:+ t.
Proof.
  revert t. induction s as [|a s IH]; intros t; [reflexivity|].
  unfold String.rev. cbn. rewrite (IH (String a t)), (IH (String a EmptyString)).
  rewrite append_assoc. reflexivity.
Qed.

Lemma rev_cons (a : ascii) (s : string) :
  String.rev (String a s) = String.rev s +:+ String a EmptyString.
Proof. unfold String.rev at 1. cbn. apply rev_app_spec. Qed.

Lemma rev_append (s t : string) : String.rev (s +:+ t) = String.rev t +:+ String.rev s.
Proof.
  induction s as [|a s IH].
  - cbn [String.append]. change (String.rev EmptyString) with EmptyString.
    rewrite append_nil_r. reflexivity.
  - change (String a s +:+ t) with (String a (s +:+ t)).
    rewrite !rev_cons, IH, append_assoc. reflexivity.
Qed.

Lemma rev_involutive (s : string) : String.rev (String.rev s) = s.
Proof.
  induction s as [|a s IH]; [reflexivity|].
  rewrite rev_cons, rev_append, IH. reflexivity.
Qed.

Lemma rev_empty (s : string) : String.rev s = EmptyString -> s = EmptyString.
Proof. intros E. rewrite <- (rev_involutive s), E. reflexivity. Qed.

Lemma prefix_append (p s : string) : String.prefix p (p +:+ s) = true.
Proof. apply (startswith_append p s). Qed.

Lemma lstrip_app (cs a b : string) :
  PyStr.lstrip cs a <> EmptyString ->
  PyStr.lstrip cs (a +:+ b) = PyStr.lstrip cs a +:+ b.
Proof.
  induction a as [|x a IH]; app_cons; cbn; [contradiction|].
  destruct (PyStr.mem_ascii x cs); [exact IH|reflexivity].
Qed.

(** [rstrip] works on the tail of a string as long as something of the
    tail is left. *)
Lemma rstrip_app (cs p t : string) :
  PyStr.rstrip cs t <> EmptyString ->
  PyStr.rstrip cs (p +:+ t) = p +:+ PyStr.rstrip cs t.
Proof.
  intros Ht. unfold PyStr.rstrip in *. rewrite rev_append, lstrip_app.
  - rewrite rev_append, rev_involutive. reflexivity.
  - intros E. apply Ht. rewrite E. reflexivity.
Qed.

Lemma before_absent (sep : ascii) (s : string) :
  PyStr.mem_ascii sep s = false -> PyStr.before sep s = s.
Proof.
  unfold PyStr.mem_ascii. induction s as [|c s IH]; cbn; [reflexivity|].
  intros Hm. apply orb_false_iff in Hm. destruct Hm as [Hc Hs].
  rewrite Ascii.eqb_sym, Hc, (IH Hs). reflexivity.
Qed.

Lemma before_str_absent (sep s : string) :
  PyStr.contains sep s = false -> PyStrMore.before_str sep s = s.
Proof.
  induction s as [|c s IH]; cbn; [reflexivity|].
  intros Hc. apply orb_false_iff in Hc. destruct Hc as [Hp Hs].
  change (match sep with
          | EmptyString => true
          | String a s1' => if ascii_dec a c then String.prefix s1' s else false
          end) with (String.prefix sep (String c s)) in *.
  rewrite Hp, (IH Hs). reflexivity.
Qed.

Lemma mem_ascii_append (c : ascii) (a b : string) :
  PyStr.mem_ascii c (a +:+ b) = PyStr.mem_ascii c a || PyStr.mem_ascii c b.
Proof.
  unfold PyStr.mem_ascii. induction a as [|x a IH]; app_cons; cbn; [reflexivity|].
  rewrite IH, orb_assoc. reflexivity.
Qed.

Lemma mem_ascii_rev (c : ascii) (s : string) :
  PyStr.mem_ascii c (String.rev s) = PyStr.mem_ascii c s.
Proof.
  induction s as [|x s IH]; [reflexivity|].
  rewrite rev_cons, mem_ascii_append, IH. unfold PyStr.mem_ascii. cbn.
  rewrite orb_false_r, orb_comm. reflexivity.
Qed.

Lemma mem_ascii_lstrip (c : ascii) (cs s : string) :
  PyStr.mem_ascii c s = false -> PyStr.mem_ascii c (PyStr.lstrip cs s) = false.
Proof.
  induction s as [|x s IH]; cbn; [reflexivity|].
  intros Hm. destruct (PyStr.mem_ascii x cs); [|exact Hm].
  apply IH. unfold PyStr.mem_ascii in *. cbn in Hm.
  apply orb_false_iff in Hm. apply Hm.
Qed.

Lemma mem_ascii_rstrip (c : ascii) (cs s : string) :
  PyStr.mem_ascii c s = false -> PyStr.mem_ascii c (PyStr.rstrip cs s) = false.
Proof.
  intros Hm. unfold PyStr.rstrip. rewrite mem_ascii_rev.
  apply mem_ascii_lstrip. rewrite mem_ascii_rev. exact Hm.
Qed.

Lemma mem_ascii_before (sep : ascii) (s : string) :
  PyStr.mem_ascii sep (PyStr.before sep s) = false.
Proof.
  unfold PyStr.mem_ascii. induction s as [|c s IH]; cbn; [reflexivity|].
  destruct (Ascii.eqb c sep) eqn:E; cbn; [reflexivity|].
  rewrite Ascii.eqb_sym, E, IH. reflexivity.
Qed.

Lemma endswith_append (t x : string) : PyStr.endswith t (x +:+ t) = true.
Proof. unfold PyStr.endswith. rewrite rev_append. apply prefix_append. Qed.

End StringFacts.


(** For a source that ends in a layer number (any character outside
    [/query]), without query string and without [/query], the layer
    resource is the source followed by [?f=json]. *)
Theorem layer_json_url_of_a_layer (p : string) (c : ascii) :
  PyStr.mem_ascii c "/query" = false ->
  PyStr.mem_ascii "?" (p +:+ String c EmptyString) = false ->
  PyStr.contains "/query" (p +:+ String c EmptyString) = false ->
  layer_json_url (p +:+ String c EmptyString) = p +:+ String c EmptyString +:+ "?f=json".
Proof.
  intros Hc Hq Hk. unfold layer_json_url.
  assert (Hslash : PyStr.mem_ascii c "/" = false).
  { unfold PyStr.mem_ascii in *. cbn in *.
    apply orb_false_iff in Hc. destruct Hc as [Hc _]. rewrite Hc. reflexivity. }
  rewrite (before_absent _ _ Hq).
  assert (R1 : PyStr.rstrip "/" (String c EmptyString) = String c EmptyString).
  { unfold PyStr.rstrip. change (String.rev (String c EmptyString)) with (String c EmptyString).
    cbn [PyStr.lstrip]. rewrite Hslash. reflexivity. }
  assert (R2 : PyStr.rstrip "/query" (String c EmptyString) = String c EmptyString).
  { unfold PyStr.rstrip. change (String.rev (String c EmptyString)) with (String c EmptyString).
    cbn [PyStr.lstrip]. rewrite Hc. reflexivity. }
  rewrite rstrip_app by (rewrite R1; discriminate). rewrite R1.
  rewrite (before_str_absent _ _ Hk).
  rewrite rstrip_app by (rewrite R2; discriminate). rewrite R2.
  rewrite append_assoc. reflexivity.
Qed.

(** The ArcGIS layer of the worked example. *)
Lemma layer_json_url_of_the_rivers :
  layer_json_url ("https://example.org/arcgis/rest/services/Rivers/FeatureServer/"
                  +:+ String "0" EmptyString)
  = "https://example.org/arcgis/rest/services/Rivers/FeatureServer/"
    +:+ String "0" EmptyString +:+ "?f=json".
Proof.
  apply (layer_json_url_of_a_layer
           "https://example.org/arcgis/rest/services/Rivers/FeatureServer/" "0");
    vm_compute; reflexivity.
Defined.

(** [rstrip("/query")] strips characters, not a suffix: for a source
    that addresses the service itself, ending in [/FeatureServer/] or
    [/MapServer/], the last two letters of [Server] go as well. *)
Theorem layer_json_url_of_a_service_root (p stem : string) :
  stem = "/FeatureServ" \/ stem = "/MapServ" ->
  PyStr.mem_ascii "?" p = false ->
  PyStr.contains "/query" (p +:+ stem +:+ "er") = false ->
  layer_json_url (p +:+ stem +:+ "er/") = p +:+ stem +:+ "?f=json".
Proof.
  intros Hs Hq Hk. unfold layer_json_url.
  assert (M : PyStr.mem_ascii "?" (p +:+ stem +:+ "er/") = false).
  { rewrite mem_ascii_append, Hq. destruct Hs as [-> | ->]; reflexivity. }
  rewrite (before_absent _ _ M).
  assert (R1 : PyStr.rstrip "/" (stem +:+ "er/") = stem +:+ "er")
    by (destruct Hs as [-> | ->]; vm_compute; reflexivity).
  assert (R2 : PyStr.rstrip "/query" (stem +:+ "er") = stem)
    by (destruct Hs as [-> | ->]; vm_compute; reflexivity).
  rewrite rstrip_app by (rewrite R1; destruct Hs as [-> | ->]; discriminate).
  rewrite R1. rewrite (before_str_absent _ _ Hk).
  rewrite rstrip_app by (rewrite R2; destruct Hs as [-> | ->]; discriminate).
  rewrite R2. rewrite append_assoc. reflexivity.
Qed.

(** The rivers service addressed by its root, with a closing slash. *)
Lemma layer_json_url_of_the_rivers_service :
  layer_json_url ("https://example.org/arcgis/rest/services/Rivers"
                  +:+ "/FeatureServ" +:+ "er/")
  = "https://example.org/arcgis/rest/services/Rivers" +:+ "/FeatureServ" +:+ "?f=json".
Proof.
  apply (layer_json_url_of_a_service_root
           "https://example.org/arcgis/rest/services/Rivers" "/FeatureServ").
  - left. reflexivity.
  - vm_compute. reflexivity.
  - vm_compute. reflexivity.
Defined.

(** The address that [run_prestep] queries ends in [/query], has no
    query string, and is left alone when it is cleaned again. *)
Theorem query_url_is_a_query_endpoint (source_str : string) :
  PyStr.endswith "/query" (query_url source_str) = true /\
  PyStr.mem_ascii "?" (query_url source_str) = false /\
  query_url (query_url source_str) = query_url source_str.
Proof.
  assert (E : PyStr.endswith "/query" (query_url source_str) = true).
  { unfold query_url.
    destruct (PyStr.endswith "/query" (PyStr.before "?" source_str)) eqn:Eb; cbn [negb].
    - exact Eb.
    - apply endswith_append. }
  assert (M : PyStr.mem_ascii "?" (query_url source_str) = false).
  { unfold query_url.
    destruct (PyStr.endswith "/query" (PyStr.before "?" source_str)); cbn [negb].
    - apply mem_ascii_before.
    - rewrite mem_ascii_append, mem_ascii_rstrip by apply mem_ascii_before.
      reflexivity. }
  split; [exact E|]. split; [exact M|].
  unfold query_url at 1. rewrite (before_absent _ _ M), E. reflexivity.
Qed.


Example update_fields_examples :
  strip_ns "{http://www.w3.org/2001/XMLSchema}element" = "element" /\
  strip_ns "element" = "element" /\
  wfs_fields stations_schema = ["name"; "code"] /\
  layer_json_url "https://example.org/arcgis/rest/services/Rivers/FeatureServer/0"
  = "https://example.org/arcgis/rest/services/Rivers/FeatureServer/0?f=json" /\
  layer_json_url "https://example.org/arcgis/rest/services/Rivers/FeatureServer/0/query?where=1"
  = "https://example.org/arcgis/rest/services/Rivers/FeatureServer/0?f=json" /\
  layer_json_url "https://example.org/arcgis/rest/services/Rivers/FeatureServer/"
  = "https://example.org/arcgis/rest/services/Rivers/FeatureServ?f=json" /\
  fields_list
    (snd (update_fields_for_api stations_services
            (session Sessions.stations_world [PickApi 1]
               (Scenario.opened Sessions.stations_world))))
  = ["name"; "code"] /\
  fields_list
    (snd (update_fields_for_api stations_services
            (Scenario.opened Sessions.stations_world)))
  = ["OBJECTID"; "RIVER"].
Proof. repeat split; vm_compute; reflexivity. Qed.


(** ** The field list of the API layer *)

(** The loop over the schema lists exactly the names of the schema
    elements that have a name and a type, both not empty, and whose name
    does not end in [geom] in any letter case. *)
Theorem wfs_fields_lists (elements : list xml_element) (n : string) :
  In n (wfs_fields elements) <->
  exists el t,
    In el elements /\
    strip_ns (tag el) = "element" /\
    dict_get "name" (attrib el) = Some n /\
    dict_get "type" (attrib el) = Some t /\
    n <> EmptyString /\ t <> EmptyString /\
    PyStr.endswith "geom" (PyStr.lower n) = false.
Proof.
  unfold wfs_fields. rewrite in_flat_map. split.
  - intros (el & Hel & Hn). unfold wfs_field in Hn.
    destruct (String.eqb_spec (strip_ns (tag el)) "element") as [Et|]; [|destruct Hn].
    destruct (dict_get "name" (attrib el)) as [name_attr|] eqn:En; [|destruct Hn].
    destruct (dict_get "type" (attrib el)) as [type_attr|] eqn:Ety; [|destruct Hn].
    destruct (is_empty_string name_attr) eqn:E1; [destruct Hn|].
    destruct (is_empty_string type_attr) eqn:E2; [destruct Hn|].
    destruct (PyStr.endswith "geom" (PyStr.lower name_attr)) eqn:E3; [destruct Hn|].
    cbn in Hn. destruct Hn as [<-|[]].
    exists el, type_attr. repeat split; try assumption.
    + intros ->. discriminate E1.
    + intros ->. discriminate E2.
  - intros (el & t & Hel & Et & En & Ety & N1 & N2 & E3).
    exists el. split; [exact Hel|]. unfold wfs_field.
    rewrite Et, En, Ety, E3. cbn.
    destruct n; [contradiction|]. destruct t; [contradiction|]. cbn. left. reflexivity.
Qed.

(** ** The two slots of the API combo *)

Section Inputs.

Context {geometry : Type} `{GeoLib geometry}.

Variable w : world geometry.

Lemma agree_ret {A : Type} (a : A) : agree (@ret geometry A a) (ret a).
Proof. intros d d' Hd. split; [reflexivity|exact Hd]. Qed.

Lemma agree_lift {A : Type} (r : result A) : agree (@lift geometry A r) (lift r).
Proof. intros d d' Hd. split; [reflexivity|exact Hd]. Qed.

Lemma agree_emit (e : event geometry) : agree (emit e) (emit e).
Proof. intros d d' Hd. split; [reflexivity|exact Hd]. Qed.

Lemma agree_log (s : string) : agree (@log geometry s) (log s).
Proof. apply agree_emit. Qed.

Lemma agree_store (key : string * Z) (f : frame geometry) :
  agree (fun d => (Ok tt, set_api_pre_filtered (<[key := f]> (api_pre_filtered d)) d))
        (fun d => (Ok tt, set_api_pre_filtered (<[key := f]> (api_pre_filtered d)) d)).
Proof.
  intros d d' (H1 & H2 & H3 & H4 & H5 & H6). split; [reflexivity|].
  unfold same_inputs. cbn. rewrite H2. repeat split; assumption.
Qed.

Lemma agree_bind {A B : Type} (m m' : M geometry A) (f f' : A -> M geometry B) :
  agree m m' -> (forall a, agree (f a) (f' a)) -> agree (bindM m f) (bindM m' f').
Proof.
  intros Hm Hf d d' Hd. unfold bindM. destruct (Hm d d' Hd) as [E R].
  destruct (m d) as [[a|e] d1], (m' d') as [[a'|e'] d1']; cbn in *;
    try discriminate.
  - injection E as ->. apply Hf, R.
  - injection E as ->. split; [reflexivity|exact R].
Qed.

Lemma agree_try {A : Type} (m m' : M geometry A) (h h' : exn -> M geometry A) :
  agree m m' -> (forall e, agree (h e) (h' e)) ->
  agree (try_except m h) (try_except m' h').
Proof.
  intros Hm Hh d d' Hd. unfold try_except. destruct (Hm d d' Hd) as [E R].
  destruct (m d) as [[a|e] d1], (m' d') as [[a'|e'] d1']; cbn in *;
    try discriminate.
  - injection E as ->. split; [reflexivity|exact R].
  - injection E as ->. apply Hh, R.
Qed.

Ltac agrees :=
  repeat first
    [ apply agree_ret | apply agree_lift | apply agree_log | apply agree_emit
    | apply agree_store
    | apply agree_bind; [|intros ?]
    | apply agree_try; [|intros ?]
    | match goal with
      | |- agree (match ?x with _ => _ end) _ => destruct x
      | |- agree (if ?b then _ else _) _ => destruct b
      end ].

Lemma agree_to_metric_gdf (gdf : frame geometry) :
  agree (_to_metric_gdf gdf) (_to_metric_gdf gdf).
Proof. unfold _to_metric_gdf. agrees. Qed.

Lemma agree_prestep_wfs key t b : agree (prestep_wfs w key t b) (prestep_wfs w key t b).
Proof. unfold prestep_wfs. agrees. Qed.

Lemma agree_prestep_arcgis key s b :
  agree (prestep_arcgis w key s b) (prestep_arcgis w key s b).
Proof. unfold prestep_arcgis. agrees. Qed.

Lemma agree_fetch_and_store (d d' : dialog geometry) (api_name : string) (app_index : Z) :
  same_inputs d d' ->
  agree (fetch_and_store w d api_name app_index) (fetch_and_store w d' api_name app_index).
Proof.
  intros (H1 & H2 & H3 & H4 & H5 & H6).
  unfold fetch_and_store. rewrite H1, H3, H4.
  agrees; first [apply agree_to_metric_gdf | apply agree_prestep_wfs
                | apply agree_prestep_arcgis].
Qed.

Lemma agree_run_prestep : agree (run_prestep w) (run_prestep w).
Proof.
  unfold run_prestep. apply agree_try; [|intros e; agrees].
  intros d d' Hd. unfold bindM, get.
  pose proof Hd as (H1 & H2 & H3 & H4 & H5 & H6).
  rewrite H2, H5, H6.
  destruct (_ || _); [apply agree_ret; exact Hd|].
  destruct (api_pre_filtered d !! _); [apply agree_log; exact Hd|].
  apply agree_fetch_and_store; exact Hd.
Qed.

End Inputs.

Lemma update_fields_for_api_cases (geometry : Type) (lib : GeoLib geometry)
    (services : field_services) (d : dialog geometry) :
  fst (update_fields_for_api services d) = Ok tt /\
  same_inputs d (snd (update_fields_for_api services d)) /\
  selectedItems (snd (update_fields_for_api services d)) = [] /\
  exists t, trace (snd (update_fields_for_api services d)) = (trace d ++ t)%list /\
            (http_count t <= 1)%nat.
Proof.
  unfold same_inputs.
  unfold update_fields_for_api, wfs_field_list, arcgis_field_list, add_fields,
    clear_fields, selection_cleared, try_except, bindM, log, emit, lift, get, ret.
  cbn.
  repeat match goal with
         | |- context [match ?x with _ => _ end] =>
             lazymatch x with
             | context [match _ with _ => _ end] => fail
             | _ => destruct x eqn:?
             end
         | |- context [if ?b then _ else _] =>
             lazymatch b with
             | context [if _ then _ else _] => fail
             | _ => destruct b eqn:?
             end
         end; cbn;
    repeat split;
    first [ exists []; split; [rewrite List.app_nil_r; reflexivity | cbn; lia]
          | eexists; split; [rewrite <- ?List.app_assoc; reflexivity
                            | unfold http_count; cbn; lia] ].
Qed.

(** [update_fields_for_api] never raises.  It leaves the cache, the
    combos and the layer lists as they are, clears the selection of
    fields, and makes at most one HTTP request. *)
Theorem update_fields_for_api_effects (geometry : Type) (lib : GeoLib geometry)
    (services : field_services) (d : dialog geometry) :
  let d' := snd (update_fields_for_api services d) in
  fst (update_fields_for_api services d) = Ok tt /\
  api_pre_filtered d' = api_pre_filtered d /\
  wfs_layers_info d' = wfs_layers_info d /\
  shp_layers d' = shp_layers d /\
  api_layers d' = api_layers d /\
  combo_app d' = combo_app d /\
  combo_api d' = combo_api d /\
  selectedItems d' = [] /\
  exists t, trace d' = (trace d ++ t)%list /\ (http_count t <= 1)%nat.
Proof.
  cbn zeta.
  destruct (update_fields_for_api_cases geometry lib services d)
    as (E & (H1 & H2 & H3 & H4 & H5 & H6) & Hs & Ht).
  repeat split; assumption.
Qed.


(** For a WFS layer whose schema can be read, the field list becomes the
    list of the schema's fields: the entries of the layer shown before
    are gone, and nothing is selected.  The log has the line of the
    cleared selection, if there was one, then the request and the number
    of fields. *)
Theorem update_fields_for_a_wfs_layer (geometry : Type) (lib : GeoLib geometry)
    (services : field_services) (d : dialog geometry)
    (c : ascii) (t : string) (elements : list xml_element) :
  is_empty_string (currentText (combo_api d)) = false ->
  wfs_layers_info d !! currentText (combo_api d) = Some (String c t) ->
  describe_feature_type services (String c t) = Ok elements ->
  let d' := snd (update_fields_for_api services d) in
  fields_list d' = wfs_fields elements /\
  selectedItems d' = [] /\
  trace d'
  = (trace d
     ++ match selectedItems d with
        | [] => []
        | _ :: _ => [Log "Selected fields: []"]
        end
     ++ [HttpGet wfs_url
           [("service", PStr "WFS"); ("version", PStr "1.1.0");
            ("request", PStr "DescribeFeatureType");
            ("typename", PStr (String c t))];
         Log ("Loaded " +:+ pretty (length (wfs_fields elements))
              +:+ " WFS fields.")])%list.
Proof.
  intros Hn Hw Hd. cbn zeta.
  unfold update_fields_for_api, wfs_field_list, add_fields,
    clear_fields, selection_cleared, try_except, bindM, log, emit, lift, get, ret.
  cbn. rewrite Hn, Hw. cbn. rewrite Hd. cbn.
  rewrite <- !List.app_assoc. repeat split.
Qed.

(** The stations layer: the geometry column and the element without
    type are not listed. *)
Lemma update_fields_for_the_stations :
  let d := session Sessions.stations_world [PickApi 1; PickFields ["id"]]
             (Scenario.opened Sessions.stations_world) in
  let d' := snd (update_fields_for_api stations_services d) in
  fields_list d' = wfs_fields stations_schema /\
  selectedItems d' = [] /\
  trace d'
  = (trace d
     ++ match selectedItems d with
        | [] => []
        | _ :: _ => [Log "Selected fields: []"]
        end
     ++ [HttpGet wfs_url
           [("service", PStr "WFS"); ("version", PStr "1.1.0");
            ("request", PStr "DescribeFeatureType");
            ("typename", PStr (String "E" "PA:STATIONS"))];
         Log ("Loaded " +:+ pretty (length (wfs_fields stations_schema))
              +:+ " WFS fields.")])%list.
Proof.
  apply (update_fields_for_a_wfs_layer BoxWorld.box BoxWorld.box_lib stations_services
           (session Sessions.stations_world [PickApi 1; PickFields ["id"]]
              (Scenario.opened Sessions.stations_world))
           "E" "PA:STATIONS" stations_schema).
  - vm_compute. reflexivity.
  - vm_compute. reflexivity.
  - reflexivity.
Defined.

(** When the schema of a WFS layer cannot be read, the method returns
    normally with an empty field list and no selection.  The log has the
    line of the cleared selection, if there was one, then the request
    and the failure. *)
Theorem update_fields_wfs_failure (geometry : Type) (lib : GeoLib geometry)
    (services : field_services) (d : dialog geometry)
    (c : ascii) (t : string) (e : exn) :
  is_empty_string (currentText (combo_api d)) = false ->
  wfs_layers_info d !! currentText (combo_api d) = Some (String c t) ->
  describe_feature_type services (String c t) = Raise e ->
  let d' := snd (update_fields_for_api services d) in
  fst (update_fields_for_api services d) = Ok tt /\
  fields_list d' = [] /\
  selectedItems d' = [] /\
  trace d'
  = (trace d
     ++ match selectedItems d with
        | [] => []
        | _ :: _ => [Log "Selected fields: []"]
        end
     ++ [HttpGet wfs_url
           [("service", PStr "WFS"); ("version", PStr "1.1.0");
            ("request", PStr "DescribeFeatureType");
            ("typename", PStr (String c t))];
         Log ("Failed to load WFS fields: " +:+ exn_text e)])%list.
Proof.
  intros Hn Hw Hd. cbn zeta.
  unfold update_fields_for_api, wfs_field_list, add_fields,
    clear_fields, selection_cleared, try_except, bindM, log, emit, lift, get, ret.
  cbn. rewrite Hn, Hw. cbn. rewrite Hd. cbn.
  rewrite <- !List.app_assoc. repeat split.
Qed.

(** The stations layer, with the field [id] selected, while the WFS
    service refuses the connection. *)
Lemma update_fields_offline :
  let services :=
    mkFieldServices (fun _ => Raise (LibraryError "Connection refused"))
      (fun _ => Raise (LibraryError "Connection refused")) in
  let d := session Sessions.stations_world [PickApi 1; PickFields ["id"]]
             (Scenario.opened Sessions.stations_world) in
  let d' := snd (update_fields_for_api services d) in
  fst (update_fields_for_api services d) = Ok tt /\
  fields_list d' = [] /\
  selectedItems d' = [] /\
  trace d'
  = (trace d
     ++ match selectedItems d with
        | [] => []
        | _ :: _ => [Log "Selected fields: []"]
        end
     ++ [HttpGet wfs_url
           [("service", PStr "WFS"); ("version", PStr "1.1.0");
            ("request", PStr "DescribeFeatureType");
            ("typename", PStr (String "E" "PA:STATIONS"))];
         Log ("Failed to load WFS fields: "
              +:+ exn_text (LibraryError "Connection refused"))])%list.
Proof.
  apply (update_fields_wfs_failure BoxWorld.box BoxWorld.box_lib
           (mkFieldServices (fun _ => Raise (LibraryError "Connection refused"))
              (fun _ => Raise (LibraryError "Connection refused")))
           (session Sessions.stations_world [PickApi 1; PickFields ["id"]]
              (Scenario.opened Sessions.stations_world))
           "E" "PA:STATIONS" (LibraryError "Connection refused")).
  - vm_compute. reflexivity.
  - vm_compute. reflexivity.
  - reflexivity.
Defined.

(** Picking an entry of the API combo calls both slots, the field list
    first.  The pre-download is not affected by it: the cache ends as
    [run_prestep] alone leaves it, the combos and the layer lists stay,
    and at most two HTTP requests are made. *)
Theorem api_index_changed_prestep (geometry : Type) (lib : GeoLib geometry)
    (services : field_services) (w : world geometry) (d : dialog geometry) :
  let d' := snd (api_index_changed services w d) in
  fst (api_index_changed services w d) = Ok tt /\
  api_pre_filtered d' = api_pre_filtered (snd (run_prestep w d)) /\
  wfs_layers_info d' = wfs_layers_info d /\
  shp_layers d' = shp_layers d /\
  api_layers d' = api_layers d /\
  combo_app d' = combo_app d /\
  combo_api d' = combo_api d /\
  exists t, trace d' = (trace d ++ t)%list /\ (http_count t <= 2)%nat.
Proof.
  cbn zeta. unfold api_index_changed, bindM.
  destruct (update_fields_for_api_cases geometry lib services d)
    as (E & Hin & _ & t1 & T1 & N1).
  destruct (update_fields_for_api services d) as [[[]|e] d1]; cbn in *;
    [|discriminate].
  destruct (agree_run_prestep w d d1 Hin) as [_ (_ & R2 & _)].
  destruct (budget_run_prestep w d1) as [(W1 & W3 & W4 & W5 & W6 & _) (t2 & T2 & N2)].
  destruct Hin as (H1 & H2 & H3 & H4 & H5 & H6).
  split; [apply run_prestep_returns|].
  split; [exact R2|].
  split; [congruence|]. split; [congruence|]. split; [congruence|].
  split; [congruence|]. split; [congruence|].
  exists (t1 ++ t2)%list. split.
  - rewrite T2, T1, List.app_assoc. reflexivity.
  - rewrite http_count_app. lia.
Qed.
